(** * Rent Easy / Chat Point backends and the Chat Point service worker

    A shallow embedding of the request handlers of the two Express
    backends ([src/unnamed/part_000], the Rent Easy server, and
    [src/server.cjs], the Chat Point server) and of the service worker
    ([src/sw.js]), followed by the properties of them that the
    specification states.

    Conventions of the embedding.
    - A request body is a record of typed, optional fields: [None] is a
      field that is absent ([undefined] after destructuring).
    - A JavaScript object used as a mapping is an association list in
      property enumeration order (the order of [for ... in] and of
      [Object.keys]).
    - Quantities, prices and amounts are JSON integers ([Z]); the two
      coordinates produced by [parseFloat] are of type [JS.number], a
      double kept by its value.
    - A collection is the list of its documents in insertion order; a
      handler is a function from the collection and the request to a
      response and the new collection, and handlers run one at a time.
      What the driver supplies (the fresh [_id], the clock, the cast of
      a string to an ObjectId) is an explicit argument.
    - The texts of the response messages are kept without their
      pictographs. *)

From Stdlib Require Import ZArith QArith Qreduction Qpower Qabs.
From Stdlib Require Import List String Ascii Bool Lia Lqa.
From Stdlib Require Import Permutation Sorted.
Import ListNotations.

Local Open Scope string_scope.
Local Open Scope Z_scope.

(* ================================================================== *)
(** * Part I: the embedding *)
(* ================================================================== *)

(** ** The fragment of JavaScript the handlers rely on *)

Module JS.

(** Truthiness of an optional string: [undefined] and the empty string
    are falsy. *)
Definition truthy (v : option string) : bool :=
  match v with
  | Some s => negb (String.eqb s "")
  | None => false
  end.

(** [a || b] on an optional string with a string default. *)
Definition or_default (v : option string) (d : string) : string :=
  match v with
  | Some s => if String.eqb s "" then d else s
  | None => d
  end.

(** *** [String.prototype.split] with a string separator *)

(** One left-to-right scan: [cur] is the segment being built and
    [skip] counts the characters of a matched separator that are
    still to be jumped over. *)
Fixpoint split_from (sep s : string) (skip : nat) (cur : string)
  : list string :=
  match s with
  | EmptyString => [cur]
  | String c s' =>
      match skip with
      | S k => split_from sep s' k cur
      | O =>
          if String.prefix sep s
          then cur :: split_from sep s' (String.length sep - 1) ""
          else split_from sep s' 0 (cur ++ String c "")
      end
  end.

Fixpoint chars (s : string) : list string :=
  match s with
  | EmptyString => []
  | String c s' => String c "" :: chars s'
  end.

Definition split (s sep : string) : list string :=
  if String.eqb sep "" then chars s else split_from sep s 0 "".

(** [s.includes(sep)]: [sep] occurs somewhere in [s]. *)
Fixpoint includes (s sep : string) : bool :=
  match s with
  | EmptyString => String.prefix sep s
  | String _ s' => (String.prefix sep s || includes s' sep)%bool
  end.

(** The character [c] occurs in [s]. *)
Fixpoint has_char (c : ascii) (s : string) : bool :=
  match s with
  | EmptyString => false
  | String a s' => (Ascii.eqb a c || has_char c s')%bool
  end.

(** *** Numbers and [parseFloat] *)

(** A Number is NaN, an infinity or a finite double. A finite double is
    kept by its value, a reduced fraction: the doubles are the numbers
    [m * 2^(t - 1074)] with [|m| < 2^53] and [0 <= t <= 2045]. The sign
    of a zero is not kept. *)
Inductive number : Type :=
| NaN
| Infinity (negative : bool)
| Num (q : Q).

(** The least positive double is [1 / least]. *)
Definition least : positive := (2 ^ 1074)%positive.

(** Where the last bit of the doubles next to [n / d] stands, for
    [0 <= n] and [0 < d] counted in least doubles: at [2^t] for the [t]
    that leaves 53 bits before it, at [2^0] when there are fewer. *)
Definition ulp_exponent (n d : Z) : Z := Z.max 0 (Z.log2 (n / d) - 52).

(** The integer nearest to [n / b], the even one of the two when
    [n / b] lies half way between them. *)
Definition round_half_even (n b : Z) : Z :=
  let m := n / b in
  let r := n mod b in
  if 2 * r <? b then m
  else if b <? 2 * r then m + 1
  else if Z.even m then m else m + 1.

(** The Number value for a mathematical value: the double nearest to
    it, ties going to the even significand, and an infinity when the
    choice falls on [2^1024], that is on [2^2098] least doubles. *)
Definition number_value (q : Q) : number :=
  let n := Z.abs (Qnum q) * Z.pos least in
  let d := Z.pos (Qden q) in
  let t := ulp_exponent n d in
  let k := round_half_even n (d * 2 ^ t) * 2 ^ t in
  if 2 ^ 2098 <=? k then Infinity (Qnum q <? 0)
  else Num (Qred (Qmake (Z.sgn (Qnum q) * k) least)).

Definition isNaN (n : number) : bool :=
  match n with NaN => true | _ => false end.

Definition is_white (c : ascii) : bool :=
  let n := nat_of_ascii c in
  (Nat.eqb n 32 || ((9 <=? n) && (n <=? 13))%nat)%bool.

Fixpoint trim_start (s : string) : string :=
  match s with
  | String c s' => if is_white c then trim_start s' else s
  | EmptyString => s
  end.

Definition is_digit (c : ascii) : bool :=
  let n := nat_of_ascii c in ((48 <=? n) && (n <=? 57))%nat.

Definition digit_val (c : ascii) : Z := Z.of_nat (nat_of_ascii c - 48).

(** The longest prefix of decimal digits, and the rest. *)
Fixpoint span_digits (s : string) : string * string :=
  match s with
  | String c s' =>
      if is_digit c
      then let (d, r) := span_digits s' in (String c d, r)
      else ("", s)
  | EmptyString => ("", "")
  end.

Fixpoint digits_value (acc : Z) (s : string) : Z :=
  match s with
  | String c s' => digits_value (10 * acc + digit_val c) s'
  | EmptyString => acc
  end.

Definition strip_sign (s : string) : bool * string :=
  match s with
  | String "-" r => (true, r)
  | String "+" r => (false, r)
  | _ => (false, s)
  end.

(** The exponent part [e|E [+|-] digits] when one is present. *)
Definition exponent (s : string) : Z :=
  match s with
  | String c r =>
      if (Ascii.eqb c "e" || Ascii.eqb c "E")%bool then
        let (neg, r') := strip_sign r in
        let (d, _) := span_digits r' in
        if String.eqb d "" then 0
        else if neg then - digits_value 0 d else digits_value 0 d
      else 0
  | EmptyString => 0
  end.

Definition decimal (neg : bool) (mantissa scale : Z) : Q :=
  Qred (inject_Z (if neg then - mantissa else mantissa)
        * Qpower (inject_Z 10) scale).

(** [parseFloat]: leading white space (of the ASCII range) is dropped,
    then the longest prefix that is a [StrDecimalLiteral] is read, and
    the result is the Number value for what it denotes; [NaN] when there
    is none. *)
Definition parseFloat (input : string) : number :=
  let (neg, s) := strip_sign (trim_start input) in
  if String.prefix "Infinity" s then Infinity neg
  else
    let (ip, r1) := span_digits s in
    let (fp, r2) :=
      match r1 with
      | String "." r => span_digits r
      | _ => ("", r1)
      end in
    if (String.eqb ip "" && String.eqb fp "")%bool then NaN
    else
      number_value (decimal neg (digits_value 0 (ip ++ fp))
                      (exponent r2 - Z.of_nat (String.length fp))).

(** [ToString] of a value that is a string or [undefined]. *)
Definition toString (v : option string) : string :=
  match v with
  | Some s => s
  | None => "undefined"
  end.

(** *** Objects as mappings *)

(** [obj[k]] on an association list. *)
Fixpoint get {A : Type} (o : list (string * A)) (k : string) : option A :=
  match o with
  | [] => None
  | (k', v) :: o' => if String.eqb k' k then Some v else get o' k
  end.

(** [Object.keys(obj)]. *)
Definition keys {A : Type} (o : list (string * A)) : list string :=
  map fst o.

End JS.

(** ** The document store *)

Module Mongo.

(** A 12-byte ObjectId, as a number. *)
Definition ObjectId : Type := N.

(** What a handler's [try] block can throw. *)
Inductive exn : Type :=
| TypeError          (* raised by the JavaScript run time *)
| CastError          (* a query value that does not cast to the schema type *)
| ValidationError    (* [save] on a document the schema rejects *)
| DuplicateKey.      (* [save] against a unique index *)

Inductive result (A : Type) : Type :=
| Ok (a : A)
| Throw (e : exn).
Arguments Ok {A} a.
Arguments Throw {A} e.

Definition bind {A B : Type} (m : result A) (k : A -> result B) : result B :=
  match m with
  | Ok a => k a
  | Throw e => Throw e
  end.

(** [try { body } catch { handler }]. *)
Definition try_catch {A : Type} (body : result A) (handler : exn -> A) : A :=
  match body with
  | Ok a => a
  | Throw e => handler e
  end.

(** An element of an array by index, [undefined] out of range. *)
Definition index {A : Type} (l : list A) (i : nat) : option A := nth_error l i.

Section Collection.
Context {A : Type}.

(** [Model.findOne(filter)]: the first document that matches. *)
Definition findOne (p : A -> bool) (c : list A) : option A := find p c.

(** [doc.save()] of a new, valid document. *)
Definition insert (c : list A) (doc : A) : list A := c ++ [doc].

(** [.sort({ date: -1 })]: the documents by decreasing key. Among
    equal keys the store promises no order; the model keeps the order
    of insertion, and nothing below depends on it. *)
Fixpoint insert_desc (key : A -> Z) (x : A) (l : list A) : list A :=
  match l with
  | [] => [x]
  | y :: l' =>
      if key y <=? key x then x :: y :: l'
      else y :: insert_desc key x l'
  end.

Definition sort_desc (key : A -> Z) (l : list A) : list A :=
  fold_right (insert_desc key) [] l.

(** [a] may come before [b] in a list by decreasing key. *)
Definition desc (key : A -> Z) (a b : A) : Prop := key b <= key a.

(** [Model.find(filter).sort({ date: -1 })]. *)
Definition find_sorted (p : A -> bool) (key : A -> Z) (c : list A) : list A :=
  sort_desc key (filter p c).

(** [Model.findByIdAndUpdate(id, update, { new: true })]: the first
    document with that [_id] is updated and returned. *)
Fixpoint findByIdAndUpdate (id_of : A -> ObjectId) (upd : A -> A)
  (id : ObjectId) (c : list A) : option A * list A :=
  match c with
  | [] => (None, [])
  | d :: c' =>
      if N.eqb (id_of d) id then (Some (upd d), upd d :: c')
      else
        let (r, c'') := findByIdAndUpdate id_of upd id c' in
        (r, d :: c'')
  end.
End Collection.

(** An element [{ name, price, quantity }] of [Order.items], in both
    backends. *)
Record line_item : Type := {
  name : string;
  price : Z;
  quantity : option Z       (* [None]: no value under that name *)
}.

(** What the driver and the clock supply to a handler. *)
Record env : Type := {
  newId : ObjectId;   (* the [_id] given to a new document *)
  now : Z             (* [Date.now()] *)
}.

(** The filter of [findOne({ phone })]: every stored phone is a string,
    so an absent phone matches no document. *)
Definition phone_is {A : Type} (phone_of : A -> string) (p : option string)
  (a : A) : bool :=
  match p with
  | Some s => String.eqb (phone_of a) s
  | None => false
  end.

(** [stored !== given]. *)
Definition differs (stored : string) (given : option string) : bool :=
  match given with
  | Some g => negb (String.eqb stored g)
  | None => true
  end.

End Mongo.

Notation "x <- m ;; k" := (Mongo.bind m (fun x => k))
  (at level 61, m at next level, right associativity).

(** ** The Rent Easy backend ([src/unnamed/part_000]) *)

Module RentEasy.

Record user : Type := {
  u_id : Mongo.ObjectId;
  u_name : string;
  u_phone : string;          (* required, unique *)
  u_password : string
}.

Record address : Type := {
  a_name : string;
  a_phone : string;
  line1 : string;
  line2 : option string
}.

Record order : Type := {
  o_id : Mongo.ObjectId;
  userId : Mongo.ObjectId;   (* required *)
  o_user_name : string;
  o_user_phone : string;
  shop : option string;
  items : list Mongo.line_item;
  totalAmount : option Z;
  deliveryCharge : Z;
  o_address : address;
  paymentMethod : string;
  status : string;           (* default "pending" *)
  date : Z;                  (* default Date.now *)
  createdAt : Z;             (* { timestamps: true } *)
  updatedAt : Z
}.

Record db : Type := {
  users : list user;
  orders : list order
}.

(** One entry [{ qty, price }] of the cart, and the cart itself:
    shop -> item -> entry. *)
Record cart_entry : Type := {
  qty : Z;
  price : Z
}.

Definition cart : Type := list (string * list (string * cart_entry)).

Record signup_body : Type := {
  su_name : option string;
  su_phone : option string;
  su_password : option string
}.

Record login_body : Type := {
  lg_phone : option string;
  lg_password : option string
}.

Record save_order_body : Type := {
  so_userId : option string;
  so_name : option string;
  so_phone : option string;
  so_address1 : option string;
  so_address2 : option string;
  so_cart : option cart;
  so_itemsTotal : option Z;
  so_deliveryCharge : option Z;
  so_grandTotal : option Z;
  so_paymentMode : option string
}.

Record update_status_body : Type := {
  us_orderId : option string;
  us_status : option string
}.

Inductive payload : Type :=
| NoPayload
| UserPayload (id : Mongo.ObjectId) (name phone : string)
| OrderIdPayload (id : Mongo.ObjectId)
| OrderPayload (o : order)
| OrdersPayload (l : list order).

Record response : Type := {
  http_status : Z;
  success : bool;
  message : option string;
  body : payload
}.

Definition fail (code : Z) (msg : string) : response :=
  {| http_status := code; success := false; message := Some msg;
     body := NoPayload |}.

Definition json (msg : option string) (p : payload) : response :=
  {| http_status := 200; success := true; message := msg; body := p |}.

Definition with_users (d : db) (us : list user) : db :=
  {| users := us; orders := orders d |}.

Definition with_orders (d : db) (os : list order) : db :=
  {| users := users d; orders := os |}.

(** [user.save()]: the unique index on [phone] rejects a second
    document with the same phone. *)
Definition save_user (d : db) (u : user) : Mongo.result db :=
  if existsb (fun v => String.eqb (u_phone v) (u_phone u)) (users d)
  then Mongo.Throw Mongo.DuplicateKey
  else Mongo.Ok (with_users d (Mongo.insert (users d) u)).

(** [POST /api/user/signup]. *)
Definition signup (e : Mongo.env) (d : db) (r : signup_body)
  : response * db :=
  Mongo.try_catch
    (if (negb (JS.truthy (su_name r)) || negb (JS.truthy (su_phone r))
         || negb (JS.truthy (su_password r)))%bool
     then Mongo.Ok (fail 400 "All fields required", d)
     else
       match Mongo.findOne (Mongo.phone_is u_phone (su_phone r)) (users d) with
       | Some _ => Mongo.Ok (fail 400 "Phone already registered", d)
       | None =>
           let user := {| u_id := Mongo.newId e;
                          u_name := JS.toString (su_name r);
                          u_phone := JS.toString (su_phone r);
                          u_password := JS.toString (su_password r) |} in
           d' <- save_user d user ;;
           Mongo.Ok (json (Some "Signup successful") NoPayload, d')
       end)
    (fun _ => (fail 500 "Server error", d)).

(** [POST /api/user/login]. *)
Definition login (d : db) (r : login_body) : response :=
  match Mongo.findOne (Mongo.phone_is u_phone (lg_phone r)) (users d) with
  | None => fail 401 "Invalid credentials"
  | Some user =>
      if Mongo.differs (u_password user) (lg_password r)
      then fail 401 "Invalid credentials"
      else json None (UserPayload (u_id user) (u_name user) (u_phone user))
  end.

(** The two nested [for ... in] loops of [save-order]: the line items
    pushed so far and the running total. *)
Definition add_entry (acc : list Mongo.line_item * Z)
  (kv : string * cart_entry) : list Mongo.line_item * Z :=
  let (item, entry) := kv in
  let (items, total) := acc in
  if 0 <? qty entry
  then ((items ++ [{| Mongo.name := item; Mongo.price := price entry;
                      Mongo.quantity := Some (qty entry) |}])%list,
        total + qty entry * price entry)
  else (items, total).

Definition add_shop (acc : list Mongo.line_item * Z)
  (kv : string * list (string * cart_entry)) : list Mongo.line_item * Z :=
  fold_left add_entry (snd kv) acc.

Definition flatten (c : cart) : list Mongo.line_item * Z :=
  fold_left add_shop c ([], 0).

Section Handlers.

(** The driver's cast of a string to an ObjectId. *)
Variable castObjectId : string -> option Mongo.ObjectId.

(** [new Order({ ... })] of [save-order]. *)
Definition new_order (e : Mongo.env) (r : save_order_body)
  (its : list Mongo.line_item) (c : cart) (uid : Mongo.ObjectId) : order :=
  let name := JS.toString (so_name r) in
  let phone := JS.toString (so_phone r) in
  {| o_id := Mongo.newId e;
     userId := uid;
     o_user_name := name;
     o_user_phone := phone;
     shop := Mongo.index (JS.keys c) 0;
     items := its;
     totalAmount := so_grandTotal r;
     deliveryCharge :=
       match so_deliveryCharge r with Some v => v | None => 30 end;
     o_address := {| a_name := name; a_phone := phone;
                     line1 := JS.toString (so_address1 r);
                     line2 := so_address2 r |};
     paymentMethod :=
       match so_paymentMode r with Some m => m | None => "cash" end;
     status := "pending";
     date := Mongo.now e;
     createdAt := Mongo.now e;
     updatedAt := Mongo.now e |}.

(** [order.save()]: [userId] is required and must cast. *)
Definition save_order_doc (e : Mongo.env) (d : db) (r : save_order_body)
  (its : list Mongo.line_item) (c : cart) : Mongo.result (order * db) :=
  match castObjectId (JS.toString (so_userId r)) with
  | None => Mongo.Throw Mongo.ValidationError
  | Some uid =>
      let order := new_order e r its c uid in
      Mongo.Ok (order, with_orders d (Mongo.insert (orders d) order))
  end.

(** [POST /api/save-order]. The five-fold presence check is one [if] in
    the source; all its branches answer the same 400. *)
Definition save_order (e : Mongo.env) (d : db) (r : save_order_body)
  : response * db :=
  Mongo.try_catch
    (match so_cart r with
     | None => Mongo.Ok (fail 400 "Missing data", d)
     | Some c =>
         if (negb (JS.truthy (so_userId r)) || negb (JS.truthy (so_name r))
             || negb (JS.truthy (so_phone r))
             || negb (JS.truthy (so_address1 r)))%bool
         then Mongo.Ok (fail 400 "Missing data", d)
         else
           let (its, total) := flatten c in
           if (List.length its =? 0)%nat
           then Mongo.Ok (fail 400 "Cart empty", d)
           else
             saved <- save_order_doc e d r its c ;;
             Mongo.Ok (json (Some "Order saved!")
                         (OrderIdPayload (o_id (fst saved))), snd saved)
     end)
    (fun _ => (fail 500 "Server error", d)).

(** [GET /api/delivery-orders]. *)
Definition delivery_orders (d : db) : response :=
  json None
    (OrdersPayload
       (Mongo.find_sorted (fun o => String.eqb (status o) "pending") date
          (orders d))).

Definition set_status (s : string) (t : Z) (o : order) : order :=
  {| o_id := o_id o; userId := userId o; o_user_name := o_user_name o;
     o_user_phone := o_user_phone o; shop := shop o; items := items o;
     totalAmount := totalAmount o; deliveryCharge := deliveryCharge o;
     o_address := o_address o; paymentMethod := paymentMethod o;
     status := s; date := date o; createdAt := createdAt o;
     updatedAt := t |}.

Definition allowed_status (s : option string) : bool :=
  match s with
  | Some v => (String.eqb v "delivered" || String.eqb v "cancelled")%bool
  | None => false
  end.

(** [POST /api/update-order-status]. *)
Definition update_order_status (e : Mongo.env) (d : db)
  (r : update_status_body) : response * db :=
  Mongo.try_catch
    (if (negb (JS.truthy (us_orderId r)) || negb (allowed_status (us_status r)))%bool
     then Mongo.Ok (fail 400 "Invalid data", d)
     else
       match castObjectId (JS.toString (us_orderId r)) with
       | None => Mongo.Throw Mongo.CastError
       | Some id =>
           let (found, os) :=
             Mongo.findByIdAndUpdate o_id
               (set_status (JS.toString (us_status r)) (Mongo.now e))
               id (orders d) in
           match found with
           | None => Mongo.Ok (fail 404 "Order not found", d)
           | Some o => Mongo.Ok (json None (OrderPayload o), with_orders d os)
           end
       end)
    (fun _ => (fail 500 "Server error", d)).

(** [GET /api/my-orders], with the [x-user-id] header. *)
Definition my_orders (d : db) (header : option string) : response :=
  Mongo.try_catch
    (if negb (JS.truthy header)
     then Mongo.Ok (fail 400 "Missing x-user-id header")
     else
       match castObjectId (JS.toString header) with
       | None => Mongo.Throw Mongo.CastError
       | Some uid =>
           Mongo.Ok (json None
             (OrdersPayload
                (Mongo.find_sorted (fun o => N.eqb (userId o) uid) date
                   (orders d))))
       end)
    (fun _ => fail 500 "Error loading orders").

End Handlers.

End RentEasy.

(** ** The Chat Point backend ([src/server.cjs]) *)

Module ChatPoint.

Record owner : Type := {
  ow_id : Mongo.ObjectId;
  ow_phone : string;         (* required, unique *)
  ow_password : string       (* required *)
}.

Record user : Type := {
  u_id : Mongo.ObjectId;
  u_name : string;
  u_phone : string;          (* required, unique *)
  u_password : string
}.

Record location : Type := {
  lat : JS.number;           (* required *)
  lng : JS.number            (* required *)
}.

Record address : Type := {
  a_name : string;           (* required *)
  a_phone : string;          (* required *)
  line1 : string;            (* required *)
  line2 : option string;
  a_location : location
}.

Record order : Type := {
  o_id : Mongo.ObjectId;
  userId : option Mongo.ObjectId;   (* default null *)
  o_user_name : string;      (* required *)
  o_user_phone : string;     (* required *)
  shop : string;
  items : list Mongo.line_item;
  totalAmount : option Z;
  deliveryCharge : option Z;
  o_address : address;
  paymentMethod : string;
  status : string;
  date : Z
}.

Record db : Type := {
  owners : list owner;
  users : list user;
  orders : list order
}.

Record owner_body : Type := {
  ob_phone : option string;
  ob_password : option string
}.

Record signup_body : Type := {
  su_name : option string;
  su_phone : option string;
  su_password : option string
}.

Record login_body : Type := {
  lg_phone : option string;
  lg_password : option string
}.

Record user_field : Type := {
  uf_name : option string;
  uf_phone : option string
}.

Record address_field : Type := {
  af_name : option string;
  af_phone : option string;
  af_line1 : option string;
  af_line2 : option string;
  af_location : option string
}.

Record order_body : Type := {
  rq_userId : option string;
  rq_user : option user_field;
  rq_shop : option string;
  rq_items : option (list (string * Z));
  rq_totalAmount : option Z;
  rq_deliveryCharge : option Z;
  rq_address : option address_field;
  rq_paymentMethod : option string
}.

Inductive payload : Type :=
| NoPayload
| OwnerPayload (o : owner)
| UserPayload (u : user)
| OrderPayload (o : order)
| OrdersPayload (l : list order).

Record response : Type := {
  http_status : Z;
  success : bool;
  message : option string;
  body : payload
}.

Definition fail (code : Z) (msg : string) : response :=
  {| http_status := code; success := false; message := Some msg;
     body := NoPayload |}.

Definition json (msg : option string) (p : payload) : response :=
  {| http_status := 200; success := true; message := msg; body := p |}.

Definition with_owners (d : db) (l : list owner) : db :=
  {| owners := l; users := users d; orders := orders d |}.

Definition with_users (d : db) (l : list user) : db :=
  {| owners := owners d; users := l; orders := orders d |}.

Definition with_orders (d : db) (l : list order) : db :=
  {| owners := owners d; users := users d; orders := l |}.

(** [save()] under the unique index on [phone]. *)
Definition save_owner (d : db) (o : owner) : Mongo.result db :=
  if existsb (fun v => String.eqb (ow_phone v) (ow_phone o)) (owners d)
  then Mongo.Throw Mongo.DuplicateKey
  else Mongo.Ok (with_owners d (Mongo.insert (owners d) o)).

Definition save_user (d : db) (u : user) : Mongo.result db :=
  if existsb (fun v => String.eqb (u_phone v) (u_phone u)) (users d)
  then Mongo.Throw Mongo.DuplicateKey
  else Mongo.Ok (with_users d (Mongo.insert (users d) u)).

(** [POST /api/owner/signup]. *)
Definition owner_signup (e : Mongo.env) (d : db) (r : owner_body)
  : response * db :=
  Mongo.try_catch
    (if (negb (JS.truthy (ob_phone r)) || negb (JS.truthy (ob_password r)))%bool
     then Mongo.Ok (fail 400 "Phone and password required", d)
     else
       match Mongo.findOne (Mongo.phone_is ow_phone (ob_phone r)) (owners d) with
       | Some _ => Mongo.Ok (fail 400 "Owner already exists", d)
       | None =>
           let newOwner := {| ow_id := Mongo.newId e;
                              ow_phone := JS.toString (ob_phone r);
                              ow_password := JS.toString (ob_password r) |} in
           d' <- save_owner d newOwner ;;
           Mongo.Ok (json (Some "Owner registered successfully") NoPayload, d')
       end)
    (fun _ => (fail 500 "Server error", d)).

(** [POST /api/owner/login]. *)
Definition owner_login (d : db) (r : owner_body) : response :=
  match Mongo.findOne (Mongo.phone_is ow_phone (ob_phone r)) (owners d) with
  | None => fail 404 "Owner not found"
  | Some owner =>
      if Mongo.differs (ow_password owner) (ob_password r)
      then fail 401 "Incorrect password"
      else json (Some "Login successful") (OwnerPayload owner)
  end.

(** [POST /api/user/signup]. *)
Definition user_signup (e : Mongo.env) (d : db) (r : signup_body)
  : response * db :=
  Mongo.try_catch
    (if (negb (JS.truthy (su_name r)) || negb (JS.truthy (su_phone r))
         || negb (JS.truthy (su_password r)))%bool
     then Mongo.Ok (fail 400 "All fields required", d)
     else
       match Mongo.findOne (Mongo.phone_is u_phone (su_phone r)) (users d) with
       | Some _ => Mongo.Ok (fail 400 "User already exists", d)
       | None =>
           let newUser := {| u_id := Mongo.newId e;
                             u_name := JS.toString (su_name r);
                             u_phone := JS.toString (su_phone r);
                             u_password := JS.toString (su_password r) |} in
           d' <- save_user d newUser ;;
           Mongo.Ok (json (Some "User registered successfully") NoPayload, d')
       end)
    (fun _ => (fail 500 "Server error", d)).

(** [POST /api/user/login]. *)
Definition user_login (d : db) (r : login_body) : response :=
  match Mongo.findOne (Mongo.phone_is u_phone (lg_phone r)) (users d) with
  | None => fail 404 "User not found"
  | Some user =>
      if Mongo.differs (u_password user) (lg_password r)
      then fail 401 "Incorrect password"
      else json (Some "Login successful") (UserPayload user)
  end.

(** The field check at the head of [POST /api/order]. *)
Definition incomplete (r : order_body) : bool :=
  (negb (JS.truthy (match rq_user r with Some u => uf_name u | None => None end))
   || negb (JS.truthy (match rq_user r with Some u => uf_phone u | None => None end))
   || match rq_items r with
      | None => true
      | Some its => (List.length (JS.keys its) =? 0)%nat
      end
   || negb (JS.truthy (match rq_address r with Some a => af_line1 a | None => None end))
   || negb (JS.truthy (match rq_address r with Some a => af_location a | None => None end)))%bool.

(** [Object.keys(items).map(name => ({ name, price: 100, quantity: items[name] }))]. *)
Definition orderItems (its : list (string * Z)) : list Mongo.line_item :=
  map (fun name => {| Mongo.name := name; Mongo.price := 100;
                      Mongo.quantity := JS.get its name |})
      (JS.keys its).

(** [s.split(sep)[i]], a [TypeError] when a method is then called on
    [undefined]. *)
Definition defined (v : option string) : Mongo.result string :=
  match v with
  | Some s => Mongo.Ok s
  | None => Mongo.Throw Mongo.TypeError
  end.

(** The two [parseFloat] expressions of the [location] literal, in
    evaluation order. *)
Definition parse_location (loc : string) : Mongo.result location :=
  after_lat <- defined (Mongo.index (JS.split loc "Lat: ") 1) ;;
  let lat_text := Mongo.index (JS.split after_lat ",") 0 in
  let lng_text := Mongo.index (JS.split loc "Lng: ") 1 in
  Mongo.Ok {| lat := JS.parseFloat (JS.toString lat_text);
              lng := JS.parseFloat (JS.toString lng_text) |}.

Section Handlers.

(** The driver's cast of a string to an ObjectId. *)
Variable castObjectId : string -> option Mongo.ObjectId.

(** [userId || null], cast by the schema; a value that does not cast
    makes [save()] reject the document. *)
Definition cast_userId (v : option string) : Mongo.result (option Mongo.ObjectId) :=
  if JS.truthy v then
    match castObjectId (JS.toString v) with
    | Some id => Mongo.Ok (Some id)
    | None => Mongo.Throw Mongo.ValidationError
    end
  else Mongo.Ok None.

(** What [orderSchema] requires of the address at [save()]:
    [address.name], [address.phone] and [address.line1] are required
    strings, [location.lat] and [location.lng] required Numbers, and NaN
    does not cast to a Number. ([user.name] and [user.phone], required
    as well, have passed the field check by then.) *)
Definition valid_address (a : address_field) (l : location) : bool :=
  (JS.truthy (af_name a) && JS.truthy (af_phone a) && JS.truthy (af_line1 a)
   && negb (JS.isNaN (lat l)) && negb (JS.isNaN (lng l)))%bool.

(** [new Order({ ... })] of [POST /api/order]. *)
Definition new_order (e : Mongo.env) (r : order_body) (u : user_field)
  (its : list (string * Z)) (a : address_field) (l : location)
  (uid : option Mongo.ObjectId) : order :=
  {| o_id := Mongo.newId e;
     userId := uid;
     o_user_name := JS.toString (uf_name u);
     o_user_phone := JS.toString (uf_phone u);
     shop := JS.or_default (rq_shop r) "Unknown Shop";
     items := orderItems its;
     totalAmount := rq_totalAmount r;
     deliveryCharge := rq_deliveryCharge r;
     o_address := {| a_name := JS.toString (af_name a);
                     a_phone := JS.toString (af_phone a);
                     line1 := JS.toString (af_line1 a);
                     line2 := af_line2 a;
                     a_location := l |};
     paymentMethod := JS.or_default (rq_paymentMethod r) "cash";
     status :=
       match rq_paymentMethod r with
       | Some m => if String.eqb m "cash" then "pending" else "unpaid"
       | None => "unpaid"
       end;
     date := Mongo.now e |}.

(** The order is built, which parses the location, and then saved,
    which validates it against the schema. *)
Definition create_order (e : Mongo.env) (d : db) (r : order_body)
  (u : user_field) (its : list (string * Z)) (a : address_field)
  (loc : string) : Mongo.result (order * db) :=
  l <- parse_location loc ;;
  uid <- cast_userId (rq_userId r) ;;
  if valid_address a l then
    let order := new_order e r u its a l uid in
    Mongo.Ok (order, with_orders d (Mongo.insert (orders d) order))
  else Mongo.Throw Mongo.ValidationError.

(** [POST /api/order]. *)
Definition post_order (e : Mongo.env) (d : db) (r : order_body)
  : response * db :=
  Mongo.try_catch
    (if incomplete r
     then Mongo.Ok (fail 400 "Incomplete order data or location missing", d)
     else
       match rq_user r, rq_items r, rq_address r with
       | Some u, Some its, Some a =>
           saved <- create_order e d r u its a (JS.toString (af_location a)) ;;
           Mongo.Ok (json (Some "Order placed successfully")
                       (OrderPayload (fst saved)), snd saved)
       | _, _, _ => Mongo.Ok (fail 400 "Incomplete order data or location missing", d)
       end)
    (fun _ => (fail 500 "Failed to save order", d)).

(** [GET /api/orders/:userId]. *)
Definition orders_by_user (d : db) (param : string) : response :=
  Mongo.try_catch
    (match castObjectId param with
     | None => Mongo.Throw Mongo.CastError
     | Some uid =>
         Mongo.Ok (json None
           (OrdersPayload
              (Mongo.find_sorted
                 (fun o => match userId o with
                           | Some v => N.eqb v uid
                           | None => false
                           end)
                 date (orders d))))
     end)
    (fun _ => fail 500 "Failed to fetch orders").

End Handlers.

End ChatPoint.

(** ** The service worker ([src/sw.js]) *)

Module ServiceWorker.

Definition CACHE_NAME : string := "chatpoint-v9".

Definition urlsToCache : list string :=
  [ "/"; "/index.html"; "/items.html"; "/cart.html"; "/login.html";
    "/orders.html"; "/manifest.json"; "/icon-192.png"; "/icon-512.png" ].

Record request : Type := {
  method : string;
  url : string
}.

Record response : Type := {
  ok : bool;                 (* a status in the range 200-299 *)
  content : string
}.

(** The network: what [fetch] resolves to, [None] when it rejects. *)
Definition network : Type := request -> option response.

(** A URL without its fragment: what follows the first [#], and the
    [#] itself, are left out. *)
Fixpoint without_fragment (u : string) : string :=
  match u with
  | String c u' => if Ascii.eqb c "#" then "" else String c (without_fragment u')
  | EmptyString => ""
  end.

(** A cache holds responses under the URL of a GET request. Requests
    are matched by URL with the fragment left out, both when a response
    is looked up and when one is put, so a cache never holds two entries
    whose URLs differ in the fragment only: it is kept as the list of
    its entries under their URLs without fragment, in the order they were
    put. (The responses of this server carry no [Vary] header.) The cache
    storage holds the named caches in creation order. *)
Definition cache : Type := list (string * response).
Definition storage : Type := list (string * cache).

Definition GET (u : string) : request := {| method := "GET"; url := u |}.

(** [cache.match(request)]: only a GET matches, and the fragment of its
    URL plays no part. *)
Definition cache_match (c : cache) (r : request) : option response :=
  if String.eqb (method r) "GET"
  then JS.get c (without_fragment (url r))
  else None.

(** [caches.match(request)]: the caches are searched in creation
    order. *)
Fixpoint caches_match (st : storage) (r : request) : option response :=
  match st with
  | [] => None
  | (_, c) :: st' =>
      match cache_match c r with
      | Some resp => Some resp
      | None => caches_match st' r
      end
  end.

(** [caches.open(name)] creates the cache when there is none. *)
Definition caches_open (st : storage) (name : string) : storage :=
  match JS.get st name with
  | Some _ => st
  | None => (st ++ [(name, [])])%list
  end.

(** [cache.put] under the URL [u], which has no fragment: an entry
    under the same URL is replaced. *)
Definition cache_put (c : cache) (u : string) (resp : response) : cache :=
  (filter (fun kv => negb (String.eqb (fst kv) u)) c ++ [(u, resp)])%list.

(** The fetches of [cache.addAll(urls)]: every one must resolve to an
    [ok] response. *)
Fixpoint fetch_all (net : network) (urls : list string)
  : option (list (string * response)) :=
  match urls with
  | [] => Some []
  | u :: urls' =>
      match net (GET u) with
      | Some resp =>
          if ok resp then
            match fetch_all net urls' with
            | Some l => Some ((u, resp) :: l)
            | None => None
            end
          else None
      | None => None
      end
  end.

(** [cache.addAll(urls)]: all or nothing. The requests are made, and
    their responses stored, under the URLs without fragment. *)
Definition addAll (net : network) (c : cache) (urls : list string)
  : option cache :=
  match fetch_all net (map without_fragment urls) with
  | Some l => Some (fold_left (fun acc kv => cache_put acc (fst kv) (snd kv)) l c)
  | None => None
  end.

Fixpoint set_cache (st : storage) (name : string) (c : cache) : storage :=
  match st with
  | [] => []
  | (n, c0) :: st' =>
      if String.eqb n name then (n, c) :: st'
      else (n, c0) :: set_cache st' name c
  end.

(** The [install] listener: whether the promise given to [waitUntil]
    is fulfilled, and the cache storage afterwards. *)
Definition on_install (net : network) (st : storage) : bool * storage :=
  let st1 := caches_open st CACHE_NAME in
  match JS.get st1 CACHE_NAME with
  | Some c =>
      match addAll net c urlsToCache with
      | Some c' => (true, set_cache st1 CACHE_NAME c')
      | None => (false, st1)
      end
  | None => (false, st1)
  end.

(** The [fetch] listener: what [respondWith] receives ([None] when the
    promise rejects), and the cache storage afterwards. *)
Definition on_fetch (net : network) (st : storage) (r : request)
  : option response * storage :=
  match caches_match st r with
  | Some resp => (Some resp, st)
  | None => (net r, st)
  end.

(** The events the worker handles, and a run of the worker. *)
Inductive event : Type :=
| Install (net : network)
| Fetch (net : network) (r : request).

Definition step (st : storage) (ev : event) : storage :=
  match ev with
  | Install net => snd (on_install net st)
  | Fetch net r => snd (on_fetch net st r)
  end.

Definition run (st : storage) (evs : list event) : storage :=
  fold_left step evs st.

(** The response stored in cache [name] under the URL [u] (without
    fragment). *)
Definition cached (st : storage) (name u : string) : option response :=
  match JS.get st name with
  | Some c => JS.get c u
  | None => None
  end.

(** A storage the worker alone has written: nothing, or the named cache
    holding nothing or the listed paths. *)
Definition own_storage (st : storage) : Prop :=
  st = []
  \/ exists c, st = [(CACHE_NAME, c)]
               /\ (JS.keys c = [] \/ JS.keys c = urlsToCache).

End ServiceWorker.

(** ** A concrete driver, for running the handlers *)

Module Driver.

Definition hex_digit (c : ascii) : option N :=
  let n := N_of_ascii c in
  (if (48 <=? n) && (n <=? 57) then Some (n - 48)
   else if (97 <=? n) && (n <=? 102) then Some (n - 87)
   else if (65 <=? n) && (n <=? 70) then Some (n - 55)
   else None)%N.

Fixpoint hex_value (acc : N) (s : string) : option N :=
  match s with
  | EmptyString => Some acc
  | String c s' =>
      match hex_digit c with
      | Some v => hex_value (16 * acc + v)%N s'
      | None => None
      end
  end.

(** The cast of a string of 24 hexadecimal digits. *)
Definition castObjectId (s : string) : option Mongo.ObjectId :=
  if (String.length s =? 24)%nat then hex_value 0%N s else None.

End Driver.

(** ** The cart of [save-order], in the words of the specification *)

Module CartSpec.
Import RentEasy.

(** The entries of a cart, shop after shop. *)
Definition entries (c : cart) : list (string * cart_entry) :=
  List.concat (map snd c).

Definition positive (kv : string * cart_entry) : bool := 0 <? qty (snd kv).

Definition to_item (kv : string * cart_entry) : Mongo.line_item :=
  {| Mongo.name := fst kv; Mongo.price := price (snd kv);
     Mongo.quantity := Some (qty (snd kv)) |}.

(** The line items as the specification words them: one per entry
    with [qty > 0], nothing else. *)
Definition line_items (c : cart) : list Mongo.line_item :=
  map to_item (filter positive (entries c)).

(** The sum of [qty * price] over the line items. *)
Definition amount (l : list (string * cart_entry)) : Z :=
  fold_right (fun kv t => qty (snd kv) * price (snd kv) + t) 0 l.

Definition items_total (c : cart) : Z :=
  amount (filter positive (entries c)).

(** The string fields [save-order] requires are all truthy. *)
Definition so_fields_present (r : save_order_body) : bool :=
  (JS.truthy (so_userId r) && JS.truthy (so_name r)
   && JS.truthy (so_phone r) && JS.truthy (so_address1 r))%bool.


End CartSpec.

(** ** The Number value, in the words of the language standard *)

Module Double.

(** [m * 2^(t - 1074)]. *)
Definition dyadic (m t : Z) : Q := Qmake (m * 2 ^ t) JS.least.

(** The values of the finite doubles. *)
Definition finite (d : Q) : Prop :=
  exists m t, Z.abs m < 2 ^ 53 /\ 0 <= t <= 2045 /\ (d == dyadic m t)%Q.

(** The values the Number value is chosen among: the finite doubles and
    the two additional values [2^1024] and [-2^1024]. *)
Definition candidate (d : Q) : Prop :=
  finite d
  \/ (d == dyadic (2 ^ 53) 2045)%Q
  \/ (d == dyadic (- 2 ^ 53) 2045)%Q.

(** A candidate with an even significand: it can be written with an
    even [m]. (A double whose significand is odd cannot: halving the
    unit doubles the significand beyond [2^53].) The two additional
    values count as even. *)
Definition even_significand (d : Q) : Prop :=
  exists m t, Z.even m = true /\ Z.abs m <= 2 ^ 53 /\ 0 <= t <= 2045
              /\ (d == dyadic m t)%Q.

(** [c] is the candidate closest to [q]; when two candidates are
    equally close, it is the one with an even significand. *)
Definition nearest (q c : Q) : Prop :=
  candidate c
  /\ (forall d, candidate d -> (Qabs (c - q) <= Qabs (d - q))%Q)
  /\ (forall d, candidate d -> ~ (d == c)%Q ->
                (Qabs (d - q) == Qabs (c - q))%Q -> even_significand c).

(** [n] is the Number value for [q]: the closest candidate, replaced by
    the infinity of its sign when it is one of the two additional
    values. *)
Definition number_value_of (q : Q) (n : JS.number) : Prop :=
  match n with
  | JS.NaN => False
  | JS.Infinity neg =>
      nearest q (dyadic (if neg then - 2 ^ 53 else 2 ^ 53) 2045)
  | JS.Num r => finite r /\ nearest q r
  end.

End Double.

(** ** Decimal texts such as [12.9716], [-77.5946] and [1.29716e+1] *)

Module Decimal.

(** The sign written before digits: none, [+] or [-]. *)
Inductive mark : Type := NoSign | Plus | Minus.

(** An exponent part: [e] or [E], a sign, digits. *)
Record exponent_part : Type := {
  capital : bool;
  exp_mark : mark;
  exp_digits : list nat
}.

(** A decimal literal: a sign, the digits before the point, the point
    with the digits after it, an exponent part. *)
Record literal : Type := {
  sign : mark;
  int_digits : list nat;
  fraction : option (list nat);
  exponent : option exponent_part
}.

Definition frac_digits (x : literal) : list nat :=
  match fraction x with
  | Some ds => ds
  | None => []
  end.

Definition digits (ds : list nat) : Prop := Forall (fun k => (k < 10)%nat) ds.

(** The literals of the grammar: at least one digit before or after the
    point, at least one digit in an exponent part, and every digit below
    ten. *)
Definition well_formed (x : literal) : Prop :=
  (int_digits x <> [] \/ frac_digits x <> [])
  /\ digits (int_digits x)
  /\ digits (frac_digits x)
  /\ match exponent x with
     | Some ex => exp_digits ex <> [] /\ digits (exp_digits ex)
     | None => True
     end.

Definition digit_char (k : nat) : ascii := ascii_of_nat (48 + k).
Arguments digit_char : simpl never.

Fixpoint digits_text (ds : list nat) : string :=
  match ds with
  | [] => ""
  | k :: ds' => String (digit_char k) (digits_text ds')
  end.

Definition mark_text (m : mark) : string :=
  match m with
  | NoSign => ""
  | Plus => "+"
  | Minus => "-"
  end.

Definition exponent_text (x : literal) : string :=
  match exponent x with
  | Some ex =>
      (if capital ex then "E" else "e")
      ++ mark_text (exp_mark ex) ++ digits_text (exp_digits ex)
  | None => ""
  end.

(** The text of the literal. *)
Definition render (x : literal) : string :=
  mark_text (sign x)
  ++ digits_text (int_digits x)
  ++ match fraction x with
     | Some ds => "." ++ digits_text ds
     | None => ""
     end
  ++ exponent_text x.

(** A character that starts neither white space nor a sign nor
    [Infinity], as the digits and the point do. *)
Definition plain (c : ascii) : Prop :=
  JS.is_white c = false
  /\ (forall rest, JS.strip_sign (String c rest) = (false, String c rest))
  /\ (forall rest, String.prefix "Infinity" (String c rest) = false).

(** The natural number a digit sequence denotes. *)
Definition digits_number (ds : list nat) : Z :=
  fold_left (fun acc k => 10 * acc + Z.of_nat k) ds 0.

(** The exponent the literal is scaled by. *)
Definition exponent_number (x : literal) : Z :=
  match exponent x with
  | Some ex =>
      match exp_mark ex with
      | Minus => - digits_number (exp_digits ex)
      | _ => digits_number (exp_digits ex)
      end
  | None => 0
  end.

(** The number the literal denotes, as a reduced fraction:
    [+/- digits * 10 ^ (exponent - number of digits after the point)]. *)
Definition value (x : literal) : Q :=
  let n := digits_number (int_digits x ++ frac_digits x) in
  let m := match sign x with Minus => - n | _ => n end in
  let s := exponent_number x - Z.of_nat (List.length (frac_digits x)) in
  Qred (if 0 <=? s then Qmake (m * 10 ^ s) 1
        else Qmake m (Z.to_pos (10 ^ (- s)))).

End Decimal.

(** ** What the specification asks of a signup and of a login handler *)

Module Contracts.

Section Signup.
Context {DB Body Account Response : Type}.
Variable handler : Mongo.env -> DB -> Body -> Response * DB.
Variable accounts : DB -> list Account.
Variable phone_of : Account -> string.
Variable body_phone : Body -> option string.
Variable complete : Body -> bool.     (* the required fields are present *)
Variable code : Response -> Z.

(** A phone that is already taken: 400, and the store is unchanged. *)
Definition rejects_taken_phone : Prop :=
  forall e d r a,
    In a (accounts d) -> body_phone r = Some (phone_of a) ->
    code (fst (handler e d r)) = 400 /\ snd (handler e d r) = d.

(** A free phone and a complete body: one account with that phone is
    appended. *)
Definition creates_one_account : Prop :=
  forall e d r p,
    complete r = true -> body_phone r = Some p ->
    (forall a, In a (accounts d) -> phone_of a <> p) ->
    code (fst (handler e d r)) = 200
    /\ exists a, phone_of a = p
                 /\ accounts (snd (handler e d r)) = (accounts d ++ [a])%list.

(** No two accounts share a phone, before and after. *)
Definition keeps_phones_unique : Prop :=
  forall e d r,
    NoDup (map phone_of (accounts d)) ->
    NoDup (map phone_of (accounts (snd (handler e d r)))).

Definition signup_contract : Prop :=
  rejects_taken_phone /\ creates_one_account /\ keeps_phones_unique.
End Signup.

Section Login.
Context {DB Body Account Response : Type}.
Variable handler : DB -> Body -> Response.
Variable accounts : DB -> list Account.
Variable phone_of password_of : Account -> string.
Variable body_phone body_password : Body -> option string.
Variable code : Response -> Z.
Variable succeeded : Response -> bool.

(** The status for an unknown phone is [unknown]; for a known phone it
    is 401 unless the password sent is the stored password, character
    for character, and then the login succeeds. *)
Definition login_contract (unknown : Z) : Prop :=
  forall d r,
    NoDup (map phone_of (accounts d)) ->
    ((forall a, In a (accounts d) -> body_phone r <> Some (phone_of a)) ->
     code (handler d r) = unknown)
    /\ (forall a,
          In a (accounts d) -> body_phone r = Some (phone_of a) ->
          (body_password r <> Some (password_of a) ->
           code (handler d r) = 401)
          /\ (body_password r = Some (password_of a) ->
              code (handler d r) = 200 /\ succeeded (handler d r) = true)).
End Login.

End Contracts.

(** ** Sample data *)

Module Samples.

Definition env1 : Mongo.env := {| Mongo.newId := 1%N; Mongo.now := 1000 |}.
Definition env2 : Mongo.env := {| Mongo.newId := 2%N; Mongo.now := 2000 |}.
Definition env3 : Mongo.env := {| Mongo.newId := 3%N; Mongo.now := 3000 |}.

Definition uid_a : string := "0000000000000000000000aa".
Definition uid_b : string := "0000000000000000000000bb".

Definition cart1 : RentEasy.cart :=
  [ ("Fresh Mart",
      [ ("rice", {| RentEasy.qty := 2; RentEasy.price := 60 |});
        ("salt", {| RentEasy.qty := 0; RentEasy.price := 20 |}) ]);
    ("Daily Dairy",
      [ ("milk", {| RentEasy.qty := 3; RentEasy.price := 25 |}) ]) ].

Definition cart_none : RentEasy.cart :=
  [ ("Fresh Mart",
      [ ("rice", {| RentEasy.qty := 0; RentEasy.price := 60 |});
        ("salt", {| RentEasy.qty := -1; RentEasy.price := 20 |}) ]) ].

Definition rent_db0 : RentEasy.db :=
  {| RentEasy.users := []; RentEasy.orders := [] |}.

Definition save_req (uid : string) (c : RentEasy.cart) (g : option Z)
  : RentEasy.save_order_body :=
  {| RentEasy.so_userId := Some uid;
     RentEasy.so_name := Some "Asha";
     RentEasy.so_phone := Some "9000000001";
     RentEasy.so_address1 := Some "12 Lake Road";
     RentEasy.so_address2 := None;
     RentEasy.so_cart := Some c;
     RentEasy.so_itemsTotal := Some 195;
     RentEasy.so_deliveryCharge := None;
     RentEasy.so_grandTotal := g;
     RentEasy.so_paymentMode := None |}.

Definition oid1 : string := "000000000000000000000001".

Definition status_req (s : string) : RentEasy.update_status_body :=
  {| RentEasy.us_orderId := Some oid1; RentEasy.us_status := Some s |}.

(** One order placed, then delivered. *)
Definition rent_db1 : RentEasy.db :=
  snd (RentEasy.save_order Driver.castObjectId env1 rent_db0
         (save_req uid_a cart1 (Some 225))).

Definition rent_db2 : RentEasy.db :=
  snd (RentEasy.update_order_status Driver.castObjectId env2 rent_db1
         (status_req "delivered")).

(** Three orders: user a, user b, user a again. *)
Definition rent_db3 : RentEasy.db :=
  snd (RentEasy.save_order Driver.castObjectId env3
         (snd (RentEasy.save_order Driver.castObjectId env2 rent_db1
                 (save_req uid_b cart1 (Some 225))))
         (save_req uid_a cart1 (Some 225))).

(** A network that serves every URL, with content marked [v]. *)
Definition net_version (v : string) : ServiceWorker.network :=
  fun r => Some {| ServiceWorker.ok := true;
                   ServiceWorker.content := v ++ ServiceWorker.url r |}.

(** The storage after a first install. *)
Definition installed1 : ServiceWorker.storage :=
  snd (ServiceWorker.on_install (net_version "v1:") []).

Definition chat_db0 : ChatPoint.db :=
  {| ChatPoint.owners := []; ChatPoint.users := []; ChatPoint.orders := [] |}.

Definition owner1 : ChatPoint.owner :=
  {| ChatPoint.ow_id := 1%N; ChatPoint.ow_phone := "9000000002";
     ChatPoint.ow_password := "open sesame" |}.

(** The Chat Point store after one owner has signed up. *)
Definition chat_db1 : ChatPoint.db :=
  snd (ChatPoint.owner_signup env1 chat_db0
         {| ChatPoint.ob_phone := Some "9000000002";
            ChatPoint.ob_password := Some "open sesame" |}).

Definition owner_login_req (phone password : string) : ChatPoint.owner_body :=
  {| ChatPoint.ob_phone := Some phone; ChatPoint.ob_password := Some password |}.

(** A Chat Point order with the given location text and items. *)
Definition order_req (loc : string) (its : list (string * Z))
  : ChatPoint.order_body :=
  {| ChatPoint.rq_userId := Some uid_a;
     ChatPoint.rq_user :=
       Some {| ChatPoint.uf_name := Some "Asha";
               ChatPoint.uf_phone := Some "9000000001" |};
     ChatPoint.rq_shop := None;
     ChatPoint.rq_items := Some its;
     ChatPoint.rq_totalAmount := Some 300;
     ChatPoint.rq_deliveryCharge := Some 30;
     ChatPoint.rq_address :=
       Some {| ChatPoint.af_name := Some "Asha";
               ChatPoint.af_phone := Some "9000000001";
               ChatPoint.af_line1 := Some "12 Lake Road";
               ChatPoint.af_line2 := None;
               ChatPoint.af_location := Some loc |};
     ChatPoint.rq_paymentMethod := Some "cash" |}.

Definition address1 (loc : string) : ChatPoint.address_field :=
  {| ChatPoint.af_name := Some "Asha";
     ChatPoint.af_phone := Some "9000000001";
     ChatPoint.af_line1 := Some "12 Lake Road";
     ChatPoint.af_line2 := None;
     ChatPoint.af_location := Some loc |}.

Definition items1 : list (string * Z) := [("tea", 2); ("samosa", 5)].

(** 12.9716 and -77.59 *)
(** [12.9716], [-77.59] and the same number as [-7.759E+1]. *)
Definition lat1 : Decimal.literal :=
  {| Decimal.sign := Decimal.NoSign; Decimal.int_digits := [1; 2]%nat;
     Decimal.fraction := Some [9; 7; 1; 6]%nat; Decimal.exponent := None |}.
Definition lng1 : Decimal.literal :=
  {| Decimal.sign := Decimal.Minus; Decimal.int_digits := [7; 7]%nat;
     Decimal.fraction := Some [5; 9]%nat; Decimal.exponent := None |}.
Definition lng2 : Decimal.literal :=
  {| Decimal.sign := Decimal.Minus; Decimal.int_digits := [7]%nat;
     Decimal.fraction := Some [7; 5; 9]%nat;
     Decimal.exponent :=
       Some {| Decimal.capital := true; Decimal.exp_mark := Decimal.Plus;
               Decimal.exp_digits := [1]%nat |} |}.

End Samples.

(** ** Chat Point: shops ([POST /api/upload], [GET /api/shops],
    [DELETE /api/shop/:id]) *)

Module ChatPointShops.

Record shop : Type := {
  s_id : Mongo.ObjectId;
  s_type : string;              (* default "shop" *)
  ownerName : option string;
  mobile : option string;
  shopName : option string;
  itemName : option string;
  s_price : option JS.number;
  description : option string;
  imageUrl : list string;
  s_date : Z                    (* default Date.now *)
}.

(** A file as the upload middleware hands it over: stored under
    [uploads/] at [path]. *)
Record file : Type := {
  path : string
}.

(** The text fields of the multipart body and [req.files]. *)
Record upload_body : Type := {
  up_ownerName : option string;
  up_mobile : option string;
  up_shopName : option string;
  up_itemName : option string;
  up_price : option string;
  up_description : option string;
  up_type : option string;
  up_files : option (list file)
}.

(** The shop collection and the paths that exist on the local disk. *)
Record store : Type := {
  shops : list shop;
  disk : list string
}.

Inductive payload : Type :=
| NoPayload
| ShopPayload (s : shop)
| ShopsPayload (l : list shop).

Record response : Type := {
  http_status : Z;
  success : bool;
  message : option string;
  body : payload
}.

Definition fail (code : Z) (msg : string) : response :=
  {| http_status := code; success := false; message := Some msg;
     body := NoPayload |}.

Definition json (msg : option string) (p : payload) : response :=
  {| http_status := 200; success := true; message := msg; body := p |}.

(** [fs.existsSync] and [fs.unlinkSync]. *)
Definition existsSync (d : list string) (p : string) : bool :=
  existsb (String.eqb p) d.

Definition unlinkSync (d : list string) (p : string) : list string :=
  filter (fun q => negb (String.eqb q p)) d.

Section Handlers.

(** The driver's casts, and the image host: [cloud p] is the
    [secure_url] the upload of the file at [p] resolves to, [None] when
    the upload rejects. *)
Variable castObjectId : string -> option Mongo.ObjectId.
Variable castNumber : string -> Mongo.result (option JS.number).
Variable cloud : string -> option string.

(** One turn of the loop over [req.files]: the [try] pushes the URL,
    the [catch] swallows a failed upload, the [finally] removes the
    local file. *)
Definition upload_step (acc : list string * list string) (f : file)
  : list string * list string :=
  let (imageUrls, d) := acc in
  (match cloud (path f) with
   | Some secure_url => (imageUrls ++ [secure_url])%list
   | None => imageUrls
   end,
   if existsSync d (path f) then unlinkSync d (path f) else d).

Definition upload_files (files : list file) (d : list string)
  : list string * list string :=
  fold_left upload_step files ([], d).

(** [new Shop({ ... })]; the price text is cast by the schema. *)
Definition new_shop (e : Mongo.env) (r : upload_body) (imageUrls : list string)
  : Mongo.result shop :=
  price <- match up_price r with
           | Some t => castNumber t
           | None => Mongo.Ok None
           end ;;
  Mongo.Ok {| s_id := Mongo.newId e;
              s_type := JS.or_default (up_type r) "shop";
              ownerName := up_ownerName r;
              mobile := up_mobile r;
              shopName := up_shopName r;
              itemName := up_itemName r;
              s_price := price;
              description := up_description r;
              imageUrl := imageUrls;
              s_date := Mongo.now e |}.

(** [POST /api/upload], after the middleware. The files are gone from
    the disk by the time [save()] can throw. *)
Definition upload (e : Mongo.env) (st : store) (r : upload_body)
  : response * store :=
  match up_files r with
  | None => (fail 400 "No images uploaded", st)
  | Some files =>
      if (List.length files =? 0)%nat
      then (fail 400 "No images uploaded", st)
      else
        let (imageUrls, d) := upload_files files (disk st) in
        Mongo.try_catch
          (shop <- new_shop e r imageUrls ;;
           Mongo.Ok (json (Some "Shop uploaded successfully") (ShopPayload shop),
                     {| shops := Mongo.insert (shops st) shop; disk := d |}))
          (fun _ => (fail 500 "Failed to upload shop",
                     {| shops := shops st; disk := d |}))
  end.

(** [GET /api/shops]. *)
Definition list_shops (st : store) : response :=
  json None (ShopsPayload (Mongo.find_sorted (fun _ => true) s_date (shops st))).

(** [Shop.findByIdAndDelete(id)]: the first shop with that [_id] is
    removed and returned. *)
Fixpoint findByIdAndDelete (id : Mongo.ObjectId) (c : list shop)
  : option shop * list shop :=
  match c with
  | [] => (None, [])
  | s :: c' =>
      if N.eqb (s_id s) id then (Some s, c')
      else
        let (r, c'') := findByIdAndDelete id c' in
        (r, s :: c'')
  end.

(** [DELETE /api/shop/:id]. *)
Definition delete_shop (st : store) (param : string) : response * store :=
  Mongo.try_catch
    (match castObjectId param with
     | None => Mongo.Throw Mongo.CastError
     | Some id =>
         let (deleted, rest) := findByIdAndDelete id (shops st) in
         match deleted with
         | None => Mongo.Ok (fail 404 "Shop not found", st)
         | Some _ =>
             Mongo.Ok (json (Some "Shop deleted successfully") NoPayload,
                       {| shops := rest; disk := disk st |})
         end
     end)
    (fun _ => (fail 500 "Failed to delete shop", st)).

End Handlers.

(** The URLs of the uploads that succeed, in the order of the files. *)
Definition uploaded_urls (cloud : string -> option string)
  (files : list file) : list string :=
  flat_map (fun f => match cloud (path f) with
                     | Some u => [u]
                     | None => []
                     end) files.

End ChatPointShops.

(** ** Rent Easy: shops ([GET /api/shops]) *)

Module RentEasyShops.

Record item : Type := {
  i_name : option string;
  i_price : option Z;
  i_description : option string;
  i_imageUrl : list string
}.

Record shop : Type := {
  s_id : Mongo.ObjectId;
  s_type : string;              (* default "shop" *)
  ownerName : option string;
  mobile : option string;
  shopName : option string;
  s_items : list item;
  s_date : Z
}.

(** [GET /api/shops]: the answer is 200 with the shops of type "shop",
    newest first. *)
Definition list_shops (c : list shop) : list shop :=
  Mongo.find_sorted (fun s => String.eqb (s_type s) "shop") s_date c.

End RentEasyShops.

(** ** Words for the properties of Part III *)

Module Props.

(** The identifiers of the orders are pairwise distinct. *)
Definition unique_order_ids (d : RentEasy.db) : Prop :=
  NoDup (map RentEasy.o_id (RentEasy.orders d)).

(** The driver hands out an identifier no stored order has. *)
Definition fresh_order_id (e : Mongo.env) (d : RentEasy.db) : Prop :=
  ~ In (Mongo.newId e) (map RentEasy.o_id (RentEasy.orders d)).

(** Two orders that agree on everything but [status] and [updatedAt]. *)
Definition same_but_status (o o' : RentEasy.order) : Prop :=
  RentEasy.o_id o' = RentEasy.o_id o
  /\ RentEasy.userId o' = RentEasy.userId o
  /\ RentEasy.o_user_name o' = RentEasy.o_user_name o
  /\ RentEasy.o_user_phone o' = RentEasy.o_user_phone o
  /\ RentEasy.shop o' = RentEasy.shop o
  /\ RentEasy.items o' = RentEasy.items o
  /\ RentEasy.totalAmount o' = RentEasy.totalAmount o
  /\ RentEasy.deliveryCharge o' = RentEasy.deliveryCharge o
  /\ RentEasy.o_address o' = RentEasy.o_address o
  /\ RentEasy.paymentMethod o' = RentEasy.paymentMethod o
  /\ RentEasy.date o' = RentEasy.date o
  /\ RentEasy.createdAt o' = RentEasy.createdAt o.

(** An order with at least one line item and only positive
    quantities. *)
Definition well_stocked (o : RentEasy.order) : Prop :=
  RentEasy.items o <> []
  /\ Forall (fun li => exists q, Mongo.quantity li = Some q /\ 0 < q)
       (RentEasy.items o).

(** The orders a response lists, none when it lists none. *)
Definition listed (r : RentEasy.response) : list RentEasy.order :=
  match RentEasy.body r with
  | RentEasy.OrdersPayload l => l
  | _ => []
  end.

Definition chat_listed (r : ChatPoint.response) : list ChatPoint.order :=
  match ChatPoint.body r with
  | ChatPoint.OrdersPayload l => l
  | _ => []
  end.

Definition login_of (phone password : string) : RentEasy.login_body :=
  {| RentEasy.lg_phone := Some phone; RentEasy.lg_password := Some password |}.

Definition owner_login_of (phone password : string) : ChatPoint.owner_body :=
  {| ChatPoint.ob_phone := Some phone; ChatPoint.ob_password := Some password |}.

Definition user_login_of (phone password : string) : ChatPoint.login_body :=
  {| ChatPoint.lg_phone := Some phone; ChatPoint.lg_password := Some password |}.

(** The fetch events of a list of requests, each with its network. *)
Definition fetches (reqs : list (ServiceWorker.network * ServiceWorker.request))
  : list ServiceWorker.event :=
  map (fun nr => ServiceWorker.Fetch (fst nr) (snd nr)) reqs.

End Props.

(** ** More sample data *)

Module MoreSamples.

Definition order1 : RentEasy.order :=
  RentEasy.new_order Samples.env1
    (Samples.save_req Samples.uid_a Samples.cart1 (Some 225))
    (CartSpec.line_items Samples.cart1) Samples.cart1 170%N.

(** A Chat Point order request without [address.name]. *)
Definition nameless_address : ChatPoint.address_field :=
  {| ChatPoint.af_name := None;
     ChatPoint.af_phone := Some "9000000001";
     ChatPoint.af_line1 := Some "12 Lake Road";
     ChatPoint.af_line2 := None;
     ChatPoint.af_location := Some "Lat: 12.9716, Lng: -77.59" |}.

Definition nameless_order : ChatPoint.order_body :=
  {| ChatPoint.rq_userId := None;
     ChatPoint.rq_user :=
       Some {| ChatPoint.uf_name := Some "Asha";
               ChatPoint.uf_phone := Some "9000000001" |};
     ChatPoint.rq_shop := None;
     ChatPoint.rq_items := Some Samples.items1;
     ChatPoint.rq_totalAmount := Some 300;
     ChatPoint.rq_deliveryCharge := Some 30;
     ChatPoint.rq_address := Some nameless_address;
     ChatPoint.rq_paymentMethod := None |}.

(** A Chat Point order request with neither [userId] nor
    [paymentMethod]. *)
Definition guest_order : ChatPoint.order_body :=
  {| ChatPoint.rq_userId := None;
     ChatPoint.rq_user :=
       Some {| ChatPoint.uf_name := Some "Asha";
               ChatPoint.uf_phone := Some "9000000001" |};
     ChatPoint.rq_shop := None;
     ChatPoint.rq_items := Some Samples.items1;
     ChatPoint.rq_totalAmount := Some 300;
     ChatPoint.rq_deliveryCharge := Some 30;
     ChatPoint.rq_address :=
       Some (Samples.address1 "Lat: 12.9716, Lng: -77.59");
     ChatPoint.rq_paymentMethod := None |}.

Definition chat_order (r : ChatPoint.order_body) (uid : option Mongo.ObjectId)
  : ChatPoint.order :=
  ChatPoint.new_order Samples.env1 r
    {| ChatPoint.uf_name := Some "Asha";
       ChatPoint.uf_phone := Some "9000000001" |}
    Samples.items1
    (Samples.address1 "Lat: 12.9716, Lng: -77.59")
    {| ChatPoint.lat := JS.number_value (32429 # 2500);
       ChatPoint.lng := JS.number_value (-7759 # 100) |}
    uid.

(** An image host that takes the first file and refuses the second, and
    a number cast that knows one price. *)
Definition cloud1 (p : string) : option string :=
  if String.eqb p "uploads/a1" then Some "https://img.example/a1.png"
  else None.

Definition castNumber1 (t : string) : Mongo.result (option JS.number) :=
  if String.eqb t "250" then Mongo.Ok (Some (JS.Num (250 # 1)))
  else if String.eqb t "" then Mongo.Ok None
  else Mongo.Throw Mongo.CastError.

Definition files1 : list ChatPointShops.file :=
  [ {| ChatPointShops.path := "uploads/a1" |};
    {| ChatPointShops.path := "uploads/b2" |} ].

Definition store0 : ChatPointShops.store :=
  {| ChatPointShops.shops := [];
     ChatPointShops.disk := ["uploads/a1"; "notes.txt"; "uploads/b2"] |}.

Definition upload1 (price : string) : ChatPointShops.upload_body :=
  {| ChatPointShops.up_ownerName := Some "Ravi";
     ChatPointShops.up_mobile := Some "9000000009";
     ChatPointShops.up_shopName := Some "Corner Tea";
     ChatPointShops.up_itemName := Some "tea";
     ChatPointShops.up_price := Some price;
     ChatPointShops.up_description := None;
     ChatPointShops.up_type := None;
     ChatPointShops.up_files := Some files1 |}.

Definition shop1 : ChatPointShops.shop :=
  {| ChatPointShops.s_id := 1%N;
     ChatPointShops.s_type := "shop";
     ChatPointShops.ownerName := Some "Ravi";
     ChatPointShops.mobile := Some "9000000009";
     ChatPointShops.shopName := Some "Corner Tea";
     ChatPointShops.itemName := Some "tea";
     ChatPointShops.s_price := Some (JS.Num (250 # 1));
     ChatPointShops.description := None;
     ChatPointShops.imageUrl := ["https://img.example/a1.png"];
     ChatPointShops.s_date := 1000 |}.

(** The store after the upload of [shop1]. *)
Definition store1 : ChatPointShops.store :=
  snd (ChatPointShops.upload castNumber1 cloud1 Samples.env1 store0
         (upload1 "250")).

(** A network on which one listed path is missing. *)
Definition net_without_cart : ServiceWorker.network :=
  fun r => if String.eqb (ServiceWorker.url r) "/cart.html" then None
           else Samples.net_version "v1:" r.

(** A storage left behind by an earlier release of the worker. *)
Definition old_response : ServiceWorker.response :=
  {| ServiceWorker.ok := true; ServiceWorker.content := "v8:/" |}.

Definition old_storage : ServiceWorker.storage :=
  [("chatpoint-v8", [("/", old_response)])].

End MoreSamples.

(* ================================================================== *)
(** * Part II: properties *)
(* ================================================================== *)

Section RentEasyCart.
Import RentEasy CartSpec.

Lemma amount_app (l m : list (string * cart_entry)) :
  amount (l ++ m) = amount l + amount m.
Proof. induction l as [|kv l IH]; simpl; [reflexivity | rewrite IH; lia]. Qed.

Lemma add_entry_fold (l : list (string * cart_entry)) :
  forall its t,
    fold_left add_entry l (its, t)
    = ((its ++ map to_item (filter positive l))%list,
       t + amount (filter positive l)).
Proof.
  induction l as [|[item entry] l IH]; intros its t; simpl.
  - now rewrite app_nil_r, Z.add_0_r.
  - change (positive (item, entry)) with (0 <? qty entry).
    destruct (0 <? qty entry); simpl; rewrite IH.
    + rewrite <- app_assoc; simpl. f_equal. lia.
    + reflexivity.
Qed.

Lemma add_shop_fold (c : cart) :
  forall its t,
    fold_left add_shop c (its, t)
    = ((its ++ line_items c)%list, t + items_total c).
Proof.
  unfold line_items, items_total, entries.
  induction c as [|[shop l] c IH]; intros its t; simpl.
  - now rewrite app_nil_r, Z.add_0_r.
  - unfold add_shop at 2; simpl. rewrite add_entry_fold, IH.
    rewrite filter_app, map_app, app_assoc, amount_app. f_equal. lia.
Qed.

Lemma flatten_spec (c : cart) : flatten c = (line_items c, items_total c).
Proof. unfold flatten. now rewrite add_shop_fold. Qed.

Lemma line_items_nil (c : cart) :
  (forall kv, In kv (entries c) -> qty (snd kv) <= 0) -> line_items c = [].
Proof.
  unfold line_items. intros H.
  induction (entries c) as [|kv l IH]; simpl; [reflexivity|].
  assert (Hkv : positive kv = false).
  { unfold positive. apply Z.ltb_ge, H. now left. }
  rewrite Hkv. apply IH. intros kv' Hin. apply H. now right.
Qed.

Lemma line_items_cons (c : cart) :
  (exists kv, In kv (entries c) /\ 0 < qty (snd kv)) -> line_items c <> [].
Proof.
  unfold line_items. intros (kv & Hin & Hq) H.
  apply map_eq_nil in H.
  assert (Hkv : In kv (filter positive (entries c))).
  { apply filter_In. split; [exact Hin|]. now apply Z.ltb_lt. }
  rewrite H in Hkv. contradiction.
Qed.

End RentEasyCart.

Section RentEasySaveOrder.
Import RentEasy CartSpec.

Variable castObjectId : string -> option Mongo.ObjectId.

(** [save-order] by cases, with the loops replaced by [line_items]. *)
Lemma save_order_unfold (e : Mongo.env) (d : db) (r : save_order_body) :
  save_order castObjectId e d r =
  match so_cart r with
  | None => (fail 400 "Missing data", d)
  | Some c =>
      if negb (so_fields_present r) then (fail 400 "Missing data", d)
      else
        match line_items c with
        | [] => (fail 400 "Cart empty", d)
        | _ :: _ =>
            match castObjectId (JS.toString (so_userId r)) with
            | None => (fail 500 "Server error", d)
            | Some uid =>
                let o := new_order e r (line_items c) c uid in
                (json (Some "Order saved!") (OrderIdPayload (o_id o)),
                 with_orders d (orders d ++ [o]))
            end
        end
  end.
Proof.
  unfold save_order, so_fields_present.
  destruct (so_cart r) as [c|]; [|reflexivity].
  destruct (JS.truthy (so_userId r)), (JS.truthy (so_name r)),
    (JS.truthy (so_phone r)), (JS.truthy (so_address1 r)); try reflexivity.
  simpl. rewrite flatten_spec.
  destruct (line_items c) as [|i its] eqn:E; [reflexivity|].
  simpl. unfold save_order_doc.
  destruct (castObjectId (JS.toString (so_userId r))); reflexivity.
Qed.

(** Whatever the request, the collection is unchanged or has one more
    order, the one built from the request. *)
Lemma save_order_effect (e : Mongo.env) (d : db) (r : save_order_body) :
  (snd (save_order castObjectId e d r) = d
   /\ (http_status (fst (save_order castObjectId e d r)) = 400
       \/ http_status (fst (save_order castObjectId e d r)) = 500))
  \/ exists c uid,
      so_cart r = Some c
      /\ castObjectId (JS.toString (so_userId r)) = Some uid
      /\ line_items c <> []
      /\ save_order castObjectId e d r =
         (json (Some "Order saved!") (OrderIdPayload (Mongo.newId e)),
          with_orders d (orders d ++ [new_order e r (line_items c) c uid])).
Proof.
  rewrite save_order_unfold.
  destruct (so_cart r) as [c|]; [|left; simpl; auto].
  destruct (negb (so_fields_present r)); [left; simpl; auto|].
  destruct (line_items c) as [|i its] eqn:E; [left; simpl; auto|].
  destruct (castObjectId (JS.toString (so_userId r))) as [uid|] eqn:C;
    [|left; simpl; auto].
  right. exists c, uid. repeat split; [congruence|].
  now rewrite E.
Qed.

Lemma app_one_neq {A : Type} (l : list A) (x : A) : l <> (l ++ [x])%list.
Proof.
  intros H. apply (f_equal (@List.length A)) in H.
  rewrite length_app in H. simpl in H. lia.
Qed.

(** The order a request adds, when it adds one. *)
Lemma save_order_persisted (e : Mongo.env) (d : db) (r : save_order_body)
  (o : order) :
  orders (snd (save_order castObjectId e d r)) = (orders d ++ [o])%list ->
  exists c uid,
    so_cart r = Some c
    /\ castObjectId (JS.toString (so_userId r)) = Some uid
    /\ line_items c <> []
    /\ so_fields_present r = true
    /\ o = new_order e r (line_items c) c uid.
Proof.
  intros H. pose proof (save_order_unfold e d r) as U.
  destruct (so_cart r) as [c|] eqn:Ec;
    [|rewrite U in H; simpl in H; now apply app_one_neq in H].
  destruct (so_fields_present r) eqn:F; simpl in U;
    [|rewrite U in H; simpl in H; now apply app_one_neq in H].
  destruct (line_items c) as [|i its] eqn:E;
    [rewrite U in H; simpl in H; now apply app_one_neq in H|].
  destruct (castObjectId (JS.toString (so_userId r))) as [uid|] eqn:C;
    [|rewrite U in H; simpl in H; now apply app_one_neq in H].
  rewrite U in H. simpl in H. apply app_inv_head in H.
  exists c, uid. repeat split; try congruence.
Qed.

End RentEasySaveOrder.

Section RentEasySaveOrderClaims.
Import RentEasy CartSpec.

Variable castObjectId : string -> option Mongo.ObjectId.

(** C1. For every [save-order] request with a nested cart (shop -> item
    -> {qty, price}), the flattened list of line items holds exactly one
    entry {name: item, price, quantity: qty} per cart entry with
    [qty > 0], in cart order, and nothing else. When the cart has an
    entry with [qty > 0], the required fields are present and the user
    id casts, the handler answers 200 and persists one order whose
    [items] are that list; an order the request persists always has
    that list as its [items]; and when no cart entry has [qty > 0] the
    request is rejected with status 400 and nothing is stored. *)
Theorem save_order_line_items (e : Mongo.env) (d : db) (r : save_order_body)
  (c : cart) :
  so_cart r = Some c ->
  fst (flatten c) = map to_item (filter positive (entries c))
  /\ ((exists kv, In kv (entries c) /\ 0 < qty (snd kv)) ->
      so_fields_present r = true ->
      (exists uid, castObjectId (JS.toString (so_userId r)) = Some uid) ->
      http_status (fst (save_order castObjectId e d r)) = 200
      /\ exists o,
          orders (snd (save_order castObjectId e d r)) = (orders d ++ [o])%list
          /\ items o = map to_item (filter positive (entries c)))
  /\ (forall o,
        orders (snd (save_order castObjectId e d r)) = (orders d ++ [o])%list ->
        items o = map to_item (filter positive (entries c)))
  /\ ((forall kv, In kv (entries c) -> qty (snd kv) <= 0) ->
      http_status (fst (save_order castObjectId e d r)) = 400
      /\ snd (save_order castObjectId e d r) = d).
Proof.
  intros Hc. fold (line_items c). split; [|split; [|split]].
  - now rewrite flatten_spec.
  - intros Hpos Hf (uid & Hu). apply line_items_cons in Hpos.
    rewrite save_order_unfold, Hc, Hf, Hu. cbn [negb].
    destruct (line_items c) as [|i its] eqn:E; [now elim Hpos|].
    cbn [fst snd http_status json orders with_orders].
    split; [reflexivity|]. eexists. split; [reflexivity|].
    reflexivity.
  - intros o Ho. apply save_order_persisted in Ho.
    destruct Ho as (c' & uid & Hc' & _ & _ & _ & ->).
    rewrite Hc in Hc'. now injection Hc' as <-.
  - intros Hq. apply line_items_nil in Hq.
    rewrite save_order_unfold, Hc, Hq.
    now destruct (negb (so_fields_present r)).
Qed.


End RentEasySaveOrderClaims.

Example save_order_sample :
  RentEasy.http_status
    (fst (RentEasy.save_order Driver.castObjectId Samples.env1 Samples.rent_db0
            (Samples.save_req Samples.uid_a Samples.cart1 (Some 225)))) = 200
  /\ map RentEasy.items (RentEasy.orders Samples.rent_db1)
     = [[ {| Mongo.name := "rice"; Mongo.price := 60; Mongo.quantity := Some 2 |};
          {| Mongo.name := "milk"; Mongo.price := 25; Mongo.quantity := Some 3 |} ]]
  /\ map RentEasy.shop (RentEasy.orders Samples.rent_db1) = [Some "Fresh Mart"]
  /\ RentEasy.http_status
       (fst (RentEasy.save_order Driver.castObjectId Samples.env1 Samples.rent_db0
               (Samples.save_req "not an id" Samples.cart1 (Some 225)))) = 500.
Proof. repeat split; vm_compute; reflexivity. Qed.

Example flatten_cart1 :
  RentEasy.flatten Samples.cart1
  = ([ {| Mongo.name := "rice"; Mongo.price := 60; Mongo.quantity := Some 2 |};
       {| Mongo.name := "milk"; Mongo.price := 25; Mongo.quantity := Some 3 |} ],
     195).
Proof. reflexivity. Qed.

(** The request of [rent_db1]: rice twice, no salt, milk three times. *)
Lemma save_order_line_items_witness :
  RentEasy.http_status
    (fst (RentEasy.save_order Driver.castObjectId Samples.env1 Samples.rent_db0
            (Samples.save_req Samples.uid_a Samples.cart1 (Some 225)))) = 200
  /\ exists o,
      RentEasy.orders
        (snd (RentEasy.save_order Driver.castObjectId Samples.env1
                Samples.rent_db0
                (Samples.save_req Samples.uid_a Samples.cart1 (Some 225))))
      = (RentEasy.orders Samples.rent_db0 ++ [o])%list
      /\ RentEasy.items o
         = [ {| Mongo.name := "rice"; Mongo.price := 60;
                Mongo.quantity := Some 2 |};
             {| Mongo.name := "milk"; Mongo.price := 25;
                Mongo.quantity := Some 3 |} ].
Proof.
  destruct (save_order_line_items Driver.castObjectId Samples.env1
              Samples.rent_db0
              (Samples.save_req Samples.uid_a Samples.cart1 (Some 225))
              Samples.cart1 eq_refl) as (_ & Hstored & _ & _).
  apply Hstored.
  - exists ("rice", {| RentEasy.qty := 2; RentEasy.price := 60 |}).
    split; [now left | reflexivity].
  - reflexivity.
  - exists 170%N. reflexivity.
Defined.


(** ** The document store: [sort] and [findByIdAndUpdate] *)

Section MongoFacts.
Context {A : Type}.
Variable key : A -> Z.

Local Abbreviation desc := (Mongo.desc key).

Lemma insert_desc_perm (x : A) (l : list A) :
  Permutation (Mongo.insert_desc key x l) (x :: l).
Proof.
  induction l as [|y l IH]; simpl.
  - apply Permutation_refl.
  - destruct (key y <=? key x).
    + apply Permutation_refl.
    + apply perm_trans with (y :: x :: l).
      * now apply perm_skip.
      * apply perm_swap.
Qed.

Lemma insert_desc_hd (x a : A) (l : list A) :
  HdRel desc a l -> desc a x -> HdRel desc a (Mongo.insert_desc key x l).
Proof.
  intros Hl Hx. destruct l as [|y l]; simpl.
  - now constructor.
  - destruct (key y <=? key x); constructor; trivial.
    now inversion Hl.
Qed.

Lemma insert_desc_sorted (x : A) (l : list A) :
  Sorted desc l -> Sorted desc (Mongo.insert_desc key x l).
Proof.
  induction 1 as [|y l Hs IH Hh]; simpl.
  - repeat constructor.
  - destruct (key y <=? key x) eqn:E.
    + constructor; [now constructor|].
      constructor. unfold Mongo.desc. now apply Z.leb_le.
    + constructor; [exact IH|].
      apply insert_desc_hd; [exact Hh|].
      unfold Mongo.desc. apply Z.leb_gt in E. lia.
Qed.

Lemma sort_desc_perm (l : list A) : Permutation (Mongo.sort_desc key l) l.
Proof.
  induction l as [|x l IH]; simpl.
  - constructor.
  - apply perm_trans with (x :: Mongo.sort_desc key l).
    + apply insert_desc_perm.
    + now apply perm_skip.
Qed.

Lemma sort_desc_sorted (l : list A) : Sorted desc (Mongo.sort_desc key l).
Proof.
  induction l as [|x l IH]; simpl.
  - constructor.
  - now apply insert_desc_sorted.
Qed.

(** [find(filter).sort({ date: -1 })]: exactly the matching documents,
    by decreasing date. *)
Lemma find_sorted_spec (p : A -> bool) (c : list A) :
  Permutation (Mongo.find_sorted p key c) (filter p c)
  /\ Sorted desc (Mongo.find_sorted p key c).
Proof.
  unfold Mongo.find_sorted. split.
  - apply sort_desc_perm.
  - apply sort_desc_sorted.
Qed.

(** [findByIdAndUpdate] either finds nothing and changes nothing, or
    rewrites one document in place. *)
Lemma findByIdAndUpdate_spec (id_of : A -> Mongo.ObjectId) (upd : A -> A)
  (id : Mongo.ObjectId) (c : list A) :
  Mongo.findByIdAndUpdate id_of upd id c = (None, c)
  \/ exists pre doc post,
      c = (pre ++ doc :: post)%list
      /\ id_of doc = id
      /\ Mongo.findByIdAndUpdate id_of upd id c
         = (Some (upd doc), (pre ++ upd doc :: post)%list).
Proof.
  induction c as [|d c IH]; simpl.
  - now left.
  - destruct (N.eqb (id_of d) id) eqn:E.
    + right. exists [], d, c. apply N.eqb_eq in E. now repeat split.
    + destruct IH as [IH | (pre & doc & post & Hc & Hid & IH)]; rewrite IH.
      * now left.
      * right. exists (d :: pre), doc, post. subst c. now repeat split.
Qed.

(** The document rewritten is the first one with the [_id]. *)
Lemma findByIdAndUpdate_first (id_of : A -> Mongo.ObjectId) (upd : A -> A)
  (id : Mongo.ObjectId) (pre post : list A) (doc : A) :
  id_of doc = id -> (forall x, In x pre -> id_of x <> id) ->
  Mongo.findByIdAndUpdate id_of upd id (pre ++ doc :: post)
  = (Some (upd doc), (pre ++ upd doc :: post)%list).
Proof.
  intros Hid. induction pre as [|x pre IH]; intros Hpre; simpl.
  - apply N.eqb_eq in Hid. now rewrite Hid.
  - assert (E : N.eqb (id_of x) id = false)
      by (apply N.eqb_neq, Hpre; now left).
    rewrite E, IH; [reflexivity|]. intros y Hy. apply Hpre. now right.
Qed.

Lemma findByIdAndUpdate_cases (id_of : A -> Mongo.ObjectId) (upd : A -> A)
  (id : Mongo.ObjectId) (c : list A) :
  ((forall x, In x c -> id_of x <> id)
   /\ Mongo.findByIdAndUpdate id_of upd id c = (None, c))
  \/ exists pre doc post,
      c = (pre ++ doc :: post)%list
      /\ id_of doc = id
      /\ (forall x, In x pre -> id_of x <> id)
      /\ Mongo.findByIdAndUpdate id_of upd id c
         = (Some (upd doc), (pre ++ upd doc :: post)%list).
Proof.
  induction c as [|d c IH]; simpl.
  - left. split; [intros x []|reflexivity].
  - destruct (N.eqb (id_of d) id) eqn:E.
    + right. exists [], d, c. apply N.eqb_eq in E.
      split; [reflexivity|]. split; [exact E|]. split; [intros x []|reflexivity].
    + apply N.eqb_neq in E.
      destruct IH as [[Hno IH] | (pre & doc & post & Hc & Hid & Hpre & IH)];
        rewrite IH.
      * left. split; [|reflexivity]. intros x [<-|Hx]; [exact E | now apply Hno].
      * right. exists (d :: pre), doc, post. subst c.
        split; [reflexivity|]. split; [exact Hid|]. split; [|reflexivity].
        intros x [<-|Hx]; [exact E | now apply Hpre].
Qed.

End MongoFacts.

(** ** Rent Easy: order status and retrieval *)

Section RentEasyOrders.
Import RentEasy.

Variable castObjectId : string -> option Mongo.ObjectId.

Lemma allowed_status_inv (v : option string) :
  allowed_status v = true ->
  exists s, v = Some s /\ (s = "delivered" \/ s = "cancelled").
Proof.
  destruct v as [s|]; simpl; [|discriminate].
  intros H. exists s. split; [reflexivity|].
  apply orb_true_iff in H. destruct H as [H|H]; apply String.eqb_eq in H; auto.
Qed.

(** C3, as the code has it. A request of [update-order-status] whose
    target status is neither "delivered" nor "cancelled" is rejected with
    400 and leaves every order unchanged. A request with one of the two
    statuses and an [orderId] that casts to the [_id] of a stored order
    is answered with 200 and the rewritten order: the first order with
    that [_id] gets the requested status (and the time of the request as
    [updatedAt]) whatever its status was before, and every other order is
    as it was. And that is the only change the endpoint ever applies: any
    request either leaves the database as it was or rewrites the first
    order with the requested [_id] in this way. *)
Theorem update_order_status_effect (e : Mongo.env) (d : db)
  (r : update_status_body) :
  (allowed_status (us_status r) = false ->
   http_status (fst (update_order_status castObjectId e d r)) = 400
   /\ snd (update_order_status castObjectId e d r) = d)
  /\ (forall s id pre o post,
        us_status r = Some s ->
        s = "delivered" \/ s = "cancelled" ->
        JS.truthy (us_orderId r) = true ->
        castObjectId (JS.toString (us_orderId r)) = Some id ->
        orders d = (pre ++ o :: post)%list ->
        o_id o = id ->
        (forall x, In x pre -> o_id x <> id) ->
        update_order_status castObjectId e d r
        = (json None (OrderPayload (set_status s (Mongo.now e) o)),
           with_orders d (pre ++ set_status s (Mongo.now e) o :: post))
        /\ status (set_status s (Mongo.now e) o) = s
        /\ o_id (set_status s (Mongo.now e) o) = id
        /\ items (set_status s (Mongo.now e) o) = items o)
  /\ (snd (update_order_status castObjectId e d r) = d
      \/ exists pre o post s id,
          orders d = (pre ++ o :: post)%list
          /\ us_status r = Some s
          /\ (s = "delivered" \/ s = "cancelled")
          /\ castObjectId (JS.toString (us_orderId r)) = Some id
          /\ o_id o = id
          /\ (forall x, In x pre -> o_id x <> id)
          /\ http_status (fst (update_order_status castObjectId e d r)) = 200
          /\ snd (update_order_status castObjectId e d r)
             = with_orders d (pre ++ set_status s (Mongo.now e) o :: post)).
Proof.
  split; [|split].
  - intros Ha. unfold update_order_status. rewrite Ha, orb_true_r.
    simpl. now split.
  - intros s id pre o post Hs Hv Ht Hc Hd Hid Hpre.
    assert (Ha : allowed_status (us_status r) = true).
    { rewrite Hs. simpl. destruct Hv as [-> | ->]; reflexivity. }
    unfold update_order_status. rewrite Ht, Ha, Hc, Hs, Hd.
    cbn [negb orb JS.toString].
    rewrite (findByIdAndUpdate_first o_id _ id pre post o Hid Hpre).
    cbn [Mongo.try_catch]. repeat split. exact Hid.
  - unfold update_order_status.
    destruct (allowed_status (us_status r)) eqn:Ha;
      [|rewrite orb_true_r; now left].
    destruct (allowed_status_inv _ Ha) as (s & Hs & Hv).
    destruct (JS.truthy (us_orderId r)); simpl; [|now left].
    destruct (castObjectId (JS.toString (us_orderId r))) as [id|]; simpl;
      [|now left].
    rewrite Hs. simpl JS.toString.
    destruct (findByIdAndUpdate_cases o_id (set_status s (Mongo.now e)) id
                (orders d))
      as [[_ H] | (pre & o & post & Hd & Hid & Hpre & H)];
      rewrite H; simpl.
    + now left.
    + right. exists pre, o, post, s, id. repeat split; auto.
Qed.

End RentEasyOrders.

(** C3, as worded, fails: an order that is already "delivered" is taken
    to "cancelled" by a request the endpoint answers with 200. *)
Lemma status_change_from_delivered :
  map RentEasy.status (RentEasy.orders Samples.rent_db1) = ["pending"]
  /\ map RentEasy.status (RentEasy.orders Samples.rent_db2) = ["delivered"]
  /\ RentEasy.http_status
       (fst (RentEasy.update_order_status Driver.castObjectId Samples.env3
               Samples.rent_db2 (Samples.status_req "cancelled"))) = 200
  /\ map RentEasy.status
       (RentEasy.orders
          (snd (RentEasy.update_order_status Driver.castObjectId Samples.env3
                  Samples.rent_db2 (Samples.status_req "cancelled"))))
     = ["cancelled"]
  /\ "delivered" <> "pending".
Proof. repeat split; try reflexivity. discriminate. Qed.

(** The delivered order of [rent_db2] is rewritten like any other. *)
Lemma update_order_status_effect_witness :
  RentEasy.orders Samples.rent_db2
  = [RentEasy.set_status "delivered" 2000 MoreSamples.order1]
  /\ RentEasy.update_order_status Driver.castObjectId Samples.env3
       Samples.rent_db2 (Samples.status_req "cancelled")
     = (RentEasy.json None
          (RentEasy.OrderPayload
             (RentEasy.set_status "cancelled" 3000
                (RentEasy.set_status "delivered" 2000 MoreSamples.order1))),
        RentEasy.with_orders Samples.rent_db2
          [RentEasy.set_status "cancelled" 3000
             (RentEasy.set_status "delivered" 2000 MoreSamples.order1)]).
Proof.
  split; [reflexivity|].
  destruct (update_order_status_effect Driver.castObjectId Samples.env3
              Samples.rent_db2 (Samples.status_req "cancelled"))
    as (_ & Hfirst & _).
  destruct (Hfirst "cancelled" 1%N []
              (RentEasy.set_status "delivered" 2000 MoreSamples.order1) []
              eq_refl (or_intror eq_refl) eq_refl eq_refl eq_refl eq_refl
              (fun x (H : In x []) => match H with end)) as (Hupd & _).
  exact Hupd.
Defined.

(** ** Accounts: lookup by phone *)

Section AccountFacts.
Context {A : Type}.
Variable phone_of : A -> string.

Lemma truthy_inv (v : option string) :
  JS.truthy v = true -> exists s, v = Some s /\ s <> "".
Proof.
  destruct v as [s|]; simpl; [|discriminate].
  intros H. exists s. split; [reflexivity|].
  intros ->. discriminate.
Qed.

Lemma findOne_phone_none (p : option string) (l : list A) :
  (forall a, In a l -> p <> Some (phone_of a)) ->
  Mongo.findOne (Mongo.phone_is phone_of p) l = None.
Proof.
  unfold Mongo.findOne. induction l as [|a l IH]; intros H; simpl.
  - reflexivity.
  - destruct (Mongo.phone_is phone_of p a) eqn:E.
    + exfalso. apply (H a); [now left|].
      destruct p as [s|]; simpl in E; [|discriminate].
      apply String.eqb_eq in E. now subst.
    + apply IH. intros b Hb. apply H. now right.
Qed.

Lemma findOne_phone_some (p : option string) (l : list A) (a : A) :
  In a l -> p = Some (phone_of a) ->
  exists b, Mongo.findOne (Mongo.phone_is phone_of p) l = Some b
            /\ In b l /\ phone_of b = phone_of a.
Proof.
  unfold Mongo.findOne. intros Hin ->.
  induction l as [|x l IH]; simpl in *; [contradiction|].
  destruct (String.eqb (phone_of x) (phone_of a)) eqn:E.
  - exists x. apply String.eqb_eq in E. auto.
  - destruct Hin as [->|Hin]; [now rewrite String.eqb_refl in E|].
    destruct (IH Hin) as (b & Hb & Hbin & Hbp). exists b. auto.
Qed.

Lemma findOne_phone_fresh (s : string) (l : list A) :
  Mongo.findOne (Mongo.phone_is phone_of (Some s)) l = None ->
  existsb (fun v => String.eqb (phone_of v) s) l = false
  /\ ~ In s (map phone_of l).
Proof.
  unfold Mongo.findOne. induction l as [|x l IH]; simpl.
  - auto.
  - destruct (String.eqb (phone_of x) s) eqn:E; [discriminate|].
    intros H. destruct (IH H) as [H1 H2]. split; [exact H1|].
    intros [Hx|Hx]; [|now apply H2].
    subst s. now rewrite String.eqb_refl in E.
Qed.

Lemma unique_phone (l : list A) (a b : A) :
  NoDup (map phone_of l) -> In a l -> In b l -> phone_of a = phone_of b ->
  a = b.
Proof.
  induction l as [|x l IH]; simpl; [contradiction|].
  intros Hnd Ha Hb Hp. inversion Hnd as [|? ? Hx Hl]; subst.
  destruct Ha as [->|Ha], Hb as [->|Hb]; trivial.
  - exfalso. apply Hx. rewrite Hp. now apply in_map.
  - exfalso. apply Hx. rewrite <- Hp. now apply in_map.
  - now apply IH.
Qed.

Lemma NoDup_phone_snoc (l : list A) (a : A) :
  NoDup (map phone_of l) -> ~ In (phone_of a) (map phone_of l) ->
  NoDup (map phone_of (l ++ [a])).
Proof.
  intros Hnd Hfresh. rewrite map_app. simpl.
  induction (map phone_of l) as [|x m IH]; simpl.
  - constructor; [intros []|constructor].
  - inversion Hnd as [|? ? Hx Hm]; subst. constructor.
    + rewrite in_app_iff. intros [H|[H|[]]]; [now apply Hx|].
      subst x. apply Hfresh. now left.
    + apply IH; [exact Hm|]. intros H. apply Hfresh. now right.
Qed.

End AccountFacts.

(** ** Signup *)

Section SignupFacts.

(** The three signup handlers by cases: the unique index never fires,
    because [findOne] has just found the phone free. *)
Lemma rent_easy_signup_unfold (e : Mongo.env) (d : RentEasy.db)
  (r : RentEasy.signup_body) :
  RentEasy.signup e d r =
  if (JS.truthy (RentEasy.su_name r) && JS.truthy (RentEasy.su_phone r)
      && JS.truthy (RentEasy.su_password r))%bool
  then
    match Mongo.findOne (Mongo.phone_is RentEasy.u_phone (RentEasy.su_phone r))
            (RentEasy.users d) with
    | Some _ => (RentEasy.fail 400 "Phone already registered", d)
    | None =>
        (RentEasy.json (Some "Signup successful") RentEasy.NoPayload,
         RentEasy.with_users d
           (RentEasy.users d
            ++ [{| RentEasy.u_id := Mongo.newId e;
                   RentEasy.u_name := JS.toString (RentEasy.su_name r);
                   RentEasy.u_phone := JS.toString (RentEasy.su_phone r);
                   RentEasy.u_password := JS.toString (RentEasy.su_password r) |}]))
    end
  else (RentEasy.fail 400 "All fields required", d).
Proof.
  unfold RentEasy.signup.
  destruct (JS.truthy (RentEasy.su_name r)); [|reflexivity].
  destruct (JS.truthy (RentEasy.su_phone r)) eqn:Hp; [|reflexivity].
  destruct (JS.truthy (RentEasy.su_password r)); [|reflexivity].
  simpl. destruct (truthy_inv _ Hp) as (s & Hs & _). rewrite Hs.
  destruct (Mongo.findOne _ _) eqn:F; [reflexivity|].
  apply findOne_phone_fresh in F. destruct F as [F _].
  unfold RentEasy.save_user. simpl. now rewrite F.
Qed.

Lemma owner_signup_unfold (e : Mongo.env) (d : ChatPoint.db)
  (r : ChatPoint.owner_body) :
  ChatPoint.owner_signup e d r =
  if (JS.truthy (ChatPoint.ob_phone r) && JS.truthy (ChatPoint.ob_password r))%bool
  then
    match Mongo.findOne (Mongo.phone_is ChatPoint.ow_phone (ChatPoint.ob_phone r))
            (ChatPoint.owners d) with
    | Some _ => (ChatPoint.fail 400 "Owner already exists", d)
    | None =>
        (ChatPoint.json (Some "Owner registered successfully") ChatPoint.NoPayload,
         ChatPoint.with_owners d
           (ChatPoint.owners d
            ++ [{| ChatPoint.ow_id := Mongo.newId e;
                   ChatPoint.ow_phone := JS.toString (ChatPoint.ob_phone r);
                   ChatPoint.ow_password := JS.toString (ChatPoint.ob_password r) |}]))
    end
  else (ChatPoint.fail 400 "Phone and password required", d).
Proof.
  unfold ChatPoint.owner_signup.
  destruct (JS.truthy (ChatPoint.ob_phone r)) eqn:Hp; [|reflexivity].
  destruct (JS.truthy (ChatPoint.ob_password r)); [|reflexivity].
  simpl. destruct (truthy_inv _ Hp) as (s & Hs & _). rewrite Hs.
  destruct (Mongo.findOne _ _) eqn:F; [reflexivity|].
  apply findOne_phone_fresh in F. destruct F as [F _].
  unfold ChatPoint.save_owner. simpl. now rewrite F.
Qed.

Lemma user_signup_unfold (e : Mongo.env) (d : ChatPoint.db)
  (r : ChatPoint.signup_body) :
  ChatPoint.user_signup e d r =
  if (JS.truthy (ChatPoint.su_name r) && JS.truthy (ChatPoint.su_phone r)
      && JS.truthy (ChatPoint.su_password r))%bool
  then
    match Mongo.findOne (Mongo.phone_is ChatPoint.u_phone (ChatPoint.su_phone r))
            (ChatPoint.users d) with
    | Some _ => (ChatPoint.fail 400 "User already exists", d)
    | None =>
        (ChatPoint.json (Some "User registered successfully") ChatPoint.NoPayload,
         ChatPoint.with_users d
           (ChatPoint.users d
            ++ [{| ChatPoint.u_id := Mongo.newId e;
                   ChatPoint.u_name := JS.toString (ChatPoint.su_name r);
                   ChatPoint.u_phone := JS.toString (ChatPoint.su_phone r);
                   ChatPoint.u_password := JS.toString (ChatPoint.su_password r) |}]))
    end
  else (ChatPoint.fail 400 "All fields required", d).
Proof.
  unfold ChatPoint.user_signup.
  destruct (JS.truthy (ChatPoint.su_name r)); [|reflexivity].
  destruct (JS.truthy (ChatPoint.su_phone r)) eqn:Hp; [|reflexivity].
  destruct (JS.truthy (ChatPoint.su_password r)); [|reflexivity].
  simpl. destruct (truthy_inv _ Hp) as (s & Hs & _). rewrite Hs.
  destruct (Mongo.findOne _ _) eqn:F; [reflexivity|].
  apply findOne_phone_fresh in F. destruct F as [F _].
  unfold ChatPoint.save_user. simpl. now rewrite F.
Qed.

(** A handler of that shape meets the signup contract. *)
Context {DB Body Account Response : Type}.
Variable handler : Mongo.env -> DB -> Body -> Response * DB.
Variable accounts : DB -> list Account.
Variable with_accounts : DB -> list Account -> DB.
Variable phone_of : Account -> string.
Variable body_phone : Body -> option string.
Variable complete : Body -> bool.
Variable code : Response -> Z.
Variable new_account : Mongo.env -> Body -> Account.
Variables incomplete_reply taken_reply created_reply : Response.

Hypothesis accounts_with :
  forall d l, accounts (with_accounts d l) = l.
Hypothesis new_account_phone :
  forall e r, phone_of (new_account e r) = JS.toString (body_phone r).
Hypothesis complete_phone :
  forall r, complete r = true -> JS.truthy (body_phone r) = true.
Hypothesis incomplete_code : code incomplete_reply = 400.
Hypothesis taken_code : code taken_reply = 400.
Hypothesis created_code : code created_reply = 200.
Hypothesis handler_unfold :
  forall e d r,
    handler e d r =
    if complete r then
      match Mongo.findOne (Mongo.phone_is phone_of (body_phone r)) (accounts d) with
      | Some _ => (taken_reply, d)
      | None => (created_reply,
                 with_accounts d (accounts d ++ [new_account e r]))
      end
    else (incomplete_reply, d).

Lemma signup_shape_contract :
  Contracts.signup_contract handler accounts phone_of body_phone complete code.
Proof.
  split; [|split].
  - intros e d r a Hin Hp. rewrite handler_unfold.
    destruct (complete r); [|auto].
    destruct (findOne_phone_some phone_of _ _ _ Hin Hp) as (b & -> & _).
    auto.
  - intros e d r p Hc Hp Hfree. rewrite handler_unfold, Hc.
    rewrite findOne_phone_none.
    + simpl. split; [exact created_code|].
      exists (new_account e r). rewrite new_account_phone, Hp, accounts_with.
      auto.
    + intros a Ha Heq. rewrite Hp in Heq. injection Heq as ->.
      now apply (Hfree a).
  - intros e d r Hnd. rewrite handler_unfold.
    destruct (complete r) eqn:Hc; [|exact Hnd].
    destruct (Mongo.findOne _ _) eqn:F; [exact Hnd|].
    simpl. rewrite accounts_with.
    destruct (truthy_inv _ (complete_phone r Hc)) as (s & Hs & _).
    rewrite Hs in F. apply findOne_phone_fresh in F. destruct F as [_ F].
    apply NoDup_phone_snoc; [exact Hnd|].
    now rewrite new_account_phone, Hs.
Qed.

End SignupFacts.

(** C5. Every signup handler (Rent Easy user, Chat Point owner, Chat
    Point user) answers 400 and stores nothing when an account with the
    phone exists; appends exactly one account with that phone, with
    status 200, when the phone is free and the required fields are
    present; and keeps the phones of the collection pairwise distinct. *)
Theorem signup_keeps_phone_unique :
  Contracts.signup_contract RentEasy.signup RentEasy.users RentEasy.u_phone
    RentEasy.su_phone
    (fun r => (JS.truthy (RentEasy.su_name r) && JS.truthy (RentEasy.su_phone r)
               && JS.truthy (RentEasy.su_password r))%bool)
    RentEasy.http_status
  /\ Contracts.signup_contract ChatPoint.owner_signup ChatPoint.owners
       ChatPoint.ow_phone ChatPoint.ob_phone
       (fun r => (JS.truthy (ChatPoint.ob_phone r)
                  && JS.truthy (ChatPoint.ob_password r))%bool)
       ChatPoint.http_status
  /\ Contracts.signup_contract ChatPoint.user_signup ChatPoint.users
       ChatPoint.u_phone ChatPoint.su_phone
       (fun r => (JS.truthy (ChatPoint.su_name r) && JS.truthy (ChatPoint.su_phone r)
                  && JS.truthy (ChatPoint.su_password r))%bool)
       ChatPoint.http_status.
Proof.
  split; [|split].
  - apply (signup_shape_contract RentEasy.signup RentEasy.users
             RentEasy.with_users RentEasy.u_phone RentEasy.su_phone _
             RentEasy.http_status
             (fun e r =>
                {| RentEasy.u_id := Mongo.newId e;
                   RentEasy.u_name := JS.toString (RentEasy.su_name r);
                   RentEasy.u_phone := JS.toString (RentEasy.su_phone r);
                   RentEasy.u_password := JS.toString (RentEasy.su_password r) |})
             (RentEasy.fail 400 "All fields required")
             (RentEasy.fail 400 "Phone already registered")
             (RentEasy.json (Some "Signup successful") RentEasy.NoPayload));
      try reflexivity.
    + intros r H. apply andb_true_iff in H. destruct H as [H _].
      apply andb_true_iff in H. tauto.
    + apply rent_easy_signup_unfold.
  - apply (signup_shape_contract ChatPoint.owner_signup ChatPoint.owners
             ChatPoint.with_owners ChatPoint.ow_phone ChatPoint.ob_phone _
             ChatPoint.http_status
             (fun e r =>
                {| ChatPoint.ow_id := Mongo.newId e;
                   ChatPoint.ow_phone := JS.toString (ChatPoint.ob_phone r);
                   ChatPoint.ow_password := JS.toString (ChatPoint.ob_password r) |})
             (ChatPoint.fail 400 "Phone and password required")
             (ChatPoint.fail 400 "Owner already exists")
             (ChatPoint.json (Some "Owner registered successfully")
                ChatPoint.NoPayload));
      try reflexivity.
    + intros r H. apply andb_true_iff in H. tauto.
    + apply owner_signup_unfold.
  - apply (signup_shape_contract ChatPoint.user_signup ChatPoint.users
             ChatPoint.with_users ChatPoint.u_phone ChatPoint.su_phone _
             ChatPoint.http_status
             (fun e r =>
                {| ChatPoint.u_id := Mongo.newId e;
                   ChatPoint.u_name := JS.toString (ChatPoint.su_name r);
                   ChatPoint.u_phone := JS.toString (ChatPoint.su_phone r);
                   ChatPoint.u_password := JS.toString (ChatPoint.su_password r) |})
             (ChatPoint.fail 400 "All fields required")
             (ChatPoint.fail 400 "User already exists")
             (ChatPoint.json (Some "User registered successfully")
                ChatPoint.NoPayload));
      try reflexivity.
    + intros r H. apply andb_true_iff in H. destruct H as [H _].
      apply andb_true_iff in H. tauto.
    + apply user_signup_unfold.
Qed.

Lemma signup_keeps_phone_unique_witness :
  (RentEasy.http_status
     (fst (RentEasy.signup Samples.env1 Samples.rent_db0
             {| RentEasy.su_name := Some "Asha";
                RentEasy.su_phone := Some "9000000001";
                RentEasy.su_password := Some "secret" |})) = 200
   /\ exists a,
       RentEasy.u_phone a = "9000000001"
       /\ RentEasy.users
            (snd (RentEasy.signup Samples.env1 Samples.rent_db0
                    {| RentEasy.su_name := Some "Asha";
                       RentEasy.su_phone := Some "9000000001";
                       RentEasy.su_password := Some "secret" |}))
          = (RentEasy.users Samples.rent_db0 ++ [a])%list)
  /\ (ChatPoint.http_status
        (fst (ChatPoint.owner_signup Samples.env2 Samples.chat_db1
                (Samples.owner_login_req "9000000002" "another"))) = 400
      /\ snd (ChatPoint.owner_signup Samples.env2 Samples.chat_db1
                (Samples.owner_login_req "9000000002" "another"))
         = Samples.chat_db1)
  /\ NoDup (map ChatPoint.ow_phone
              (ChatPoint.owners
                 (snd (ChatPoint.owner_signup Samples.env2 Samples.chat_db1
                         (Samples.owner_login_req "9000000003" "another"))))).
Proof.
  destruct signup_keeps_phone_unique
    as ((_ & Hcreate & _) & (Htaken & _ & Hunique) & _).
  split; [|split].
  - apply Hcreate; [reflexivity | reflexivity | intros a []].
  - apply Htaken with (a := Samples.owner1); [now left | reflexivity].
  - apply Hunique. repeat constructor. intros [].
Defined.

(** ** Login *)

Section LoginFacts.

Lemma differs_false (stored : string) (given : option string) :
  Mongo.differs stored given = false <-> given = Some stored.
Proof.
  destruct given as [g|]; simpl.
  - rewrite negb_false_iff, String.eqb_eq. split; [now intros ->|].
    now intros [= ->].
  - split; discriminate.
Qed.

Context {DB Body Account Response : Type}.
Variable handler : DB -> Body -> Response.
Variable accounts : DB -> list Account.
Variable phone_of password_of : Account -> string.
Variable body_phone body_password : Body -> option string.
Variable code : Response -> Z.
Variable succeeded : Response -> bool.
Variable unknown : Z.
Variables unknown_reply wrong_reply : Response.
Variable welcome : Account -> Response.

Hypothesis unknown_code : code unknown_reply = unknown.
Hypothesis wrong_code : code wrong_reply = 401.
Hypothesis welcome_code : forall a, code (welcome a) = 200.
Hypothesis welcome_success : forall a, succeeded (welcome a) = true.
Hypothesis handler_unfold :
  forall d r,
    handler d r =
    match Mongo.findOne (Mongo.phone_is phone_of (body_phone r)) (accounts d) with
    | None => unknown_reply
    | Some a =>
        if Mongo.differs (password_of a) (body_password r) then wrong_reply
        else welcome a
    end.

(** A handler of that shape meets the login contract. *)
Lemma login_shape_contract :
  Contracts.login_contract handler accounts phone_of password_of
    body_phone body_password code succeeded unknown.
Proof.
  intros d r Hnd. rewrite handler_unfold. split.
  - intros Hnone. now rewrite findOne_phone_none.
  - intros a Hin Hp.
    destruct (findOne_phone_some phone_of _ _ _ Hin Hp) as (b & -> & Hb & Hbp).
    assert (b = a) as -> by now apply (unique_phone phone_of (accounts d)).
    destruct (Mongo.differs (password_of a) (body_password r)) eqn:E.
    + split; [auto|]. intros Heq. apply differs_false in Heq. congruence.
    + apply differs_false in E. split; [congruence|]. auto.
Qed.

End LoginFacts.

(** C4, as the code has it. Every login handler compares the password
    sent with the stored one character for character. In the Chat Point
    backend (owner and user) the status is 404 when no account has the
    phone, 401 when the account's password differs, and 200 with success
    otherwise. In the Rent Easy backend the status is 401 both when no
    account has the phone and when the password differs, and 200 with
    success otherwise. *)
Theorem login_status_codes :
  Contracts.login_contract ChatPoint.owner_login ChatPoint.owners
    ChatPoint.ow_phone ChatPoint.ow_password
    ChatPoint.ob_phone ChatPoint.ob_password
    ChatPoint.http_status ChatPoint.success 404
  /\ Contracts.login_contract ChatPoint.user_login ChatPoint.users
       ChatPoint.u_phone ChatPoint.u_password
       ChatPoint.lg_phone ChatPoint.lg_password
       ChatPoint.http_status ChatPoint.success 404
  /\ Contracts.login_contract RentEasy.login RentEasy.users
       RentEasy.u_phone RentEasy.u_password
       RentEasy.lg_phone RentEasy.lg_password
       RentEasy.http_status RentEasy.success 401.
Proof.
  split; [|split].
  - apply (login_shape_contract _ _ _ _ _ _ _ _ _
             (ChatPoint.fail 404 "Owner not found")
             (ChatPoint.fail 401 "Incorrect password")
             (fun a => ChatPoint.json (Some "Login successful")
                         (ChatPoint.OwnerPayload a)));
      reflexivity.
  - apply (login_shape_contract _ _ _ _ _ _ _ _ _
             (ChatPoint.fail 404 "User not found")
             (ChatPoint.fail 401 "Incorrect password")
             (fun a => ChatPoint.json (Some "Login successful")
                         (ChatPoint.UserPayload a)));
      reflexivity.
  - apply (login_shape_contract _ _ _ _ _ _ _ _ _
             (RentEasy.fail 401 "Invalid credentials")
             (RentEasy.fail 401 "Invalid credentials")
             (fun a => RentEasy.json None
                         (RentEasy.UserPayload (RentEasy.u_id a)
                            (RentEasy.u_name a) (RentEasy.u_phone a))));
      reflexivity.
Qed.

(** C4, as worded, fails on Rent Easy: with no account under the phone
    the login is answered with 401, not 404. *)
Lemma rent_easy_login_unknown_phone :
  RentEasy.users Samples.rent_db0 = []
  /\ RentEasy.http_status
       (RentEasy.login Samples.rent_db0
          {| RentEasy.lg_phone := Some "9000000001";
             RentEasy.lg_password := Some "secret" |}) = 401
  /\ 401 <> 404.
Proof. repeat split; try reflexivity. discriminate. Qed.

Lemma login_status_codes_witness :
  ChatPoint.owners Samples.chat_db1 = [Samples.owner1]
  /\ ChatPoint.http_status
       (ChatPoint.owner_login Samples.chat_db1
          (Samples.owner_login_req "9000000002" "open sesame")) = 200
  /\ ChatPoint.http_status
       (ChatPoint.owner_login Samples.chat_db1
          (Samples.owner_login_req "9000000002" "Open Sesame")) = 401
  /\ ChatPoint.http_status
       (ChatPoint.owner_login Samples.chat_db1
          (Samples.owner_login_req "9000000003" "open sesame")) = 404
  /\ RentEasy.http_status
       (RentEasy.login Samples.rent_db0
          {| RentEasy.lg_phone := Some "9000000001";
             RentEasy.lg_password := Some "secret" |}) = 401.
Proof.
  destruct login_status_codes as (Howner & _ & Hrent).
  assert (Hnd : NoDup (map ChatPoint.ow_phone (ChatPoint.owners Samples.chat_db1)))
    by (repeat constructor; intros []).
  split; [reflexivity|]. split; [|split; [|split]].
  - apply (Howner Samples.chat_db1 _ Hnd) with (a := Samples.owner1);
      [now left | reflexivity | reflexivity].
  - apply (Howner Samples.chat_db1 _ Hnd) with (a := Samples.owner1);
      [now left | reflexivity | discriminate].
  - apply (Howner Samples.chat_db1 _ Hnd).
    intros a [<-|[]]. discriminate.
  - apply (Hrent Samples.rent_db0); [constructor | intros a []].
Defined.

(** ** [split] *)

Example split_samples :
  JS.split "Lat: 12.5, Lng: 77.25" "Lat: " = [""; "12.5, Lng: 77.25"]%string
  /\ JS.split "a,b,,c," "," = ["a"; "b"; ""; "c"; ""]%string
  /\ JS.split "" "," = [""]%string
  /\ JS.split "abc" "Lat: " = ["abc"]%string
  /\ JS.split "abc" "" = ["a"; "b"; "c"]%string.
Proof. repeat split; reflexivity. Qed.

Section SplitFacts.

(** The separator, with its first character [c0] singled out. *)
Variable c0 : ascii.
Variable sep' : string.
Let sep : string := String c0 sep'.

Lemma append_assoc (a b c : string) : ((a ++ b) ++ c = a ++ (b ++ c))%string.
Proof. induction a as [|x a IH]; simpl; [reflexivity | now rewrite IH]. Qed.

Lemma append_nil_r (a : string) : (a ++ "" = a)%string.
Proof. induction a as [|x a IH]; simpl; [reflexivity | now rewrite IH]. Qed.

Lemma has_char_app (c : ascii) (a b : string) :
  JS.has_char c (a ++ b) = (JS.has_char c a || JS.has_char c b)%bool.
Proof.
  induction a as [|x a IH]; simpl; [reflexivity|].
  now rewrite IH, orb_assoc.
Qed.

Lemma prefix_other_char (c : ascii) (s : string) :
  Ascii.eqb c c0 = false -> String.prefix sep (String c s) = false.
Proof.
  intros H. simpl. destruct (ascii_dec c0 c) as [->|]; [|reflexivity].
  now rewrite Ascii.eqb_refl in H.
Qed.

Lemma prefix_append (a b : string) : String.prefix a (a ++ b) = true.
Proof.
  induction a as [|x a IH]; simpl.
  - now destruct b.
  - destruct (ascii_dec x x); [exact IH | congruence].
Qed.

(** The characters of a matched separator are jumped over. *)
Lemma split_from_skip (t s cur : string) :
  JS.split_from sep (t ++ s) (String.length t) cur = JS.split_from sep s 0 cur.
Proof.
  revert cur. induction t as [|x t IH]; intros cur; simpl.
  - reflexivity.
  - apply IH.
Qed.

(** A separator at the head closes the current segment. *)
Lemma split_from_sep (s cur : string) :
  JS.split_from sep (sep ++ s) 0 cur = cur :: JS.split_from sep s 0 "".
Proof.
  change (sep ++ s)%string with (String c0 (sep' ++ s)).
  cbn [JS.split_from].
  change (String c0 (sep' ++ s)) with (sep ++ s)%string.
  rewrite prefix_append. f_equal.
  replace (String.length sep - 1)%nat with (String.length sep')
    by (simpl; lia).
  apply split_from_skip.
Qed.

(** Characters other than [c0] extend the current segment. *)
Lemma split_from_other (pre s cur : string) :
  JS.has_char c0 pre = false ->
  JS.split_from sep (pre ++ s) 0 cur = JS.split_from sep s 0 (cur ++ pre).
Proof.
  revert cur. induction pre as [|x pre IH]; intros cur H; simpl in *.
  - now rewrite append_nil_r.
  - apply orb_false_iff in H. destruct H as [Hx Hpre].
    destruct (ascii_dec c0 x) as [->|_].
    + now rewrite Ascii.eqb_refl in Hx.
    + rewrite IH by exact Hpre. now rewrite append_assoc.
Qed.

Lemma split_from_no_char (s cur : string) :
  JS.has_char c0 s = false -> JS.split_from sep s 0 cur = [(cur ++ s)%string].
Proof.
  intros H. rewrite <- (append_nil_r s) at 1.
  now rewrite split_from_other.
Qed.

(** Without an occurrence of the separator there is one segment. *)
Lemma split_from_not_included (s cur : string) :
  JS.includes s sep = false -> JS.split_from sep s 0 cur = [(cur ++ s)%string].
Proof.
  revert cur. induction s as [|x s IH]; intros cur H.
  - simpl. now rewrite append_nil_r.
  - cbn [JS.includes] in H. apply orb_false_iff in H. destruct H as [Hp Hs].
    cbn [JS.split_from]. rewrite Hp, IH by exact Hs.
    now rewrite append_assoc.
Qed.

(** With an occurrence there are at least two. *)
Lemma split_from_included (s cur : string) :
  JS.includes s sep = true ->
  exists a b rest, JS.split_from sep s 0 cur = a :: b :: rest.
Proof.
  revert cur. induction s as [|x s IH]; intros cur H.
  - simpl in H. discriminate.
  - cbn [JS.includes] in H. cbn [JS.split_from].
    destruct (String.prefix sep (String x s)) eqn:Hp.
    + exists cur.
      assert (Hlen : forall t k c, exists b rest,
                 JS.split_from sep t k c = b :: rest).
      { induction t as [|y t IHt]; intros k c; simpl.
        - eauto.
        - destruct k; [|apply IHt].
          destruct (match ascii_dec c0 y with
                    | left _ => String.prefix sep' t
                    | right _ => false
                    end); eauto. }
      destruct (Hlen s (String.length sep - 1)%nat ""%string) as (b & rest & ->).
      eauto.
    + simpl in H. apply IH. exact H.
Qed.

End SplitFacts.

(** ** Chat Point: the location text *)

Section LocationFacts.

Lemma includes_other (c0 : ascii) (sep' pre s : string) :
  JS.has_char c0 pre = false ->
  JS.includes (pre ++ s) (String c0 sep') = JS.includes s (String c0 sep').
Proof.
  induction pre as [|x pre IH]; intros H; [reflexivity|].
  simpl in H. apply orb_false_iff in H. destruct H as [Hx Hpre].
  change (String x pre ++ s)%string with (String x (pre ++ s)).
  cbn [JS.includes]. rewrite prefix_other_char by exact Hx.
  now rewrite IH.
Qed.

Lemma includes_no_char (c0 : ascii) (sep' s : string) :
  JS.has_char c0 s = false -> JS.includes s (String c0 sep') = false.
Proof.
  intros H. rewrite <- (append_nil_r s), includes_other by exact H.
  reflexivity.
Qed.

Variables sx sy : string.
Hypothesis no_L_x : JS.has_char "L" sx = false.
Hypothesis no_comma_x : JS.has_char "," sx = false.
Hypothesis no_L_y : JS.has_char "L" sy = false.

Lemma split_at_Lat :
  JS.split ("Lat: " ++ sx ++ ", Lng: " ++ sy) "Lat: "
  = [""; sx ++ ", Lng: " ++ sy]%string.
Proof.
  unfold JS.split. cbn [String.eqb Ascii.eqb Bool.eqb].
  rewrite (split_from_sep "L" "at: ").
  rewrite (split_from_not_included "L" "at: "); [reflexivity|].
  rewrite includes_other by exact no_L_x. cbn.
  now apply includes_no_char.
Qed.

Lemma split_at_comma :
  Mongo.index (JS.split (sx ++ ", Lng: " ++ sy) ",") 0 = Some sx.
Proof.
  unfold JS.split. cbn [String.eqb Ascii.eqb Bool.eqb].
  rewrite (split_from_other "," "") by exact no_comma_x.
  change (", Lng: " ++ sy)%string with ("," ++ (" Lng: " ++ sy))%string.
  rewrite (split_from_sep "," ""). reflexivity.
Qed.

Lemma split_at_Lng :
  JS.split ("Lat: " ++ sx ++ ", Lng: " ++ sy) "Lng: "
  = ["Lat: " ++ sx ++ ", "; sy]%string.
Proof.
  unfold JS.split. cbn [String.eqb Ascii.eqb Bool.eqb].
  replace ("Lat: " ++ sx ++ ", Lng: " ++ sy)%string
    with (String "L" (("at: " ++ sx ++ ", ") ++ "Lng: " ++ sy))%string
    by (simpl; now rewrite append_assoc).
  cbn [JS.split_from].
  replace (String.prefix "Lng: "
             (String "L" (("at: " ++ sx ++ ", ") ++ "Lng: " ++ sy)))
    with false by reflexivity.
  rewrite (split_from_other "L" "ng: ").
  2:{ rewrite !has_char_app, no_L_x. reflexivity. }
  rewrite (split_from_sep "L" "ng: ").
  rewrite (split_from_no_char "L" "ng: ") by exact no_L_y.
  reflexivity.
Qed.

(** The text after ["Lat: "] up to the first comma, and the text after
    ["Lng: "], are the two numbers of a well-shaped location. *)
Lemma parse_location_shape :
  ChatPoint.parse_location ("Lat: " ++ sx ++ ", Lng: " ++ sy)
  = Mongo.Ok {| ChatPoint.lat := JS.parseFloat sx;
                ChatPoint.lng := JS.parseFloat sy |}.
Proof.
  unfold ChatPoint.parse_location.
  rewrite split_at_Lat, split_at_Lng.
  change (Mongo.index [""; sx ++ ", Lng: " ++ sy]%string 1)
    with (Some (sx ++ ", Lng: " ++ sy)%string).
  cbn [ChatPoint.defined Mongo.bind].
  now rewrite split_at_comma.
Qed.

End LocationFacts.


(** ** The Number value: rounding to a double *)

Section RoundingFacts.

(** [round_half_even n b] is an integer nearest to [n / b], and even
    when [n / b] lies half way between two integers. *)
Lemma round_half_even_spec (n b : Z) :
  0 < b ->
  n / b <= JS.round_half_even n b <= n / b + 1
  /\ 2 * Z.abs (JS.round_half_even n b * b - n) <= b
  /\ (2 * Z.abs (JS.round_half_even n b * b - n) = b ->
      Z.even (JS.round_half_even n b) = true)
  /\ Z.abs (JS.round_half_even n b * b - n) <= n - n / b * b.
Proof.
  intros Hb. unfold JS.round_half_even.
  pose proof (Z.div_mod n b ltac:(lia)) as Hn.
  pose proof (Z.mod_pos_bound n b Hb) as Hr.
  set (m := n / b) in *. set (r := n mod b) in *.
  assert (Hm : m * b - n = - r) by lia.
  assert (Hm1 : (m + 1) * b - n = b - r) by lia.
  destruct (2 * r <? b) eqn:E1; [apply Z.ltb_lt in E1 | apply Z.ltb_ge in E1].
  - rewrite Hm. repeat split; try lia.
  - destruct (b <? 2 * r) eqn:E2; [apply Z.ltb_lt in E2 | apply Z.ltb_ge in E2].
    + rewrite Hm1. repeat split; try lia.
    + destruct (Z.even m) eqn:E3.
      * rewrite Hm. repeat split; try lia. trivial.
      * rewrite Hm1. repeat split; try lia.
        intros _. rewrite Z.even_add, E3. reflexivity.
Qed.

(** No multiple of [b] is nearer to [n] than the one chosen, and
    another one is as near only when the one chosen is even. *)
Lemma round_half_even_nearest (n b j : Z) :
  0 < b ->
  Z.abs (JS.round_half_even n b * b - n) <= Z.abs (j * b - n)
  /\ (j <> JS.round_half_even n b ->
      Z.abs (j * b - n) = Z.abs (JS.round_half_even n b * b - n) ->
      Z.even (JS.round_half_even n b) = true).
Proof.
  intros Hb.
  destruct (round_half_even_spec n b Hb) as (Hm & Hhalf & Heven & _).
  set (m := JS.round_half_even n b) in *.
  assert (Hj : b <= Z.abs ((j - m) * b) \/ j = m) by nia.
  split.
  - destruct Hj as [Hj| ->]; [|lia]. nia.
  - intros Hne Htie. destruct Hj as [Hj|Hj]; [|contradiction].
    apply Heven. nia.
Qed.

(** With the last bit at [2^t], [n / d] has at most 53 bits before it,
    and exactly 53 unless [t = 0]. *)
Lemma ulp_exponent_spec (n d : Z) :
  0 <= n -> 0 < d ->
  0 <= JS.ulp_exponent n d
  /\ n < 2 ^ 53 * (d * 2 ^ JS.ulp_exponent n d)
  /\ (JS.ulp_exponent n d = 0
      \/ 2 ^ 52 * (d * 2 ^ JS.ulp_exponent n d) <= n).
Proof.
  intros Hn Hd. unfold JS.ulp_exponent.
  pose proof (Z.div_mod n d ltac:(lia)) as Hdiv.
  pose proof (Z.mod_pos_bound n d Hd) as Hr.
  assert (Hx : 0 <= n / d) by (apply Z.div_pos; lia).
  set (x := n / d) in *. set (r := n mod d) in *.
  pose proof (Z.log2_nonneg x) as HL.
  assert (H53 : 2 ^ 53 = 2 * 2 ^ 52) by reflexivity.
  assert (H52 : 0 < 2 ^ 52) by reflexivity.
  destruct (Z.max_spec 0 (Z.log2 x - 52)) as [[Hlt ->]|[Hge ->]].
  - split; [lia|].
    assert (HT : 0 < 2 ^ (Z.log2 x - 52)) by (apply Z.pow_pos_nonneg; lia).
    assert (Hxpos : 0 < x).
    { destruct (Z.eq_dec x 0) as [E|E]; [|lia].
      rewrite E in Hlt. simpl in Hlt. lia. }
    destruct (Z.log2_spec x Hxpos) as [Hlo Hhi].
    replace (Z.succ (Z.log2 x)) with (53 + (Z.log2 x - 52)) in Hhi by lia.
    replace (Z.log2 x) with (52 + (Z.log2 x - 52)) in Hlo at 1 by lia.
    rewrite Z.pow_add_r in Hlo, Hhi by lia.
    set (T := 2 ^ (Z.log2 x - 52)) in *.
    set (P := 2 ^ 52) in *. rewrite H53 in *.
    split; [|right]; nia.
  - split; [lia|]. rewrite Z.pow_0_r, Z.mul_1_r. split; [|now left].
    assert (Hx53 : x < 2 ^ 53).
    { destruct (Z.eq_dec x 0) as [E|E]; [rewrite E; reflexivity|].
      destruct (Z.log2_spec x ltac:(lia)) as [_ Hhi].
      eapply Z.lt_le_trans; [exact Hhi|].
      apply Z.pow_le_mono_r; lia. }
    set (P := 2 ^ 53) in *. nia.
Qed.

(** The double chosen for [n / d], in units of the least double: it is
    nearest to [n / d] among all [m * 2^s] with [|m| <= 2^53], and its
    significand is even when another one is as near. *)
Lemma nearest_double_spec (n d : Z) :
  0 <= n -> 0 < d ->
  let t := JS.ulp_exponent n d in
  let M := JS.round_half_even n (d * 2 ^ t) in
  0 <= t /\ 0 <= M <= 2 ^ 53 /\ (t = 0 \/ 2 ^ 52 <= M)
  /\ forall m s,
      Z.abs m <= 2 ^ 53 -> 0 <= s ->
      Z.abs (M * 2 ^ t * d - n) <= Z.abs (m * 2 ^ s * d - n)
      /\ (m * 2 ^ s <> M * 2 ^ t ->
          Z.abs (m * 2 ^ s * d - n) = Z.abs (M * 2 ^ t * d - n) ->
          Z.even M = true).
Proof.
  intros Hn Hd t M.
  destruct (ulp_exponent_spec n d Hn Hd) as (Ht & Hup & Hlow).
  fold t in Ht, Hup, Hlow.
  assert (HT : 0 < 2 ^ t) by (apply Z.pow_pos_nonneg; lia).
  assert (Hb : 0 < d * 2 ^ t) by nia.
  destruct (round_half_even_spec n (d * 2 ^ t) Hb) as (Hm & Hhalf & Heven & Hfloor).
  fold M in Hm, Hhalf, Heven, Hfloor.
  assert (H53 : 2 ^ 53 = 2 * 2 ^ 52) by reflexivity.
  assert (H52 : 0 < 2 ^ 52) by reflexivity.
  assert (Hq0 : 0 <= n / (d * 2 ^ t)) by (apply Z.div_pos; lia).
  assert (Hq53 : n / (d * 2 ^ t) < 2 ^ 53).
  { apply Z.div_lt_upper_bound; [exact Hb|]. lia. }
  assert (Hq52 : t = 0 \/ 2 ^ 52 <= n / (d * 2 ^ t)).
  { destruct Hlow as [Hlow|Hlow]; [now left|right].
    apply Z.div_le_lower_bound; [exact Hb|]. lia. }
  split; [exact Ht|]. split; [lia|]. split; [lia|].
  intros m s Hmb Hs.
  assert (HS : 0 < 2 ^ s) by (apply Z.pow_pos_nonneg; lia).
  destruct (Z.le_gt_cases t s) as [Hts|Hts].
  - (* a multiple of the same unit *)
    assert (E : 2 ^ s = 2 ^ (s - t) * 2 ^ t)
      by (rewrite <- Z.pow_add_r by lia; f_equal; lia).
    destruct (round_half_even_nearest n (d * 2 ^ t) (m * 2 ^ (s - t)) Hb)
      as [Hnear Htie].
    fold M in Hnear, Htie.
    replace (M * 2 ^ t * d - n) with (M * (d * 2 ^ t) - n) by ring.
    replace (m * 2 ^ s * d - n)
      with (m * 2 ^ (s - t) * (d * 2 ^ t) - n) by (rewrite E; ring).
    split; [exact Hnear|]. intros Hne. apply Htie.
    intros Hj. apply Hne. rewrite E, <- Hj. ring.
  - (* a smaller unit: the value lies below 2^52 units *)
    assert (E : 2 ^ t = 2 ^ (t - s) * 2 ^ s)
      by (rewrite <- Z.pow_add_r by lia; f_equal; lia).
    assert (E2 : 2 <= 2 ^ (t - s)).
    { change 2 with (2 ^ 1) at 1. apply Z.pow_le_mono_r; lia. }
    destruct Hq52 as [Hq52|Hq52]; [lia|].
    set (q0 := n / (d * 2 ^ t)) in *.
    set (b := d * 2 ^ t) in *.
    set (P := 2 ^ 52) in *.
    assert (Hk : m * 2 ^ s * d <= P * b).
    { unfold b. rewrite E.
      set (S := 2 ^ s) in *. set (R := 2 ^ (t - s)) in *.
      assert (H1 : m * S <= 2 * P * S)
        by (apply Z.mul_le_mono_nonneg_r; lia).
      assert (H2 : 0 <= P * S * (R - 2))
        by (apply Z.mul_nonneg_nonneg; [apply Z.mul_nonneg_nonneg|]; lia).
      assert (H3 : m * S * d <= P * (R * S) * d)
        by (apply Z.mul_le_mono_nonneg_r; lia).
      lia. }
    assert (Hqb : P * b <= q0 * b)
      by (apply Z.mul_le_mono_nonneg_r; lia).
    replace (M * 2 ^ t * d - n) with (M * b - n) by (unfold b; ring).
    split; [lia|].
    intros Hne Htie.
    assert (Hq : q0 * b = P * b) by lia.
    assert (Hmk : m * 2 ^ s * d = P * b) by lia.
    assert (HM : M = q0 \/ M = q0 + 1) by lia.
    destruct HM as [HM|HM].
    + exfalso. apply Hne.
      assert (HqP : q0 = P) by (apply Z.mul_reg_r with b; lia).
      apply Z.mul_reg_r with d; [lia|].
      rewrite Hmk, HM, HqP. unfold b. ring.
    + apply Heven. rewrite HM in *. lia.
Qed.

End RoundingFacts.

Section NumberValueFacts.
Import Double.

(** Distances from [q], and their comparison, over the common
    denominator. *)
Lemma dyadic_dist (k : Z) (q : Q) :
  Qabs (Qmake k JS.least - q)
  = Qmake (Z.abs (k * Z.pos (Qden q) - Qnum q * Z.pos JS.least))
      (JS.least * Qden q).
Proof.
  destruct q as [qn qd]. unfold Qabs, Qminus, Qplus, Qopp. cbn [Qnum Qden].
  f_equal. f_equal. ring.
Qed.

Lemma dyadic_dist_le (k1 k2 : Z) (q : Q) :
  (Qabs (Qmake k1 JS.least - q) <= Qabs (Qmake k2 JS.least - q))%Q
  <-> Z.abs (k1 * Z.pos (Qden q) - Qnum q * Z.pos JS.least)
      <= Z.abs (k2 * Z.pos (Qden q) - Qnum q * Z.pos JS.least).
Proof.
  rewrite !dyadic_dist. unfold Qle. cbn [Qnum Qden].
  symmetry. apply Z.mul_le_mono_pos_r. reflexivity.
Qed.

Lemma dyadic_dist_eq (k1 k2 : Z) (q : Q) :
  (Qabs (Qmake k1 JS.least - q) == Qabs (Qmake k2 JS.least - q))%Q
  <-> Z.abs (k1 * Z.pos (Qden q) - Qnum q * Z.pos JS.least)
      = Z.abs (k2 * Z.pos (Qden q) - Qnum q * Z.pos JS.least).
Proof.
  rewrite !dyadic_dist. unfold Qeq. cbn [Qnum Qden].
  split; [|now intros ->]. apply Z.mul_reg_r. discriminate.
Qed.

Lemma dyadic_eq (k1 k2 : Z) :
  (Qmake k1 JS.least == Qmake k2 JS.least)%Q <-> k1 = k2.
Proof.
  unfold Qeq. cbn [Qnum Qden].
  split; [|now intros ->]. apply Z.mul_reg_r. discriminate.
Qed.

(** Every candidate is [m * 2^(t - 1074)] with [|m| <= 2^53]. *)
Lemma candidate_inv (d : Q) :
  candidate d ->
  exists m t, Z.abs m <= 2 ^ 53 /\ 0 <= t <= 2045 /\ (d == dyadic m t)%Q.
Proof.
  intros [(m & t & Hm & Ht & Hd)|[Hd|Hd]].
  - exists m, t. split; [lia|]. split; [exact Ht | exact Hd].
  - exists (2 ^ 53), 2045. split; [lia|]. split; [lia | exact Hd].
  - exists (- 2 ^ 53), 2045. split; [lia|]. split; [lia | exact Hd].
Qed.

(** The definitions do not tell equal fractions apart. *)
Lemma finite_wd (r r' : Q) : (r == r')%Q -> finite r -> finite r'.
Proof.
  intros E (m & t & Hm & Ht & Hd). exists m, t.
  split; [exact Hm|]. split; [exact Ht|].
  apply Qeq_trans with r; [apply Qeq_sym, E | exact Hd].
Qed.

Lemma dist_wd (q r r' : Q) : (r == r')%Q -> (Qabs (r - q) == Qabs (r' - q))%Q.
Proof. intros E. apply Qabs_wd. now apply Qplus_comp. Qed.

Lemma nearest_wd (q r r' : Q) : (r == r')%Q -> nearest q r -> nearest q r'.
Proof.
  intros E (Hc & Hn & He). split; [|split].
  - destruct Hc as [Hc|[Hc|Hc]].
    + left. now apply (finite_wd r).
    + right. left. apply Qeq_trans with r; [apply Qeq_sym, E | exact Hc].
    + right. right. apply Qeq_trans with r; [apply Qeq_sym, E | exact Hc].
  - intros d Hd.
    apply Qle_trans with (Qabs (r - q)); [|now apply Hn].
    apply Qle_lteq. right. apply Qeq_sym, dist_wd, E.
  - intros d Hd Hne Htie.
    destruct (He d Hd) as (m & t & H1 & H2 & H3 & H4).
    + intros H. apply Hne. apply Qeq_trans with r; assumption.
    + apply Qeq_trans with (Qabs (r' - q)); [exact Htie|].
      apply Qeq_sym, dist_wd, E.
    + exists m, t. split; [exact H1|]. split; [exact H2|]. split; [exact H3|].
      apply Qeq_trans with r; [apply Qeq_sym, E | exact H4].
Qed.

(** When the choice falls on [A] or beyond, no value up to [A] is
    nearer than [A]. *)
Lemma beyond_largest (A Kd X q : Z) :
  A <= Kd -> Z.abs X <= A ->
  (Z.abs (Kd - q) <= Z.abs (X - q) -> Z.abs (A - q) <= Z.abs (X - q))
  /\ (Z.abs (- Kd - q) <= Z.abs (X - q) ->
      Z.abs (- A - q) <= Z.abs (X - q)).
Proof. lia. Qed.

(** [number_value] meets the definition of the Number value. *)
Lemma number_value_correct (q : Q) : number_value_of q (JS.number_value q).
Proof.
  destruct q as [qn qd]. unfold JS.number_value. cbn [Qnum Qden].
  set (L := Z.pos JS.least). set (d := Z.pos qd).
  set (n := Z.abs qn * L).
  assert (HL : 0 < L) by reflexivity.
  assert (Hd : 0 < d) by reflexivity.
  assert (Hn : 0 <= n) by (unfold n; apply Z.mul_nonneg_nonneg; lia).
  destruct (nearest_double_spec n d Hn Hd) as (Ht & HM & Hnorm & Hnear).
  set (t := JS.ulp_exponent n d) in *.
  set (M := JS.round_half_even n (d * 2 ^ t)) in *.
  set (K := M * 2 ^ t) in *.
  assert (HT : 0 < 2 ^ t) by (apply Z.pow_pos_nonneg; lia).
  (* the choice, with the sign of [q] *)
  assert (Hsigned : forall m s,
             Z.abs m <= 2 ^ 53 -> 0 <= s ->
             Z.abs (Z.sgn qn * K * d - qn * L)
             <= Z.abs (m * 2 ^ s * d - qn * L)
             /\ (m * 2 ^ s <> Z.sgn qn * K ->
                 Z.abs (m * 2 ^ s * d - qn * L)
                 = Z.abs (Z.sgn qn * K * d - qn * L) ->
                 Z.even M = true)).
  { intros m s Hm Hs.
    destruct (Z.sgn_spec qn) as [(Hq & ->)|[(Hq & ->)|(Hq & ->)]].
    - destruct (Hnear m s Hm Hs) as [H1 H2].
      assert (En : n = qn * L) by (unfold n; rewrite Z.abs_eq by lia; ring).
      split; [lia|]. intros Hne Htie. apply H2; lia.
    - assert (En : n = 0) by (unfold n; rewrite <- Hq; reflexivity).
      destruct (Hnear 0 0 ltac:(lia) ltac:(lia)) as [H0 _].
      assert (HKd : K * d = 0) by lia.
      split; [lia|]. intros Hne Htie. exfalso. apply Hne.
      assert (Hmd : m * 2 ^ s * d = 0) by lia.
      apply Z.mul_eq_0 in Hmd. lia.
    - destruct (Hnear (- m) s ltac:(lia) Hs) as [H1 H2].
      assert (En : n = - (qn * L)) by (unfold n; rewrite Z.abs_neq by lia; ring).
      split; [lia|]. intros Hne Htie. apply H2; lia. }
  assert (HK0 : qn = 0 -> K = 0).
  { intros E.
    assert (En : n = 0) by (unfold n; rewrite E; reflexivity).
    destruct (Hnear 0 0 ltac:(lia) ltac:(lia)) as [H0 _].
    assert (HKd : K * d = 0) by lia.
    apply Z.mul_eq_0 in HKd. lia. }
  clear Hnear.
  assert (HA : 2 ^ 2098 = 2 ^ 53 * 2 ^ 2045)
    by (rewrite <- Z.pow_add_r by lia; reflexivity).
  assert (HB : 2 ^ 2098 = 2 ^ 52 * 2 ^ 2046)
    by (rewrite <- Z.pow_add_r by lia; reflexivity).
  assert (H53 : 2 ^ 53 = 2 * 2 ^ 52) by reflexivity.
  assert (H52 : 0 < 2 ^ 52) by reflexivity.
  assert (Hdist : forall (x : Q) k,
             (x == Qmake k JS.least)%Q ->
             (Qabs (x - (qn # qd)) == Qabs (Qmake k JS.least - (qn # qd)))%Q)
    by (intros x k E; now apply dist_wd).
  destruct (2 ^ 2098 <=? K) eqn:HK; [apply Z.leb_le in HK | apply Z.leb_gt in HK].
  - (* beyond the largest double *)
    cbn [number_value_of].
    assert (Hq0 : qn <> 0).
    { intros E. rewrite (HK0 E) in HK.
      assert (0 < 2 ^ 2098) by (apply Z.pow_pos_nonneg; lia). lia. }
    set (C := if qn <? 0 then - 2 ^ 53 else 2 ^ 53).
    assert (HC : C = Z.sgn qn * 2 ^ 53).
    { unfold C. destruct (Z.ltb_spec qn 0) as [Hq|Hq].
      - rewrite Z.sgn_neg by lia. ring.
      - rewrite Z.sgn_pos by lia. ring. }
    assert (HCabs : Z.abs C <= 2 ^ 53) by (unfold C; destruct (qn <? 0); lia).
    split; [|split].
    + unfold C. destruct (qn <? 0); [right; right | right; left];
        apply Qeq_refl.
    + intros d0 Hd0.
      destruct (candidate_inv d0 Hd0) as (m & s & Hm & Hs & E).
      apply Qle_trans with (Qabs (dyadic m s - (qn # qd))).
      2:{ apply Qle_lteq. right. apply Qeq_sym, (Hdist d0 _ E). }
      apply dyadic_dist_le. cbn [Qnum Qden]. fold L d.
      destruct (Hsigned m s Hm ltac:(lia)) as [H1 _].
      assert (HS : 0 < 2 ^ s <= 2 ^ 2045).
      { split; [apply Z.pow_pos_nonneg; lia|].
        apply Z.pow_le_mono_r; lia. }
      set (S := 2 ^ s) in *. set (B := 2 ^ 2045) in *. set (P := 2 ^ 53) in *.
      assert (HmS : Z.abs (m * S) <= P * B).
      { rewrite Z.abs_mul, (Z.abs_eq S) by lia.
        apply Z.le_trans with (P * S).
        - apply Z.mul_le_mono_nonneg_r; lia.
        - apply Z.mul_le_mono_nonneg_l; lia. }
      assert (HX : Z.abs (m * S * d) <= P * B * d).
      { rewrite Z.abs_mul, (Z.abs_eq d) by lia.
        apply Z.mul_le_mono_nonneg_r; lia. }
      assert (HKd : P * B * d <= K * d).
      { apply Z.mul_le_mono_nonneg_r; [lia|]. rewrite <- HA. exact HK. }
      destruct (beyond_largest (P * B * d) (K * d) (m * S * d) (qn * L)
                  HKd HX) as [Hpos Hneg].
      rewrite HC. clear - H1 Hpos Hneg Hq0.
      destruct (Z.sgn_spec qn) as [(Hq & Es)|[(Hq & Es)|(Hq & Es)]];
        rewrite Es in *.
      * replace (1 * P * B * d) with (P * B * d) by ring.
        apply Hpos. now replace (K * d) with (1 * K * d) by ring.
      * now elim Hq0.
      * replace (-1 * P * B * d) with (- (P * B * d)) by ring.
        apply Hneg. now replace (- (K * d)) with (-1 * K * d) by ring.
    + intros d0 Hd0 Hne Htie. exists C, 2045.
      split; [unfold C; destruct (qn <? 0); reflexivity|].
      split; [exact HCabs|]. split; [lia|]. apply Qeq_refl.
  - (* a finite double *)
    cbn [number_value_of].
    assert (Htb : t <= 2045 /\ (M = 2 ^ 53 -> t < 2045)).
    { assert (HKM : K = M * 2 ^ t) by reflexivity.
      split.
      - destruct Hnorm as [Hnorm|Hnorm]; [lia|].
        assert (H : 2 ^ t < 2 ^ 2046).
        { apply Z.mul_lt_mono_pos_l with (2 ^ 52); [exact H52|].
          rewrite <- HB. apply Z.le_lt_trans with K; [|exact HK].
          rewrite HKM. apply Z.mul_le_mono_nonneg_r; lia. }
        apply Z.pow_lt_mono_r_iff in H; lia.
      - intros E.
        assert (H : 2 ^ t < 2 ^ 2045).
        { apply Z.mul_lt_mono_pos_l with (2 ^ 53); [lia|].
          rewrite <- HA, <- E. exact HK. }
        apply Z.pow_lt_mono_r_iff in H; lia. }
    destruct Htb as [Ht45 Ht44].
    assert (Hsgn : Z.abs (Z.sgn qn) <= 1)
      by (destruct (Z.sgn_spec qn) as [(_ & ->)|[(_ & ->)|(_ & ->)]]; lia).
    assert (HsM : Z.abs (Z.sgn qn * M) <= M).
    { rewrite Z.abs_mul, (Z.abs_eq M) by lia.
      rewrite <- (Z.mul_1_l M) at 2. apply Z.mul_le_mono_nonneg_r; lia. }
    set (x := Qmake (Z.sgn qn * K) JS.least).
    assert (Hx : (x == Qred x)%Q) by (apply Qeq_sym, Qred_correct).
    assert (Hfin : finite x).
    { destruct (Z.ltb_spec M (2 ^ 53)) as [HM53|HM53].
      - exists (Z.sgn qn * M), t. split; [lia|]. split; [lia|].
        unfold x, dyadic. apply dyadic_eq. unfold K. ring.
      - assert (EM : M = 2 ^ 53) by lia.
        exists (Z.sgn qn * 2 ^ 52), (t + 1). split; [|split; [lia|]].
        + rewrite Z.abs_mul, (Z.abs_eq (2 ^ 52)) by lia.
          apply Z.le_lt_trans with (1 * 2 ^ 52); [|lia].
          apply Z.mul_le_mono_nonneg_r; lia.
        + unfold x, dyadic. apply dyadic_eq. unfold K.
          rewrite EM, Z.pow_add_r, H53 by lia. ring. }
    split; [now apply (finite_wd x)|].
    apply (nearest_wd _ x); [exact Hx|].
    split; [now left|]. split.
    + intros d0 Hd0.
      destruct (candidate_inv d0 Hd0) as (m & s & Hm & Hs & E).
      apply Qle_trans with (Qabs (dyadic m s - (qn # qd))).
      2:{ apply Qle_lteq. right. apply Qeq_sym, (Hdist d0 _ E). }
      apply dyadic_dist_le. cbn [Qnum Qden]. fold L d.
      now apply Hsigned; [|lia].
    + intros d0 Hd0 Hne Htie.
      destruct (candidate_inv d0 Hd0) as (m & s & Hm & Hs & E).
      assert (Heven : Z.even M = true).
      { destruct (Hsigned m s Hm ltac:(lia)) as [_ H2]. apply H2.
        - intros Ek. apply Hne.
          apply Qeq_trans with (dyadic m s); [exact E|].
          unfold x, dyadic. now apply dyadic_eq.
        - apply (proj1 (dyadic_dist_eq (m * 2 ^ s) (Z.sgn qn * K) (qn # qd))).
          apply Qeq_trans with (Qabs (d0 - (qn # qd))); [|exact Htie].
          apply Qeq_sym, (Hdist d0 _ E). }
      exists (Z.sgn qn * M), t.
      split; [rewrite Z.even_mul, Heven; apply orb_true_r|].
      split; [lia|]. split; [lia|].
      unfold x, dyadic. apply dyadic_eq. unfold K. ring.
Qed.

End NumberValueFacts.

Section ExactDoubles.
Import Double.

(** The candidate nearest to a candidate is that candidate. *)
Lemma nearest_exact (q c : Q) : candidate q -> nearest q c -> (c == q)%Q.
Proof.
  intros Hq (_ & Hn & _).
  pose proof (Hn q Hq) as Hle.
  assert (H0 : (Qabs (q - q) == 0)%Q).
  { apply Qabs_wd with (y := 0%Q). unfold Qminus. apply Qplus_opp_r. }
  assert (H1 : (Qabs (c - q) <= 0)%Q).
  { apply Qle_trans with (Qabs (q - q)); [exact Hle|].
    apply Qle_lteq. now right. }
  apply Qabs_Qle_condition in H1. lra.
Qed.

(** A value that is a double is its own Number value. *)
Lemma number_value_exact (q : Q) :
  finite q -> JS.number_value q = JS.Num (Qred q).
Proof.
  intros Hfin. pose proof (number_value_correct q) as H.
  assert (Hcand : candidate q) by now left.
  assert (Hred : forall x, Qred (Qred x) = Qred x)
    by (intros x; apply Qred_complete, Qred_correct).
  unfold JS.number_value in *.
  destruct (2 ^ 2098 <=? _).
  - exfalso. cbn [number_value_of] in H.
    apply (nearest_exact q _ Hcand) in H.
    destruct Hfin as (m & t & Hm & Ht & Eq).
    assert (E : ((if Qnum q <? 0 then - 2 ^ 53 else 2 ^ 53) * 2 ^ 2045
                 = m * 2 ^ t)).
    { apply dyadic_eq. apply Qeq_trans with q; assumption. }
    assert (HT : 0 < 2 ^ t <= 2 ^ 2045).
    { split; [apply Z.pow_pos_nonneg; lia|]. apply Z.pow_le_mono_r; lia. }
    assert (Hlt : Z.abs (m * 2 ^ t) < 2 ^ 53 * 2 ^ 2045).
    { rewrite Z.abs_mul, (Z.abs_eq (2 ^ t)) by lia.
      apply Z.lt_le_trans with (2 ^ 53 * 2 ^ t).
      - apply Z.mul_lt_mono_pos_r; lia.
      - apply Z.mul_le_mono_nonneg_l; lia. }
    rewrite <- E in Hlt. clear - Hlt.
    destruct (Qnum q <? 0);
      [rewrite Z.mul_opp_l, Z.abs_opp in Hlt|];
      rewrite Z.abs_eq in Hlt by (apply Z.mul_nonneg_nonneg; apply Z.pow_nonneg; lia);
      apply Z.lt_irrefl in Hlt; exact Hlt.
  - cbn [number_value_of] in H. destruct H as [_ H].
    apply (nearest_exact q _ Hcand) in H.
    f_equal. rewrite <- Hred. now apply Qred_complete.
Qed.

Lemma number_value_not_NaN (q : Q) : JS.isNaN (JS.number_value q) = false.
Proof. unfold JS.number_value. now destruct (2 ^ 2098 <=? _). Qed.

End ExactDoubles.

(* From here on the rounding is computed, not unfolded. *)
Opaque JS.number_value.

(** ** [parseFloat] on a decimal text *)

Example parseFloat_samples :
  JS.parseFloat "12.5" = JS.Num (25 # 2)
  /\ JS.parseFloat "  -0.75xyz" = JS.Num (-3 # 4)
  /\ JS.parseFloat "1e3" = JS.Num (1000 # 1)
  /\ JS.parseFloat "5.e-1" = JS.Num (1 # 2)
  /\ JS.parseFloat ".5" = JS.Num (1 # 2)
  /\ JS.parseFloat "." = JS.NaN
  /\ JS.parseFloat "undefined" = JS.NaN
  /\ JS.parseFloat "" = JS.NaN
  /\ JS.parseFloat "-Infinity" = JS.Infinity true
  /\ JS.parseFloat "7e" = JS.Num (7 # 1).
Proof.
  repeat match goal with |- _ /\ _ => split end; vm_compute; reflexivity.
Qed.

(** Texts that do not denote a double are rounded: to the nearest
    double, to the even one of two, to an infinity, to zero. *)
Example parseFloat_rounds :
  JS.parseFloat "0.1" = JS.Num (3602879701896397 # 36028797018963968)
  /\ JS.parseFloat "9007199254740993" = JS.Num (9007199254740992 # 1)
  /\ JS.parseFloat "9007199254740995" = JS.Num (9007199254740996 # 1)
  /\ JS.parseFloat "12.9716" = JS.Num (7302361615799891 # 562949953421312)
  /\ JS.parseFloat "1.7976931348623158e308"
     = JS.parseFloat "1.7976931348623157e308"
  /\ JS.parseFloat "1.7976931348623159e308" = JS.Infinity false
  /\ JS.parseFloat "-1e309" = JS.Infinity true
  /\ JS.parseFloat "5e-324" = JS.Num (1 # JS.least)
  /\ JS.parseFloat "3e-324" = JS.Num (1 # JS.least)
  /\ JS.parseFloat "2e-324" = JS.Num (0 # 1).
Proof.
  repeat match goal with |- _ /\ _ => split end; vm_compute; reflexivity.
Qed.

Section ParseFloatFacts.
Import Decimal.

Lemma Qpower_ten (k : nat) :
  (Qpower (inject_Z 10) (Z.of_nat k) == inject_Z (10 ^ Z.of_nat k))%Q.
Proof.
  induction k as [|k IH].
  - reflexivity.
  - rewrite Nat2Z.inj_succ, <- Z.add_1_r.
    rewrite Qpower_plus by discriminate.
    rewrite Z.pow_add_r by lia.
    rewrite inject_Z_mult, IH. reflexivity.
Qed.

(** The fraction [parseFloat] builds from a mantissa and the power of
    ten it is scaled by. *)
Lemma decimal_scaled (neg : bool) (m s : Z) :
  JS.decimal neg m s
  = Qred (if 0 <=? s then Qmake ((if neg then - m else m) * 10 ^ s) 1
          else Qmake (if neg then - m else m) (Z.to_pos (10 ^ (- s)))).
Proof.
  unfold JS.decimal. apply Qred_complete.
  set (n := if neg then - m else m).
  destruct (Z.leb_spec 0 s) as [Hs|Hs].
  - rewrite <- (Z2Nat.id s) by lia. rewrite Qpower_ten.
    unfold Qeq, Qmult, inject_Z. cbn [Qnum Qden]. lia.
  - replace s with (- Z.of_nat (Z.to_nat (- s))) at 1 by lia.
    rewrite Qpower_opp, Qpower_ten, Z2Nat.id by lia.
    assert (Hpos : 0 < 10 ^ (- s)) by (apply Z.pow_pos_nonneg; lia).
    destruct (10 ^ (- s)) as [|p|p]; try lia.
    unfold Qeq. simpl. lia.
Qed.

Lemma digit_char_facts (k : nat) :
  (k < 10)%nat ->
  JS.is_digit (digit_char k) = true
  /\ JS.digit_val (digit_char k) = Z.of_nat k
  /\ JS.is_white (digit_char k) = false
  /\ (forall rest, JS.strip_sign (String (digit_char k) rest)
                    = (false, String (digit_char k) rest))
  /\ (forall rest, String.prefix "Infinity" (String (digit_char k) rest) = false)
  /\ Ascii.eqb (digit_char k) "L" = false
  /\ Ascii.eqb (digit_char k) "," = false.
Proof.
  intros H.
  do 10 (destruct k as [|k];
         [repeat match goal with |- _ /\ _ => split end;
          intros; vm_compute; reflexivity|]).
  lia.
Qed.

Lemma digits_text_app (a b : list nat) :
  digits_text (a ++ b) = (digits_text a ++ digits_text b)%string.
Proof.
  induction a as [|k a IH]; cbn [digits_text app append];
    [reflexivity | now rewrite IH].
Qed.

Lemma digits_text_length (ds : list nat) :
  String.length (digits_text ds) = List.length ds.
Proof.
  induction ds as [|k ds IH]; cbn [digits_text String.length List.length];
    [reflexivity | now rewrite IH].
Qed.

(** A text of digits is read up to its end. *)
Lemma span_digits_text (ds : list nat) (rest : string) :
  digits ds ->
  JS.span_digits rest = (""%string, rest) ->
  JS.span_digits (digits_text ds ++ rest) = (digits_text ds, rest).
Proof.
  intros Hds Hrest.
  induction Hds as [|k ds Hk _ IH]; cbn [digits_text append JS.span_digits].
  - exact Hrest.
  - destruct (digit_char_facts k Hk) as (-> & _). now rewrite IH.
Qed.

Lemma digits_value_text (ds : list nat) :
  digits ds ->
  forall acc,
    JS.digits_value acc (digits_text ds)
    = fold_left (fun a k => 10 * a + Z.of_nat k) ds acc.
Proof.
  induction 1 as [|k ds Hk _ IH]; intros acc;
    cbn [digits_text JS.digits_value fold_left].
  - reflexivity.
  - destruct (digit_char_facts k Hk) as (_ & -> & _). apply IH.
Qed.

Lemma parseFloat_signed (input : string) (neg : bool) (s : string) :
  JS.strip_sign (JS.trim_start input) = (neg, s) ->
  JS.parseFloat input =
  if String.prefix "Infinity" s then JS.Infinity neg
  else
    let (ip, r1) := JS.span_digits s in
    let (fp, r2) :=
      match r1 with
      | String "." r => JS.span_digits r
      | _ => (EmptyString, r1)
      end in
    if (String.eqb ip "" && String.eqb fp "")%bool then JS.NaN
    else JS.number_value
           (JS.decimal neg (JS.digits_value 0 (ip ++ fp))
              (JS.exponent r2 - Z.of_nat (String.length fp))).
Proof. intros H. unfold JS.parseFloat. now rewrite H. Qed.

Lemma plain_digit (k : nat) : (k < 10)%nat -> plain (digit_char k).
Proof.
  intros Hk. destruct (digit_char_facts k Hk) as (_ & _ & Hw & Hs & HI & _).
  now repeat split.
Qed.

Lemma plain_point : plain ".".
Proof. repeat split. Qed.

(** The sign of the text is read off. *)
Lemma strip_mark (m : mark) (c : ascii) (rest : string) :
  plain c ->
  JS.strip_sign (JS.trim_start (mark_text m ++ String c rest))
  = (match m with Minus => true | _ => false end, String c rest).
Proof.
  intros (Hw & Hs & _).
  destruct m; cbn [mark_text append JS.trim_start].
  - rewrite Hw. apply Hs.
  - reflexivity.
  - reflexivity.
Qed.

(** The exponent part is read as the exponent it denotes; it starts
    with neither a digit nor a point. *)
Lemma exponent_text_read (x : literal) :
  well_formed x ->
  JS.exponent (exponent_text x) = exponent_number x
  /\ JS.span_digits (exponent_text x) = (""%string, exponent_text x)
  /\ match exponent_text x with
     | String "." r => JS.span_digits r
     | _ => (EmptyString, exponent_text x)
     end = (""%string, exponent_text x).
Proof.
  intros (_ & _ & _ & Hex). unfold exponent_text, exponent_number.
  destruct (exponent x) as [[cap mk ds]|]; [|repeat split].
  cbn [capital exp_mark exp_digits] in *. destruct Hex as [Hne Hds].
  split; [|destruct cap; split; reflexivity].
  assert (Hexp : forall c r,
             (Ascii.eqb c "e" || Ascii.eqb c "E")%bool = true ->
             JS.exponent (String c r)
             = let (neg, r') := JS.strip_sign r in
               let (d, _) := JS.span_digits r' in
               if String.eqb d "" then 0
               else if neg then - JS.digits_value 0 d
                    else JS.digits_value 0 d).
  { intros c r Hc. cbn [JS.exponent]. now rewrite Hc. }
  assert (Hspan : JS.span_digits (digits_text ds) = (digits_text ds, ""%string)).
  { rewrite <- (append_nil_r (digits_text ds)) at 1.
    now apply span_digits_text. }
  assert (Hval : JS.digits_value 0 (digits_text ds) = digits_number ds)
    by now apply digits_value_text.
  destruct ds as [|k ds]; [contradiction|].
  pose proof (Forall_inv Hds) as Hk.
  destruct (digit_char_facts k Hk) as (_ & _ & _ & Hs & _).
  assert (Hstrip : JS.strip_sign (mark_text mk ++ digits_text (k :: ds))
                   = (match mk with Minus => true | _ => false end,
                      digits_text (k :: ds))).
  { destruct mk; cbn [mark_text append digits_text JS.strip_sign];
      [apply Hs | reflexivity | reflexivity]. }
  replace (((if cap then "E" else "e")
            ++ mark_text mk ++ digits_text (k :: ds))%string)
    with (String (if cap then "E" else "e")%char
            (mark_text mk ++ digits_text (k :: ds)))
    by now destruct cap.
  rewrite Hexp by now destruct cap.
  rewrite Hstrip, Hspan, Hval.
  cbn [digits_text String.eqb].
  now destruct mk.
Qed.

(** [parseFloat] reads a decimal text as the Number value for the
    number it denotes. *)
Lemma parseFloat_render (x : literal) :
  well_formed x -> JS.parseFloat (render x) = JS.number_value (value x).
Proof.
  intros Hx. destruct (exponent_text_read x Hx) as (Hexp & Hespan & Hefrac).
  destruct Hx as (Hne & Hip & Hfp & _).
  unfold render, value, frac_digits in *.
  set (E := exponent_text x) in *. set (en := exponent_number x) in *.
  clearbody E en.
  destruct x as [sg ip fr ex]. cbn [sign int_digits fraction exponent] in *.
  set (fd := match fr with Some ds => ds | None => [] end) in *.
  set (P := match fr with
            | Some ds => ("." ++ digits_text ds)%string
            | None => ""%string
            end).
  (* the text after the sign starts with a digit or with the point *)
  assert (Hhead : exists c rest,
             (digits_text ip ++ P ++ E)%string = String c rest /\ plain c).
  { destruct ip as [|k ip].
    - destruct fr as [ds|]; [|destruct Hne as [Hne|Hne]; now elim Hne].
      exists "."%char, (digits_text ds ++ E)%string.
      split; [reflexivity | exact plain_point].
    - exists (digit_char k), (digits_text ip ++ P ++ E)%string.
      split; [reflexivity|]. apply plain_digit. exact (Forall_inv Hip). }
  destruct Hhead as (c & rest & Hbody & Hplain).
  rewrite Hbody.
  rewrite (parseFloat_signed _ _ _ (strip_mark sg c rest Hplain)).
  destruct Hplain as (_ & _ & HI). rewrite HI, <- Hbody.
  (* the digits before the point *)
  assert (HP : JS.span_digits (P ++ E) = (""%string, (P ++ E)%string)).
  { subst P. destruct fr as [ds|]; [reflexivity | exact Hespan]. }
  rewrite (span_digits_text ip _ Hip HP).
  (* the point and the digits after it *)
  assert (Hfrac : (match (P ++ E)%string with
                   | String "." r => JS.span_digits r
                   | _ => (EmptyString, (P ++ E)%string)
                   end) = (digits_text fd, E)).
  { subst P fd. destruct fr as [ds|].
    - cbn [append]. apply span_digits_text; assumption.
    - exact Hefrac. }
  rewrite Hfrac.
  assert (Hsome : (String.eqb (digits_text ip) "" && String.eqb (digits_text fd) "")%bool
                  = false).
  { destruct ip as [|k ip]; [|reflexivity].
    destruct fd as [|k fd]; [|reflexivity].
    destruct Hne as [Hne|Hne]; now elim Hne. }
  rewrite Hsome, Hexp.
  rewrite <- digits_text_app, digits_value_text, digits_text_length
    by (apply Forall_app; now split).
  rewrite decimal_scaled. fold (digits_number (ip ++ fd)).
  now destruct sg.
Qed.

End ParseFloatFacts.

(** ** Chat Point: [POST /api/order] *)

Section ChatPointOrder.
Import ChatPoint.

Variable castObjectId : string -> option Mongo.ObjectId.

Lemma incomplete_inv (r : order_body) :
  incomplete r = false ->
  exists u its a loc,
    rq_user r = Some u /\ rq_items r = Some its /\ its <> []
    /\ rq_address r = Some a /\ af_location a = Some loc
    /\ JS.truthy (uf_name u) = true /\ JS.truthy (uf_phone u) = true
    /\ JS.truthy (af_line1 a) = true.
Proof.
  unfold incomplete. intros H.
  repeat (apply orb_false_iff in H; destruct H as [H ?]).
  destruct (rq_user r) as [u|]; [|discriminate].
  destruct (rq_items r) as [its|]; [|discriminate].
  destruct (rq_address r) as [a|]; [|discriminate].
  destruct (af_location a) as [loc|] eqn:El; [|discriminate].
  exists u, its, a, loc.
  repeat split; try reflexivity; try assumption;
    try (now apply negb_false_iff).
  intros ->. discriminate.
Qed.

(** The handler once the field check has passed. *)
Lemma post_order_unfold (e : Mongo.env) (d : db) (r : order_body)
  (u : user_field) (its : list (string * Z)) (a : address_field)
  (loc : string) :
  incomplete r = false ->
  rq_user r = Some u -> rq_items r = Some its -> rq_address r = Some a ->
  af_location a = Some loc ->
  post_order castObjectId e d r =
  match create_order castObjectId e d r u its a loc with
  | Mongo.Ok saved =>
      (json (Some "Order placed successfully") (OrderPayload (fst saved)),
       snd saved)
  | Mongo.Throw _ => (fail 500 "Failed to save order", d)
  end.
Proof.
  intros Hi Hu Hits Ha Hl. unfold post_order.
  rewrite Hi, Hu, Hits, Ha, Hl. cbn [JS.toString].
  now destruct (create_order castObjectId e d r u its a loc).
Qed.

(** The order a request adds, when it adds one. *)
Lemma post_order_persisted (e : Mongo.env) (d : db) (r : order_body)
  (o : order) :
  orders (snd (post_order castObjectId e d r)) = (orders d ++ [o])%list ->
  exists u its a loc l uid,
    rq_user r = Some u /\ rq_items r = Some its /\ rq_address r = Some a
    /\ af_location a = Some loc
    /\ parse_location loc = Mongo.Ok l
    /\ cast_userId castObjectId (rq_userId r) = Mongo.Ok uid
    /\ valid_address a l = true
    /\ o = new_order e r u its a l uid.
Proof.
  intros H. destruct (incomplete r) eqn:Hi.
  - unfold post_order in H. rewrite Hi in H. simpl in H.
    now apply app_one_neq in H.
  - destruct (incomplete_inv r Hi)
      as (u & its & a & loc & Hu & Hits & _ & Ha & Hl & _).
    rewrite (post_order_unfold e d r u its a loc Hi Hu Hits Ha Hl) in H.
    unfold create_order in H.
    destruct (parse_location loc) as [l|] eqn:Hp;
      [|simpl in H; now apply app_one_neq in H].
    destruct (cast_userId castObjectId (rq_userId r)) as [uid|] eqn:Hc;
      [|simpl in H; now apply app_one_neq in H].
    simpl in H.
    destruct (valid_address a l) eqn:Hv;
      [|simpl in H; now apply app_one_neq in H].
    simpl in H. apply app_inv_head in H. injection H as <-.
    exists u, its, a, loc, l, uid. repeat split; assumption.
Qed.

(** A request the schema accepts is persisted and answered with 200. *)
Lemma post_order_accepted (e : Mongo.env) (d : db) (r : order_body)
  (u : user_field) (its : list (string * Z)) (a : address_field)
  (loc : string) (l : location) (uid : option Mongo.ObjectId) :
  incomplete r = false ->
  rq_user r = Some u -> rq_items r = Some its -> rq_address r = Some a ->
  af_location a = Some loc ->
  parse_location loc = Mongo.Ok l ->
  cast_userId castObjectId (rq_userId r) = Mongo.Ok uid ->
  valid_address a l = true ->
  post_order castObjectId e d r
  = (json (Some "Order placed successfully")
       (OrderPayload (new_order e r u its a l uid)),
     with_orders d (orders d ++ [new_order e r u its a l uid])).
Proof.
  intros Hi Hu Hits Ha Hl Hp Hc Hv.
  rewrite (post_order_unfold e d r u its a loc Hi Hu Hits Ha Hl).
  unfold create_order. rewrite Hp. simpl. rewrite Hc. simpl. now rewrite Hv.
Qed.

(** A request the parser or the schema rejects is answered with 500 and
    stores nothing. *)
Lemma post_order_thrown (e : Mongo.env) (d : db) (r : order_body)
  (u : user_field) (its : list (string * Z)) (a : address_field)
  (loc : string) (x : Mongo.exn) :
  incomplete r = false ->
  rq_user r = Some u -> rq_items r = Some its -> rq_address r = Some a ->
  af_location a = Some loc ->
  create_order castObjectId e d r u its a loc = Mongo.Throw x ->
  post_order castObjectId e d r = (fail 500 "Failed to save order", d).
Proof.
  intros Hi Hu Hits Ha Hl Hc.
  now rewrite (post_order_unfold e d r u its a loc Hi Hu Hits Ha Hl), Hc.
Qed.

End ChatPointOrder.

Section RenderFacts.
Import Decimal.

Lemma digits_text_no_char (c : ascii) (ds : list nat) :
  (forall k, (k < 10)%nat -> Ascii.eqb (digit_char k) c = false) ->
  digits ds ->
  JS.has_char c (digits_text ds) = false.
Proof.
  intros Hc. induction 1 as [|k ds Hk _ IH]; cbn [digits_text JS.has_char].
  - reflexivity.
  - now rewrite (Hc k Hk), IH.
Qed.

(** A character that is neither a digit nor one of [+-.eE] does not
    occur in a decimal text. *)
Lemma render_no_char (c : ascii) (x : literal) :
  well_formed x ->
  (forall k, (k < 10)%nat -> Ascii.eqb (digit_char k) c = false) ->
  JS.has_char c "+-.eE" = false ->
  JS.has_char c (render x) = false.
Proof.
  intros (_ & Hi & Hf & Hex) Hd Hc.
  cbn [JS.has_char] in Hc.
  repeat (apply orb_false_iff in Hc; destruct Hc as [? Hc]).
  unfold render, exponent_text, frac_digits in *.
  rewrite !has_char_app, (digits_text_no_char c _ Hd Hi).
  assert (Hm : forall m, JS.has_char c (mark_text m) = false).
  { intros [| |]; cbn [mark_text JS.has_char]; try reflexivity;
      now rewrite orb_false_r. }
  rewrite Hm. cbn [orb].
  apply orb_false_iff. split.
  - destruct (fraction x) as [ds|]; [|reflexivity].
    rewrite has_char_app, (digits_text_no_char c _ Hd Hf).
    cbn [JS.has_char]. now rewrite !orb_false_r.
  - destruct (exponent x) as [[cap mk ds]|]; [|reflexivity].
    cbn [capital exp_mark exp_digits] in *.
    rewrite !has_char_app, Hm, (digits_text_no_char c _ Hd (proj2 Hex)).
    destruct cap; cbn [JS.has_char]; now rewrite !orb_false_r.
Qed.

(** A decimal text holds neither an [L] nor a comma. *)
Lemma render_chars (x : literal) :
  well_formed x ->
  JS.has_char "L" (render x) = false /\ JS.has_char "," (render x) = false.
Proof.
  intros Hx. split; apply render_no_char; try exact Hx; try reflexivity;
    intros k Hk; apply (digit_char_facts k Hk).
Qed.

(** The location of two decimal texts parses to the two Number
    values. *)
Lemma parse_location_render (x y : literal) :
  well_formed x -> well_formed y ->
  ChatPoint.parse_location ("Lat: " ++ render x ++ ", Lng: " ++ render y)
  = Mongo.Ok {| ChatPoint.lat := JS.number_value (value x);
                ChatPoint.lng := JS.number_value (value y) |}.
Proof.
  intros Hx Hy.
  destruct (render_chars x Hx) as [HLx Hcx].
  destruct (render_chars y Hy) as [HLy _].
  rewrite (parse_location_shape _ _ HLx Hcx HLy).
  now rewrite (parseFloat_render x Hx), (parseFloat_render y Hy).
Qed.

End RenderFacts.

Section ChatPointOrderClaims.
Import ChatPoint.

Variable castObjectId : string -> option Mongo.ObjectId.

(** C2. For every Chat Point order request that passes the field check
    and whose [address.location] is the text "Lat: x, Lng: y", with [x]
    and [y] decimal literals (a sign, digits with or without a point, an
    exponent part), an order the request persists has as
    [address.location.lat] the Number value for the number [x] denotes,
    and as [address.location.lng] the Number value for the number [y]
    denotes: what [JS.number_value] computes, which is the double closest
    to the number (the one with the even significand of two equally
    close, an infinity beyond the largest double), and so the number
    itself whenever that is a double. And the request does
    persist an order, answered with 200, when the address has a name and
    a phone and the user id, if one is sent, casts. *)
Theorem order_location_coordinates (e : Mongo.env) (d : db) (r : order_body)
  (a : address_field) (x y : Decimal.literal) :
  incomplete r = false ->
  rq_address r = Some a ->
  af_location a
  = Some ("Lat: " ++ Decimal.render x ++ ", Lng: " ++ Decimal.render y)%string ->
  Decimal.well_formed x -> Decimal.well_formed y ->
  (forall o,
      orders (snd (post_order castObjectId e d r)) = (orders d ++ [o])%list ->
      lat (a_location (o_address o)) = JS.number_value (Decimal.value x)
      /\ lng (a_location (o_address o)) = JS.number_value (Decimal.value y)
      /\ Double.number_value_of (Decimal.value x)
           (lat (a_location (o_address o)))
      /\ Double.number_value_of (Decimal.value y)
           (lng (a_location (o_address o)))
      /\ (Double.finite (Decimal.value x) ->
          lat (a_location (o_address o)) = JS.Num (Decimal.value x))
      /\ (Double.finite (Decimal.value y) ->
          lng (a_location (o_address o)) = JS.Num (Decimal.value y)))
  /\ (JS.truthy (af_name a) = true -> JS.truthy (af_phone a) = true ->
      (exists uid, cast_userId castObjectId (rq_userId r) = Mongo.Ok uid) ->
      http_status (fst (post_order castObjectId e d r)) = 200
      /\ exists o,
          orders (snd (post_order castObjectId e d r)) = (orders d ++ [o])%list).
Proof.
  intros Hi Ha Hl Hx Hy.
  pose proof (parse_location_render x y Hx Hy) as Hp.
  split.
  - intros o Ho. apply post_order_persisted in Ho.
    destruct Ho as (u & its & a' & loc & l & uid
                    & _ & _ & Ha' & Hl' & Hp' & _ & _ & ->).
    rewrite Ha in Ha'. injection Ha' as <-.
    rewrite Hl in Hl'. injection Hl' as Hloc. subst loc.
    assert (E : Mongo.Ok l
                = Mongo.Ok {| lat := JS.number_value (Decimal.value x);
                              lng := JS.number_value (Decimal.value y) |})
      by (rewrite <- Hp'; exact Hp).
    injection E as ->. cbn [new_order o_address a_location lat lng].
    assert (Hred : forall z : Decimal.literal,
               Qred (Decimal.value z) = Decimal.value z)
      by (intros z; apply Qred_complete, Qred_correct).
    split; [reflexivity|]. split; [reflexivity|].
    split; [apply number_value_correct|].
    split; [apply number_value_correct|].
    split; intros Hfin; rewrite (number_value_exact _ Hfin), Hred; reflexivity.
  - intros Hn Hph (uid & Hc).
    destruct (incomplete_inv r Hi)
      as (u & its & a' & loc & Hu & Hits & _ & Ha' & Hl' & _ & _ & H1).
    rewrite Ha in Ha'. injection Ha' as <-.
    rewrite Hl in Hl'. injection Hl' as Hloc. subst loc.
    rewrite (post_order_accepted castObjectId e d r u its a _ _ uid
               Hi Hu Hits Ha Hl Hp Hc).
    + split; [reflexivity|]. eexists. reflexivity.
    + unfold valid_address. rewrite Hn, Hph, H1.
      cbn [lat lng]. now rewrite !number_value_not_NaN.
Qed.

Lemma get_of_key {A : Type} (o : list (string * A)) (k : string) :
  In k (JS.keys o) -> exists v, JS.get o k = Some v /\ In (k, v) o.
Proof.
  unfold JS.keys. induction o as [|[k' v'] o IH]; simpl; [contradiction|].
  intros H. destruct (String.eqb k' k) eqn:E.
  - apply String.eqb_eq in E. subst k'. exists v'. auto.
  - destruct H as [->|H]; [now rewrite String.eqb_refl in E|].
    destruct (IH H) as (v & Hg & Hin). exists v. auto.
Qed.

(** C8. Every line item of an order the Chat Point backend persists has
    price 100, whatever the client sent, and as quantity the value the
    submitted [items] mapping holds under the line item's name; the
    line items are the keys of that mapping, in order. *)
Theorem order_items_price (e : Mongo.env) (d : db) (r : order_body)
  (o : order) :
  orders (snd (post_order castObjectId e d r)) = (orders d ++ [o])%list ->
  exists its,
    rq_items r = Some its
    /\ map Mongo.name (items o) = JS.keys its
    /\ Forall (fun li =>
                 Mongo.price li = 100
                 /\ Mongo.quantity li = JS.get its (Mongo.name li)
                 /\ exists q, Mongo.quantity li = Some q
                              /\ In (Mongo.name li, q) its)
         (items o).
Proof.
  intros Ho. apply post_order_persisted in Ho.
  destruct Ho as (u & its & a & loc & l & uid & _ & Hits & _ & _ & _ & _ & _ & ->).
  exists its. split; [exact Hits|]. cbn [items new_order]. unfold orderItems.
  split.
  - rewrite map_map. simpl. now rewrite map_id.
  - apply Forall_forall. intros li Hli. apply in_map_iff in Hli.
    destruct Hli as (k & <- & Hk). cbn [Mongo.price Mongo.quantity Mongo.name].
    repeat split. destruct (get_of_key its k Hk) as (v & Hg & Hin).
    exists v. now split.
Qed.

(** C10, as the code has it. For a Chat Point order request that passes
    the field check: when the location text does not contain "Lat: " the
    handler throws a TypeError while parsing; when it contains "Lat: "
    but not "Lng: " parsing succeeds with [lng] = NaN and the schema
    rejects the order at [save]. In both cases the response is 500 and
    no order is persisted. *)
Theorem order_location_without_marker (e : Mongo.env) (d : db)
  (r : order_body) (a : address_field) (loc : string) :
  incomplete r = false ->
  rq_address r = Some a ->
  af_location a = Some loc ->
  (JS.includes loc "Lat: " = false ->
   parse_location loc = Mongo.Throw Mongo.TypeError
   /\ post_order castObjectId e d r = (fail 500 "Failed to save order", d))
  /\ (JS.includes loc "Lat: " = true -> JS.includes loc "Lng: " = false ->
      (exists l, parse_location loc = Mongo.Ok l /\ lng l = JS.NaN)
      /\ post_order castObjectId e d r = (fail 500 "Failed to save order", d)).
Proof.
  intros Hi Ha Hl.
  destruct (incomplete_inv r Hi)
    as (u & its & a' & loc' & Hu & Hits & _ & Ha' & Hl' & _).
  rewrite Ha in Ha'. injection Ha' as <-.
  rewrite Hl in Hl'. injection Hl' as <-.
  split.
  - intros Hno.
    assert (Hp : parse_location loc = Mongo.Throw Mongo.TypeError).
    { unfold parse_location, JS.split. cbn [String.eqb Ascii.eqb Bool.eqb].
      now rewrite (split_from_not_included "L" "at: " _ _ Hno). }
    split; [exact Hp|].
    apply (post_order_thrown castObjectId e d r u its a loc Mongo.TypeError);
      trivial.
    unfold create_order. now rewrite Hp.
  - intros Hlat Hlng.
    assert (Hp : exists l, parse_location loc = Mongo.Ok l /\ lng l = JS.NaN).
    { unfold parse_location, JS.split. cbn [String.eqb Ascii.eqb Bool.eqb].
      destruct (split_from_included "L" "at: " loc "" Hlat)
        as (s0 & s1 & rest & ->).
      rewrite (split_from_not_included "L" "ng: " _ _ Hlng).
      eexists. split; reflexivity. }
    split; [exact Hp|]. destruct Hp as (l & Hp & Hnan).
    assert (Hv : valid_address a l = false).
    { unfold valid_address. rewrite Hnan. simpl. now rewrite !andb_false_r. }
    destruct (cast_userId castObjectId (rq_userId r)) as [uid|x] eqn:Hc.
    + apply (post_order_thrown castObjectId e d r u its a loc
               Mongo.ValidationError); trivial.
      unfold create_order. rewrite Hp. simpl. rewrite Hc. simpl. now rewrite Hv.
    + apply (post_order_thrown castObjectId e d r u its a loc x); trivial.
      unfold create_order. rewrite Hp. simpl. now rewrite Hc.
Qed.

End ChatPointOrderClaims.

Example location_sample :
  ChatPoint.parse_location "Lat: 12.9716, Lng: -77.59"
  = Mongo.Ok {| ChatPoint.lat := JS.number_value (32429 # 2500);
                ChatPoint.lng := JS.number_value (-7759 # 100) |}.
Proof. vm_compute. reflexivity. Qed.

(** [12.9716] is no double and is stored as the double next to it;
    [-7.759E+1] is stored as the double next to -77.59. *)
Lemma order_location_coordinates_witness :
  Decimal.render Samples.lat1 = "12.9716"
  /\ Decimal.render Samples.lng2 = "-7.759E+1"
  /\ Decimal.value Samples.lat1 = 32429 # 2500
  /\ Decimal.value Samples.lng2 = -7759 # 100
  /\ ChatPoint.http_status
       (fst (ChatPoint.post_order Driver.castObjectId Samples.env1
               Samples.chat_db0
               (Samples.order_req "Lat: 12.9716, Lng: -7.759E+1" Samples.items1)))
     = 200
  /\ exists o,
      ChatPoint.orders
        (snd (ChatPoint.post_order Driver.castObjectId Samples.env1
                Samples.chat_db0
                (Samples.order_req "Lat: 12.9716, Lng: -7.759E+1" Samples.items1)))
      = (ChatPoint.orders Samples.chat_db0 ++ [o])%list
      /\ ChatPoint.lat (ChatPoint.a_location (ChatPoint.o_address o))
         = JS.Num (7302361615799891 # 562949953421312)
      /\ ChatPoint.lng (ChatPoint.a_location (ChatPoint.o_address o))
         = JS.Num (-2729955430372475 # 35184372088832)
      /\ Double.number_value_of (32429 # 2500)
           (ChatPoint.lat (ChatPoint.a_location (ChatPoint.o_address o)))
      /\ Double.number_value_of (-7759 # 100)
           (ChatPoint.lng (ChatPoint.a_location (ChatPoint.o_address o))).
Proof.
  assert (Hx : Decimal.well_formed Samples.lat1).
  { split; [left; discriminate|]. repeat split; repeat constructor; lia. }
  assert (Hy : Decimal.well_formed Samples.lng2).
  { split; [left; discriminate|]. split; [repeat constructor; lia|].
    split; [repeat constructor; lia|].
    split; [discriminate | repeat constructor; lia]. }
  destruct (order_location_coordinates Driver.castObjectId Samples.env1
              Samples.chat_db0
              (Samples.order_req "Lat: 12.9716, Lng: -7.759E+1" Samples.items1)
              (Samples.address1 "Lat: 12.9716, Lng: -7.759E+1")
              Samples.lat1 Samples.lng2 eq_refl eq_refl eq_refl Hx Hy)
    as [Hcoord Hsaved].
  split; [reflexivity|]. split; [reflexivity|].
  split; [vm_compute; reflexivity|]. split; [vm_compute; reflexivity|].
  destruct Hsaved as [H200 (o & Ho)];
    [reflexivity | reflexivity | exists (Some 170%N); reflexivity |].
  split; [exact H200|]. exists o. split; [exact Ho|].
  destruct (Hcoord o Ho) as (_ & _ & Hlat & Hlng & _ & _).
  assert (Eo : ChatPoint.orders Samples.chat_db0 = []) by reflexivity.
  rewrite Eo in Ho. cbn [app] in Ho.
  assert (Hlast : forall l (z : ChatPoint.order), l = [z] ->
                    nth_error l 0 = Some z) by (intros l z ->; reflexivity).
  apply Hlast in Ho. vm_compute in Ho. injection Ho as <-.
  split; [reflexivity|]. split; [reflexivity|].
  split; [exact Hlat | exact Hlng].
Defined.

Lemma order_items_price_witness :
  ChatPoint.orders
    (snd (ChatPoint.post_order Driver.castObjectId Samples.env1 Samples.chat_db0
            (Samples.order_req "Lat: 12.9716, Lng: -77.59" Samples.items1)))
  = (ChatPoint.orders Samples.chat_db0
     ++ [ChatPoint.new_order Samples.env1
           (Samples.order_req "Lat: 12.9716, Lng: -77.59" Samples.items1)
           {| ChatPoint.uf_name := Some "Asha";
              ChatPoint.uf_phone := Some "9000000001" |}
           Samples.items1
           (Samples.address1 "Lat: 12.9716, Lng: -77.59")
           {| ChatPoint.lat := JS.number_value (32429 # 2500);
              ChatPoint.lng := JS.number_value (-7759 # 100) |}
           (Some 170%N)])%list
  /\ exists its,
      ChatPoint.rq_items
        (Samples.order_req "Lat: 12.9716, Lng: -77.59" Samples.items1) = Some its
      /\ map Mongo.name
           (ChatPoint.orderItems Samples.items1) = JS.keys its
      /\ Forall (fun li =>
                   Mongo.price li = 100
                   /\ Mongo.quantity li = JS.get its (Mongo.name li)
                   /\ exists q, Mongo.quantity li = Some q
                                /\ In (Mongo.name li, q) its)
           (ChatPoint.orderItems Samples.items1).
Proof.
  assert (H : ChatPoint.orders
    (snd (ChatPoint.post_order Driver.castObjectId Samples.env1 Samples.chat_db0
            (Samples.order_req "Lat: 12.9716, Lng: -77.59" Samples.items1)))
  = (ChatPoint.orders Samples.chat_db0
     ++ [ChatPoint.new_order Samples.env1
           (Samples.order_req "Lat: 12.9716, Lng: -77.59" Samples.items1)
           {| ChatPoint.uf_name := Some "Asha";
              ChatPoint.uf_phone := Some "9000000001" |}
           Samples.items1
           (Samples.address1 "Lat: 12.9716, Lng: -77.59")
           {| ChatPoint.lat := JS.number_value (32429 # 2500);
              ChatPoint.lng := JS.number_value (-7759 # 100) |}
           (Some 170%N)])%list) by (vm_compute; reflexivity).
  split; [exact H|].
  exact (order_items_price Driver.castObjectId Samples.env1 Samples.chat_db0
           (Samples.order_req "Lat: 12.9716, Lng: -77.59" Samples.items1) _ H).
Defined.

Example order_items_sample :
  ChatPoint.orderItems Samples.items1
  = [ {| Mongo.name := "tea"; Mongo.price := 100; Mongo.quantity := Some 2 |};
      {| Mongo.name := "samosa"; Mongo.price := 100; Mongo.quantity := Some 5 |} ].
Proof. reflexivity. Qed.

(** C10, as worded, fails for a location with "Lat: " but without
    "Lng: ": parsing does not throw, it yields NaN for [lng]; the 500
    comes from [save]. *)
Lemma location_without_Lng_parses :
  JS.includes "Lat: 12.5" "Lat: " = true
  /\ JS.includes "Lat: 12.5" "Lng: " = false
  /\ ChatPoint.incomplete (Samples.order_req "Lat: 12.5" Samples.items1) = false
  /\ ChatPoint.parse_location "Lat: 12.5"
     = Mongo.Ok {| ChatPoint.lat := JS.Num (25 # 2); ChatPoint.lng := JS.NaN |}
  /\ ChatPoint.parse_location "Lat: 12.5" <> Mongo.Throw Mongo.TypeError
  /\ ChatPoint.post_order Driver.castObjectId Samples.env1 Samples.chat_db0
       (Samples.order_req "Lat: 12.5" Samples.items1)
     = (ChatPoint.fail 500 "Failed to save order", Samples.chat_db0).
Proof.
  repeat split; try (vm_compute; reflexivity). vm_compute. discriminate.
Qed.

Lemma order_location_without_marker_witness :
  ChatPoint.incomplete (Samples.order_req "12.5, 77.25" Samples.items1) = false
  /\ JS.includes "12.5, 77.25" "Lat: " = false
  /\ ChatPoint.parse_location "12.5, 77.25" = Mongo.Throw Mongo.TypeError
  /\ ChatPoint.post_order Driver.castObjectId Samples.env1 Samples.chat_db0
       (Samples.order_req "12.5, 77.25" Samples.items1)
     = (ChatPoint.fail 500 "Failed to save order", Samples.chat_db0).
Proof.
  split; [reflexivity|]. split; [reflexivity|].
  apply (order_location_without_marker Driver.castObjectId Samples.env1
           Samples.chat_db0 (Samples.order_req "12.5, 77.25" Samples.items1)
           (Samples.address1 "12.5, 77.25") "12.5, 77.25"
           eq_refl eq_refl eq_refl).
  reflexivity.
Defined.

(** ** Retrieval of orders *)

Section Retrieval.

Variable castObjectId : string -> option Mongo.ObjectId.

Lemma find_sorted_exact {A : Type} (key : A -> Z) (p : A -> bool)
  (P : A -> Prop) (c : list A) :
  (forall a, p a = true <-> P a) ->
  Permutation (Mongo.find_sorted p key c) (filter p c)
  /\ (forall a, In a (Mongo.find_sorted p key c) <-> In a c /\ P a)
  /\ Sorted (Mongo.desc key) (Mongo.find_sorted p key c).
Proof.
  intros HP. destruct (find_sorted_spec key p c) as [Hperm Hsort].
  split; [exact Hperm|]. split; [|exact Hsort].
  intros a. rewrite <- HP, <- filter_In. split; intros H.
  - now apply (Permutation_in _ Hperm).
  - now apply (Permutation_in _ (Permutation_sym Hperm)).
Qed.

(** C6. Each retrieval endpoint answers with exactly the stored orders
    that match, each as often as it is stored, by decreasing date:
    [delivery-orders] those whose status is "pending"; [my-orders] (Rent
    Easy) and [orders/:userId] (Chat Point) those whose [userId] is the
    requested user id. *)
Theorem order_retrieval_exact :
  (forall d, exists l,
      RentEasy.delivery_orders d = RentEasy.json None (RentEasy.OrdersPayload l)
      /\ Permutation l
           (filter (fun o => String.eqb (RentEasy.status o) "pending")
              (RentEasy.orders d))
      /\ (forall o, In o l <->
                    In o (RentEasy.orders d) /\ RentEasy.status o = "pending")
      /\ Sorted (Mongo.desc RentEasy.date) l)
  /\ (forall d header uid,
        JS.truthy header = true ->
        castObjectId (JS.toString header) = Some uid ->
        exists l,
          RentEasy.my_orders castObjectId d header
          = RentEasy.json None (RentEasy.OrdersPayload l)
          /\ Permutation l
               (filter (fun o => N.eqb (RentEasy.userId o) uid)
                  (RentEasy.orders d))
          /\ (forall o, In o l <->
                        In o (RentEasy.orders d) /\ RentEasy.userId o = uid)
          /\ Sorted (Mongo.desc RentEasy.date) l)
  /\ (forall d param uid,
        castObjectId param = Some uid ->
        exists l,
          ChatPoint.orders_by_user castObjectId d param
          = ChatPoint.json None (ChatPoint.OrdersPayload l)
          /\ Permutation l
               (filter (fun o => match ChatPoint.userId o with
                                 | Some v => N.eqb v uid
                                 | None => false
                                 end)
                  (ChatPoint.orders d))
          /\ (forall o, In o l <->
                        In o (ChatPoint.orders d)
                        /\ ChatPoint.userId o = Some uid)
          /\ Sorted (Mongo.desc ChatPoint.date) l).
Proof.
  split; [|split].
  - intros d. eexists. split; [reflexivity|].
    apply find_sorted_exact. intros o. apply String.eqb_eq.
  - intros d header uid Ht Hc. unfold RentEasy.my_orders.
    rewrite Ht, Hc. cbn [negb Mongo.try_catch].
    eexists. split; [reflexivity|].
    apply find_sorted_exact. intros o. apply N.eqb_eq.
  - intros d param uid Hc. unfold ChatPoint.orders_by_user.
    rewrite Hc. cbn [Mongo.try_catch].
    eexists. split; [reflexivity|].
    apply find_sorted_exact. intros o.
    destruct (ChatPoint.userId o) as [v|].
    + rewrite N.eqb_eq. split; [now intros -> | now intros [= ->]].
    + split; discriminate.
Qed.

End Retrieval.

Example my_orders_sample :
  exists o3 o1,
    RentEasy.my_orders Driver.castObjectId Samples.rent_db3 (Some Samples.uid_a)
    = RentEasy.json None (RentEasy.OrdersPayload [o3; o1])
    /\ RentEasy.date o3 = 3000 /\ RentEasy.date o1 = 1000
    /\ List.length (RentEasy.orders Samples.rent_db3) = 3%nat.
Proof. do 2 eexists. repeat split; vm_compute; reflexivity. Qed.

Lemma order_retrieval_exact_witness :
  JS.truthy (Some Samples.uid_a) = true
  /\ Driver.castObjectId (JS.toString (Some Samples.uid_a)) = Some 170%N
  /\ exists l,
      RentEasy.my_orders Driver.castObjectId Samples.rent_db3
        (Some Samples.uid_a)
      = RentEasy.json None (RentEasy.OrdersPayload l)
      /\ Permutation l
           (filter (fun o => N.eqb (RentEasy.userId o) 170%N)
              (RentEasy.orders Samples.rent_db3))
      /\ (forall o, In o l <->
                    In o (RentEasy.orders Samples.rent_db3)
                    /\ RentEasy.userId o = 170%N)
      /\ Sorted (Mongo.desc RentEasy.date) l.
Proof.
  split; [reflexivity|]. split; [reflexivity|].
  apply (proj1 (proj2 (order_retrieval_exact Driver.castObjectId)));
    reflexivity.
Defined.

(** ** The service worker *)

Section ServiceWorkerFacts.
Import ServiceWorker.

(** *** [cache.put] and [cache.addAll] *)

Lemma get_app {A : Type} (a b : list (string * A)) (k : string) :
  JS.get (a ++ b) k
  = match JS.get a k with Some v => Some v | None => JS.get b k end.
Proof.
  induction a as [|[k' v] a IH]; simpl; [reflexivity|].
  now destruct (String.eqb k' k).
Qed.

Lemma get_filter_other {A : Type} (c : list (string * A)) (u k : string) :
  u <> k ->
  JS.get (filter (fun kv => negb (String.eqb (fst kv) u)) c) k = JS.get c k.
Proof.
  intros Hne. induction c as [|[k' v] c IH]; simpl; [reflexivity|].
  destruct (String.eqb k' u) eqn:Eu; simpl.
  - apply String.eqb_eq in Eu. subst k'.
    destruct (String.eqb u k) eqn:Ek; [|exact IH].
    apply String.eqb_eq in Ek. contradiction.
  - now rewrite IH.
Qed.

Lemma get_filter_same {A : Type} (c : list (string * A)) (u : string) :
  JS.get (filter (fun kv => negb (String.eqb (fst kv) u)) c) u = None.
Proof.
  induction c as [|[k' v] c IH]; simpl; [reflexivity|].
  destruct (String.eqb k' u) eqn:Eu; simpl; [exact IH|].
  now rewrite Eu.
Qed.

(** After [put] the URL holds the new response, every other URL what it
    held before. *)
Lemma get_cache_put (c : cache) (u : string) (resp : response) (k : string) :
  JS.get (cache_put c u resp) k
  = if String.eqb u k then Some resp else JS.get c k.
Proof.
  unfold cache_put. rewrite get_app. simpl.
  destruct (String.eqb u k) eqn:E.
  - apply String.eqb_eq in E. subst k. now rewrite get_filter_same.
  - assert (u <> k) by (intros ->; now rewrite String.eqb_refl in E).
    rewrite get_filter_other by assumption. now destruct (JS.get c k).
Qed.

Lemma get_not_key {A : Type} (l : list (string * A)) (k : string) :
  ~ In k (JS.keys l) -> JS.get l k = None.
Proof.
  unfold JS.keys. induction l as [|[k' v] l IH]; simpl; [reflexivity|].
  intros H. destruct (String.eqb k' k) eqn:E.
  - apply String.eqb_eq in E. tauto.
  - apply IH. tauto.
Qed.

Lemma get_put_all (l : list (string * response)) :
  NoDup (JS.keys l) ->
  forall (c : cache) (k : string),
    JS.get (fold_left (fun acc kv => cache_put acc (fst kv) (snd kv)) l c) k
    = match JS.get l k with Some v => Some v | None => JS.get c k end.
Proof.
  unfold JS.keys. induction l as [|[u v] l IH]; intros Hnd c k; simpl.
  - reflexivity.
  - inversion Hnd as [|? ? Hu Hl]; subst.
    rewrite IH by exact Hl. rewrite get_cache_put.
    destruct (String.eqb u k) eqn:E; [|reflexivity].
    apply String.eqb_eq in E. subst k.
    now rewrite (get_not_key l u Hu).
Qed.

Lemma keys_cache_put (c : cache) (u : string) (resp : response) :
  JS.keys (cache_put c u resp)
  = (filter (fun k => negb (String.eqb k u)) (JS.keys c) ++ [u])%list.
Proof.
  unfold cache_put, JS.keys. rewrite map_app. simpl. f_equal.
  induction c as [|[k v] c IH]; simpl; [reflexivity|].
  destruct (String.eqb k u); simpl; now rewrite IH.
Qed.

(** The keys after a batch of [put]s: those not put again, in their
    order, then the batch in its order. *)
Lemma keys_put_all (l : list (string * response)) :
  NoDup (JS.keys l) ->
  forall c : cache,
    JS.keys (fold_left (fun acc kv => cache_put acc (fst kv) (snd kv)) l c)
    = (filter (fun k => negb (existsb (String.eqb k) (JS.keys l))) (JS.keys c)
       ++ JS.keys l)%list.
Proof.
  induction l as [|[u v] l IH]; intros Hnd c; simpl.
  - rewrite app_nil_r. induction (JS.keys c) as [|k m IHm]; simpl;
      [reflexivity | now rewrite <- IHm at 1].
  - inversion Hnd as [|? ? Hu Hl]; subst.
    rewrite IH by exact Hl. rewrite keys_cache_put, filter_app. simpl.
    assert (Hfresh : existsb (String.eqb u) (JS.keys l) = false).
    { destruct (existsb (String.eqb u) (JS.keys l)) eqn:E; [|reflexivity].
      apply existsb_exists in E. destruct E as (k & Hk & E).
      apply String.eqb_eq in E. subst k. contradiction. }
    rewrite Hfresh. simpl. rewrite <- app_assoc. simpl. f_equal.
    induction (JS.keys c) as [|k m IHm]; simpl; [reflexivity|].
    destruct (String.eqb k u) eqn:E; simpl.
    + exact IHm.
    + destruct (existsb (String.eqb k) (JS.keys l)); simpl;
        [exact IHm | now rewrite IHm].
Qed.

(** What [fetch_all] returns when every fetch succeeds. *)
Lemma fetch_all_spec (net : network) (urls : list string)
  (l : list (string * response)) :
  fetch_all net urls = Some l ->
  JS.keys l = urls
  /\ forall u resp, In (u, resp) l -> net (GET u) = Some resp /\ ok resp = true.
Proof.
  revert l. induction urls as [|u urls IH]; intros l; simpl.
  - intros [= <-]. split; [reflexivity | intros ? ? []].
  - destruct (net (GET u)) as [resp|] eqn:En; [|discriminate].
    destruct (ok resp) eqn:Eo; [|discriminate].
    destruct (fetch_all net urls) as [l'|]; [|discriminate].
    intros [= <-]. destruct (IH l' eq_refl) as [Hk Hin].
    split; [simpl; now rewrite Hk|].
    intros u' resp' [[= <- <-]|H]; [auto | now apply Hin].
Qed.

Lemma fetch_all_total (net : network) (urls : list string) :
  (exists l, fetch_all net urls = Some l)
  <-> forall u, In u urls -> exists resp, net (GET u) = Some resp /\ ok resp = true.
Proof.
  induction urls as [|u urls IH]; simpl.
  - split; [intros _ ? [] | eauto].
  - split.
    + intros (l & H) u' Hu'.
      destruct (net (GET u)) as [resp|] eqn:En; [|discriminate].
      destruct (ok resp) eqn:Eo; [|discriminate].
      destruct (fetch_all net urls) as [l'|]; [|discriminate].
      destruct Hu' as [<-|Hu']; [eauto|].
      apply IH; eauto.
    + intros H. destruct (H u (or_introl eq_refl)) as (resp & -> & ->).
      destruct (proj2 IH) as (l' & ->); [intros; apply H; now right|].
      eauto.
Qed.

(** *** The cache storage *)

Lemma get_set_cache (st : storage) (name : string) (c : cache) (k : string) :
  JS.get (set_cache st name c) k
  = if String.eqb name k
    then match JS.get st name with Some _ => Some c | None => None end
    else JS.get st k.
Proof.
  induction st as [|[n c0] st IH]; simpl.
  - now destruct (String.eqb name k).
  - destruct (String.eqb n name) eqn:En; simpl.
    + apply String.eqb_eq in En. subst n.
      now destruct (String.eqb name k).
    + rewrite IH. destruct (String.eqb name k) eqn:Ek; [|reflexivity].
      apply String.eqb_eq in Ek. subst k. now rewrite En.
Qed.

Lemma get_caches_open (st : storage) (name k : string) :
  JS.get (caches_open st name) k
  = if String.eqb name k
    then Some match JS.get st name with Some c => c | None => [] end
    else JS.get st k.
Proof.
  unfold caches_open. destruct (JS.get st name) as [c|] eqn:E.
  - destruct (String.eqb name k) eqn:Ek; [|reflexivity].
    apply String.eqb_eq in Ek. now subst k.
  - rewrite get_app. simpl.
    destruct (String.eqb name k) eqn:Ek.
    + apply String.eqb_eq in Ek. subst k. now rewrite E.
    + now destruct (JS.get st k).
Qed.

(** The [install] listener by cases. *)
Lemma on_install_unfold (net : network) (st : storage) :
  on_install net st =
  match fetch_all net urlsToCache with
  | Some l =>
      (true,
       set_cache (caches_open st CACHE_NAME) CACHE_NAME
         (fold_left (fun acc kv => cache_put acc (fst kv) (snd kv)) l
            match JS.get st CACHE_NAME with Some c => c | None => [] end))
  | None => (false, caches_open st CACHE_NAME)
  end.
Proof.
  unfold on_install, addAll. rewrite get_caches_open, String.eqb_refl.
  change (map without_fragment urlsToCache) with urlsToCache.
  now destruct (fetch_all net urlsToCache).
Qed.

Lemma urlsToCache_NoDup : NoDup urlsToCache.
Proof.
  unfold urlsToCache.
  repeat (constructor;
          [simpl; intros H;
           repeat (destruct H as [H|H]; [discriminate H|]); exact H|]).
  constructor.
Qed.

(** No listed path has a fragment. *)
Lemma listed_without_fragment (u : string) :
  In u urlsToCache -> without_fragment u = u.
Proof.
  unfold urlsToCache. simpl.
  intros H. repeat (destruct H as [<-|H]; [reflexivity|]). contradiction.
Qed.

Lemma caches_match_found (st : storage) (r : request) (resp : response) :
  caches_match st r = Some resp ->
  exists name c, In (name, c) st /\ cache_match c r = Some resp.
Proof.
  induction st as [|[n c] st IH]; simpl; [discriminate|].
  destruct (cache_match c r) as [resp'|] eqn:E.
  - intros [= <-]. exists n, c. auto.
  - intros H. destruct (IH H) as (n' & c' & Hin & Hm). exists n', c'. auto.
Qed.

Lemma caches_match_none (st : storage) (r : request) :
  caches_match st r = None
  <-> forall name c, In (name, c) st -> cache_match c r = None.
Proof.
  induction st as [|[n c] st IH]; simpl.
  - split; [intros _ ? ? [] | reflexivity].
  - destruct (cache_match c r) as [resp|] eqn:E.
    + split; [discriminate|]. intros H.
      rewrite (H n c (or_introl eq_refl)) in E. discriminate.
    + rewrite IH. split.
      * intros H n' c' [[= <- <-]|Hin]; [exact E | now apply (H n')].
      * intros H n' c' Hin. apply (H n'). now right.
Qed.

End ServiceWorkerFacts.

Section ServiceWorkerRuns.
Import ServiceWorker.

Lemma filter_listed (l : list string) :
  filter (fun k => negb (existsb (String.eqb k) l)) l = [].
Proof.
  assert (H : forall m, incl m l ->
            filter (fun k => negb (existsb (String.eqb k) l)) m = []).
  { induction m as [|k m IH]; intros Hm; simpl; [reflexivity|].
    assert (Hk : existsb (String.eqb k) l = true).
    { apply existsb_exists. exists k. split; [|apply String.eqb_refl].
      apply Hm. now left. }
    rewrite Hk. simpl. apply IH. intros x Hx. apply Hm. now right. }
  apply H, incl_refl.
Qed.

(** A successful install on the worker's own storage leaves the named
    cache with exactly the listed paths. *)
Lemma install_own_storage (net : network) (st : storage) :
  own_storage st ->
  own_storage (snd (on_install net st))
  /\ (fst (on_install net st) = true ->
      exists c, snd (on_install net st) = [(CACHE_NAME, c)]
                /\ JS.keys c = urlsToCache).
Proof.
  intros Hst. rewrite on_install_unfold.
  destruct (fetch_all net urlsToCache) as [l|] eqn:Hl.
  - destruct (fetch_all_spec net urlsToCache l Hl) as [Hk _].
    assert (Hnd : NoDup (JS.keys l)) by (rewrite Hk; apply urlsToCache_NoDup).
    assert (H : exists c,
               snd (true,
                    set_cache (caches_open st CACHE_NAME) CACHE_NAME
                      (fold_left
                         (fun acc kv => cache_put acc (fst kv) (snd kv)) l
                         match JS.get st CACHE_NAME with
                         | Some c => c
                         | None => []
                         end))
               = [(CACHE_NAME, c)] /\ JS.keys c = urlsToCache).
    { destruct Hst as [->|(c & -> & [Hc|Hc])].
      - eexists. split; [reflexivity|].
        rewrite keys_put_all by exact Hnd. simpl. exact Hk.
      - eexists. split; [reflexivity|].
        cbn [JS.get]. rewrite String.eqb_refl.
        rewrite keys_put_all by exact Hnd. rewrite Hc. simpl. exact Hk.
      - eexists. split; [reflexivity|].
        cbn [JS.get]. rewrite String.eqb_refl.
        rewrite keys_put_all by exact Hnd. rewrite Hc, Hk, filter_listed.
        reflexivity. }
    split; [|intros _; exact H].
    destruct H as (c & Hc & Hkeys). right. exists c. auto.
  - split; [|discriminate]. simpl.
    destruct Hst as [->|(c & -> & Hc)].
    + right. exists []. auto.
    + right. exists c. auto.
Qed.

Lemma run_own_storage (evs : list event) (st : storage) :
  own_storage st -> own_storage (run st evs).
Proof.
  revert st. unfold run.
  induction evs as [|ev evs IH]; intros st Hst; simpl; [exact Hst|].
  apply IH. destruct ev as [net|net r]; simpl.
  - now apply install_own_storage.
  - unfold on_fetch. now destruct (caches_match st r).
Qed.

End ServiceWorkerRuns.

Section ServiceWorkerClaims.
Import ServiceWorker.

Lemma cached_after_install (net : network) (st : storage)
  (l : list (string * response)) (name u : string) :
  fetch_all net urlsToCache = Some l ->
  cached (snd (on_install net st)) name u
  = if String.eqb CACHE_NAME name
    then match JS.get l u with
         | Some resp => Some resp
         | None => cached st CACHE_NAME u
         end
    else cached st name u.
Proof.
  intros Hl. rewrite on_install_unfold, Hl. unfold cached. simpl snd.
  rewrite get_set_cache, !get_caches_open, String.eqb_refl.
  destruct (String.eqb CACHE_NAME name) eqn:E; [|reflexivity].
  destruct (fetch_all_spec net urlsToCache l Hl) as [Hk _].
  rewrite get_put_all by (rewrite Hk; apply urlsToCache_NoDup).
  destruct (JS.get l u); [reflexivity|].
  now destruct (JS.get st CACHE_NAME).
Qed.

(** C7, as the code has it.
    Fetch: the cache storage is never changed; when a cache holds a
    response matching the request, a cached response is what the worker
    answers with (the first match, in the order of the caches);
    when none does, the answer is the network's.
    Install: it succeeds exactly when the network serves every listed
    path with an ok response. When it succeeds, the named cache holds
    under each listed path the response just fetched, replacing what was
    stored under that path before; every entry under another path and
    every other cache is as before; and on a storage that had no cache
    of that name, as after any run of the worker from an empty storage,
    the paths of the named cache are exactly the literal list. When it
    fails, every stored response is as before. *)
Theorem service_worker_cache :
  (forall net st r,
      snd (on_fetch net st r) = st
      /\ (forall resp, caches_match st r = Some resp ->
                       fst (on_fetch net st r) = Some resp)
      /\ (forall name c resp,
            In (name, c) st -> cache_match c r = Some resp ->
            exists name' c' resp',
              In (name', c') st /\ cache_match c' r = Some resp'
              /\ fst (on_fetch net st r) = Some resp')
      /\ ((forall name c, In (name, c) st -> cache_match c r = None) ->
          fst (on_fetch net st r) = net r))
  /\ (forall net st,
        (fst (on_install net st) = true <->
         forall u, In u urlsToCache ->
                   exists resp, net (GET u) = Some resp /\ ok resp = true)
        /\ (fst (on_install net st) = true ->
            (forall u, In u urlsToCache ->
                       cached (snd (on_install net st)) CACHE_NAME u
                       = net (GET u))
            /\ (forall u, ~ In u urlsToCache ->
                          cached (snd (on_install net st)) CACHE_NAME u
                          = cached st CACHE_NAME u)
            /\ (forall name, name <> CACHE_NAME ->
                             JS.get (snd (on_install net st)) name
                             = JS.get st name)
            /\ (JS.get st CACHE_NAME = None ->
                exists c, JS.get (snd (on_install net st)) CACHE_NAME = Some c
                          /\ JS.keys c = urlsToCache))
        /\ (fst (on_install net st) = false ->
            forall name u,
              cached (snd (on_install net st)) name u = cached st name u))
  /\ (forall evs net,
        fst (on_install net (run [] evs)) = true ->
        exists c, snd (on_install net (run [] evs)) = [(CACHE_NAME, c)]
                  /\ JS.keys c = urlsToCache).
Proof.
  split; [|split].
  - intros net st r. unfold on_fetch.
    destruct (caches_match st r) as [resp|] eqn:E; simpl.
    + split; [reflexivity|]. split; [now intros ? [= <-]|]. split.
      * intros _ _ _ _ _. destruct (caches_match_found st r resp E)
          as (n & c & Hin & Hm). exists n, c, resp. auto.
      * intros H. apply caches_match_none in H. congruence.
    + split; [reflexivity|]. split; [discriminate|]. split; [|reflexivity].
      intros name c resp Hin Hm.
      rewrite (proj1 (caches_match_none st r) E name c Hin) in Hm.
      discriminate.
  - intros net st. split; [|split].
    + rewrite <- fetch_all_total, on_install_unfold.
      destruct (fetch_all net urlsToCache) as [l|]; simpl.
      * split; eauto.
      * split; [discriminate | intros (l & H); discriminate].
    + intros Hok.
      destruct (fetch_all net urlsToCache) as [l|] eqn:Hl;
        [|rewrite on_install_unfold, Hl in Hok; discriminate].
      destruct (fetch_all_spec net urlsToCache l Hl) as [Hk Hnet].
      split; [|split; [|split]].
      * intros u Hu. rewrite (cached_after_install net st l _ u Hl).
        rewrite String.eqb_refl. rewrite <- Hk in Hu.
        destruct (get_of_key l u Hu) as (resp & -> & Hin).
        symmetry. now apply Hnet.
      * intros u Hu. rewrite (cached_after_install net st l _ u Hl).
        rewrite String.eqb_refl, get_not_key; [reflexivity|].
        now rewrite Hk.
      * intros name Hne. rewrite on_install_unfold, Hl. simpl snd.
        rewrite get_set_cache.
        destruct (String.eqb CACHE_NAME name) eqn:E.
        -- apply String.eqb_eq in E. congruence.
        -- now rewrite get_caches_open, E.
      * intros Hfresh. rewrite on_install_unfold, Hl. simpl snd.
        rewrite get_set_cache, get_caches_open, String.eqb_refl, Hfresh.
        eexists. split; [reflexivity|].
        rewrite keys_put_all by (rewrite Hk; apply urlsToCache_NoDup).
        simpl. exact Hk.
    + intros Hfail name u. rewrite on_install_unfold in *.
      destruct (fetch_all net urlsToCache) as [l|]; [discriminate|].
      unfold cached. simpl snd. rewrite get_caches_open.
      destruct (String.eqb CACHE_NAME name) eqn:E; [|reflexivity].
      apply String.eqb_eq in E. subst name.
      now destruct (JS.get st CACHE_NAME).
  - intros evs net. apply install_own_storage, run_own_storage. now left.
Qed.

End ServiceWorkerClaims.

(** C7, as worded, fails: a second install replaces the response that
    the first one stored under a listed path. *)
Lemma install_replaces_cached_entry :
  ServiceWorker.cached Samples.installed1 ServiceWorker.CACHE_NAME "/"
  = Some {| ServiceWorker.ok := true; ServiceWorker.content := "v1:/" |}
  /\ ServiceWorker.cached
       (snd (ServiceWorker.on_install (Samples.net_version "v2:")
               Samples.installed1))
       ServiceWorker.CACHE_NAME "/"
     = Some {| ServiceWorker.ok := true; ServiceWorker.content := "v2:/" |}
  /\ fst (ServiceWorker.on_fetch (Samples.net_version "v3:")
            (snd (ServiceWorker.on_install (Samples.net_version "v2:")
                    Samples.installed1))
            (ServiceWorker.GET "/"))
     = Some {| ServiceWorker.ok := true; ServiceWorker.content := "v2:/" |}
  /\ {| ServiceWorker.ok := true; ServiceWorker.content := "v1:/" |}
     <> {| ServiceWorker.ok := true; ServiceWorker.content := "v2:/" |}.
Proof. repeat split; try (vm_compute; reflexivity). discriminate. Qed.

Lemma service_worker_cache_witness :
  fst (ServiceWorker.on_install (Samples.net_version "v1:") []) = true
  /\ (exists c,
        JS.get (snd (ServiceWorker.on_install (Samples.net_version "v1:") []))
          ServiceWorker.CACHE_NAME = Some c
        /\ JS.keys c = ServiceWorker.urlsToCache)
  /\ fst (ServiceWorker.on_fetch (Samples.net_version "v2:")
            Samples.installed1 (ServiceWorker.GET "/cart.html"))
     = Some {| ServiceWorker.ok := true;
               ServiceWorker.content := "v1:/cart.html" |}.
Proof.
  destruct service_worker_cache as (Hfetch & Hinstall & _).
  destruct (Hinstall (Samples.net_version "v1:") []) as (_ & Hok & _).
  split; [reflexivity|]. split.
  - apply Hok; reflexivity.
  - apply Hfetch. reflexivity.
Defined.

(* ================================================================== *)
(** * Part III: further properties of the handlers *)
(* ================================================================== *)

(** ** The document store, continued *)

Section MongoMore.
Context {A : Type}.

Lemma find_app_none (p : A -> bool) (l m : list A) :
  find p l = None -> find p (l ++ m) = find p m.
Proof.
  induction l as [|x l IH]; simpl; [reflexivity|].
  destruct (p x); [discriminate | exact IH].
Qed.

Lemma find_app (p : A -> bool) (l m : list A) :
  find p (l ++ m)
  = match find p l with Some x => Some x | None => find p m end.
Proof.
  induction l as [|x l IH]; simpl; [reflexivity|].
  now destruct (p x).
Qed.

Lemma Forall2_refl_eq (l : list A) (R : A -> A -> Prop) :
  (forall a, R a a) -> Forall2 R l l.
Proof. intros H. induction l; constructor; auto. Qed.

(** [findByIdAndUpdate] position by position. *)
Lemma findByIdAndUpdate_pointwise (id_of : A -> Mongo.ObjectId)
  (upd : A -> A) (id : Mongo.ObjectId) (c : list A) :
  Forall2 (fun a b => b = a \/ (id_of a = id /\ b = upd a)) c
    (snd (Mongo.findByIdAndUpdate id_of upd id c)).
Proof.
  induction c as [|d c IH]; simpl; [constructor|].
  destruct (N.eqb (id_of d) id) eqn:E; simpl.
  - constructor.
    + right. now apply N.eqb_eq in E.
    + apply Forall2_refl_eq. now left.
  - destruct (Mongo.findByIdAndUpdate id_of upd id c) as [r c'].
    simpl in *. constructor; [now left | exact IH].
Qed.

Lemma findByIdAndUpdate_found (id_of : A -> Mongo.ObjectId)
  (upd : A -> A) (id : Mongo.ObjectId) (c : list A) :
  match fst (Mongo.findByIdAndUpdate id_of upd id c) with
  | None => (forall d, In d c -> id_of d <> id)
            /\ snd (Mongo.findByIdAndUpdate id_of upd id c) = c
  | Some b => exists a, In a c /\ id_of a = id /\ b = upd a
                        /\ In b (snd (Mongo.findByIdAndUpdate id_of upd id c))
  end.
Proof.
  induction c as [|d c IH]; simpl.
  - split; [intros ? []|reflexivity].
  - destruct (N.eqb (id_of d) id) eqn:E; simpl.
    + apply N.eqb_eq in E. exists d. simpl. auto.
    + destruct (Mongo.findByIdAndUpdate id_of upd id c) as [[b|] c'];
        simpl in *.
      * destruct IH as (a & Hin & Hid & Hb & Hin'). exists a. auto.
      * destruct IH as [Hnone ->]. split; [|reflexivity].
        intros x [<-|Hx]; [|now apply Hnone].
        intros H. apply N.eqb_neq in E. contradiction.
Qed.

(** An update that absorbs an earlier one: updating with [upd] and then
    with [upd'] is updating with [upd'] alone. *)
Lemma findByIdAndUpdate_twice (id_of : A -> Mongo.ObjectId)
  (upd upd' : A -> A) (id : Mongo.ObjectId) (c : list A) :
  (forall a, id_of (upd a) = id_of a) -> (forall a, upd' (upd a) = upd' a) ->
  Mongo.findByIdAndUpdate id_of upd' id
    (snd (Mongo.findByIdAndUpdate id_of upd id c))
  = Mongo.findByIdAndUpdate id_of upd' id c.
Proof.
  intros Hid Hupd. induction c as [|d c IH]; simpl; [reflexivity|].
  destruct (N.eqb (id_of d) id) eqn:E; simpl.
  - now rewrite Hid, E, Hupd.
  - destruct (Mongo.findByIdAndUpdate id_of upd id c) as [r c'] eqn:F.
    simpl in *. now rewrite E, IH.
Qed.

(** Sorting two lists that agree, position by position, on the key and
    on the filter gives lists that agree position by position. *)
Lemma insert_desc_Forall2 (R : A -> A -> Prop) (key : A -> Z) (x x' : A)
  (l l' : list A) :
  (forall a b, R a b -> key a = key b) ->
  R x x' -> Forall2 R l l' ->
  Forall2 R (Mongo.insert_desc key x l) (Mongo.insert_desc key x' l').
Proof.
  intros Hkey Hx H. induction H as [|y y' l l' Hy Hl IH]; simpl.
  - repeat constructor. exact Hx.
  - rewrite <- (Hkey _ _ Hy), <- (Hkey _ _ Hx).
    destruct (key y <=? key x); repeat constructor; auto.
Qed.

Lemma find_sorted_Forall2 (R : A -> A -> Prop) (p : A -> bool)
  (key : A -> Z) (l l' : list A) :
  (forall a b, R a b -> key a = key b /\ p a = p b) ->
  Forall2 R l l' ->
  Forall2 R (Mongo.find_sorted p key l) (Mongo.find_sorted p key l').
Proof.
  intros HR H. unfold Mongo.find_sorted, Mongo.sort_desc.
  induction H as [|y y' l l' Hy Hl IH]; simpl; [constructor|].
  destruct (HR _ _ Hy) as [_ Hp]. rewrite <- Hp.
  destruct (p y); simpl; [|exact IH].
  apply insert_desc_Forall2; auto. intros a b Hab. now apply HR.
Qed.

Lemma filter_all (l : list A) : filter (fun _ => true) l = l.
Proof. induction l as [|a l IH]; simpl; [reflexivity | now rewrite IH]. Qed.

Lemma NoDup_snoc (l : list A) (x : A) :
  NoDup l -> ~ In x l -> NoDup (l ++ [x]).
Proof.
  induction 1 as [|y l Hy Hl IH]; intros Hx; simpl.
  - constructor; [intros []|constructor].
  - constructor.
    + rewrite in_app_iff. intros [H|[H|[]]]; [contradiction|].
      subst y. apply Hx. now left.
    + apply IH. intros H. apply Hx. now right.
Qed.

End MongoMore.

(** ** Rent Easy: orders, continued *)

Section RentEasyMore.
Import RentEasy CartSpec Props.

Variable castObjectId : string -> option Mongo.ObjectId.

(** [update-order-status] by cases. *)
Lemma update_order_status_unfold (e : Mongo.env) (d : db)
  (r : update_status_body) :
  update_order_status castObjectId e d r =
  if (JS.truthy (us_orderId r) && allowed_status (us_status r))%bool then
    match castObjectId (JS.toString (us_orderId r)) with
    | None => (fail 500 "Server error", d)
    | Some id =>
        match Mongo.findByIdAndUpdate o_id
                (set_status (JS.toString (us_status r)) (Mongo.now e))
                id (orders d) with
        | (None, _) => (fail 404 "Order not found", d)
        | (Some o, os) => (json None (OrderPayload o), with_orders d os)
        end
    end
  else (fail 400 "Invalid data", d).
Proof.
  unfold update_order_status.
  destruct (JS.truthy (us_orderId r)), (allowed_status (us_status r));
    try reflexivity.
  cbn [negb orb andb].
  destruct (castObjectId (JS.toString (us_orderId r))) as [id|];
    [|reflexivity].
  now destruct (Mongo.findByIdAndUpdate _ _ _ _) as [[o|] os].
Qed.

Lemma same_but_status_refl (o : order) : same_but_status o o.
Proof. repeat split. Qed.

Lemma same_but_status_set (s : string) (t : Z) (o : order) :
  same_but_status o (set_status s t o).
Proof. repeat split. Qed.

(** What a status update leaves alone, position by position. *)
Lemma update_order_status_pointwise (e : Mongo.env) (d : db)
  (r : update_status_body) :
  users (snd (update_order_status castObjectId e d r)) = users d
  /\ Forall2 same_but_status (orders d)
       (orders (snd (update_order_status castObjectId e d r))).
Proof.
  rewrite update_order_status_unfold.
  assert (Hsame : Forall2 same_but_status (orders d) (orders d))
    by (apply Forall2_refl_eq, same_but_status_refl).
  destruct (JS.truthy (us_orderId r) && allowed_status (us_status r))%bool;
    [|now split].
  destruct (castObjectId (JS.toString (us_orderId r))) as [id|]; [|now split].
  pose proof (findByIdAndUpdate_pointwise o_id
                (set_status (JS.toString (us_status r)) (Mongo.now e))
                id (orders d)) as Hp.
  destruct (Mongo.findByIdAndUpdate _ _ _ _) as [[o|] os]; [|now split].
  simpl in *. split; [reflexivity|].
  eapply Forall2_impl; [|exact Hp].
  intros a b [->|[_ ->]];
    [apply same_but_status_refl | apply same_but_status_set].
Qed.

Lemma Forall2_same_ids (l l' : list order) :
  Forall2 same_but_status l l' -> map o_id l' = map o_id l.
Proof.
  induction 1 as [|a b l l' Hab _ IH]; simpl; [reflexivity|].
  destruct Hab as (-> & _). now rewrite IH.
Qed.

(** X1. [save-order] answers 200 exactly when the body is complete, the
    cart has an entry with [qty > 0] and [userId] casts to an ObjectId,
    and then the response carries the [_id] the driver gave and exactly
    one order, with status "pending", is appended while the users are
    untouched; it answers 500 exactly when only the cast fails; whenever
    the answer is not 200 the database is unchanged. *)
Theorem save_order_outcome (e : Mongo.env) (d : db) (r : save_order_body) :
  (http_status (fst (save_order castObjectId e d r)) = 200 <->
   exists c uid,
     so_cart r = Some c /\ so_fields_present r = true
     /\ line_items c <> []
     /\ castObjectId (JS.toString (so_userId r)) = Some uid)
  /\ (http_status (fst (save_order castObjectId e d r)) = 500 <->
      exists c,
        so_cart r = Some c /\ so_fields_present r = true
        /\ line_items c <> []
        /\ castObjectId (JS.toString (so_userId r)) = None)
  /\ (http_status (fst (save_order castObjectId e d r)) = 200 ->
      body (fst (save_order castObjectId e d r))
      = OrderIdPayload (Mongo.newId e)
      /\ users (snd (save_order castObjectId e d r)) = users d
      /\ exists o,
          orders (snd (save_order castObjectId e d r)) = (orders d ++ [o])%list
          /\ o_id o = Mongo.newId e /\ status o = "pending")
  /\ (http_status (fst (save_order castObjectId e d r)) <> 200 ->
      snd (save_order castObjectId e d r) = d).
Proof.
  rewrite save_order_unfold.
  destruct (so_cart r) as [c|]; cbn [fst snd http_status fail].
  2:{ split; [|split; [|split]]; try (intros; congruence).
      - split; [discriminate | intros (c & uid & H & _); discriminate].
      - split; [discriminate | intros (c & H & _); discriminate]. }
  destruct (so_fields_present r) eqn:F; cbn [negb fst snd http_status fail].
  2:{ split; [|split; [|split]]; try (intros; congruence).
      - split; [discriminate | intros (c' & uid & _ & H & _); discriminate].
      - split; [discriminate | intros (c' & _ & H & _); discriminate]. }
  destruct (line_items c) as [|i its] eqn:L; cbn [fst snd http_status fail].
  { split; [|split; [|split]]; try (intros; congruence).
    - split; [discriminate|].
      intros (c' & uid & Hc & _ & H & _). congruence.
    - split; [discriminate|].
      intros (c' & Hc & _ & H & _). congruence. }
  destruct (castObjectId (JS.toString (so_userId r))) as [uid|] eqn:C;
    cbn [fst snd http_status fail json body].
  - split; [|split; [|split]]; try (intros; congruence).
    + split; [|reflexivity]. intros _. exists c, uid.
      rewrite L. repeat split; congruence.
    + split; [discriminate | intros (c' & _ & _ & _ & H); discriminate].
    + intros _. split; [reflexivity|]. split; [reflexivity|].
      eexists. split; [reflexivity|]. split; reflexivity.
  - split; [|split; [|split]]; try (intros; congruence).
    + split; [discriminate|].
      intros (c' & uid & _ & _ & _ & H). discriminate.
    + split; [|reflexivity]. intros _. exists c.
      rewrite L. repeat split; congruence.
Qed.

(** X2. An order [save-order] has just stored is listed both by
    [delivery-orders] and by [my-orders] called with the [userId] of the
    request; [my-orders] with a header that casts to another user's id
    does not list it. *)
Theorem saved_order_is_listed (e : Mongo.env) (d : db) (r : save_order_body)
  (o : order) :
  orders (snd (save_order castObjectId e d r)) = (orders d ++ [o])%list ->
  In o (listed (delivery_orders (snd (save_order castObjectId e d r))))
  /\ In o (listed (my_orders castObjectId (snd (save_order castObjectId e d r))
                     (so_userId r)))
  /\ forall header uid,
      JS.truthy header = true ->
      castObjectId (JS.toString header) = Some uid ->
      uid <> userId o ->
      ~ In o (listed (my_orders castObjectId
                        (snd (save_order castObjectId e d r)) header)).
Proof.
  intros Ho. pose proof Ho as Hp. apply save_order_persisted in Hp.
  destruct Hp as (c & uid & _ & Hu & _ & Hf & ->).
  assert (Hin : In (new_order e r (line_items c) c uid)
                  (orders (snd (save_order castObjectId e d r)))).
  { rewrite Ho. apply in_or_app. right. now left. }
  split; [|split].
  - unfold delivery_orders, listed. cbn [body json].
    apply (find_sorted_exact date _
             (fun o => status o = "pending")); [|now split].
    intros a. apply String.eqb_eq.
  - unfold so_fields_present in Hf.
    apply andb_true_iff in Hf. destruct Hf as [Hf _].
    apply andb_true_iff in Hf. destruct Hf as [Hf _].
    apply andb_true_iff in Hf. destruct Hf as [Hf _].
    unfold my_orders, listed. rewrite Hf, Hu. cbn.
    apply (find_sorted_exact date _ (fun o => userId o = uid));
      [|now split].
    intros a. apply N.eqb_eq.
  - intros header uid' Ht Hc Hne. unfold my_orders, listed.
    rewrite Ht, Hc. cbn. intros H.
    apply (find_sorted_exact date _ (fun o => userId o = uid')) in H;
      [|intros a; apply N.eqb_eq].
    destruct H as [_ H]. now apply Hne.
Qed.

(** X3. When the driver hands out an [_id] that no stored order has,
    [save-order] keeps the order ids pairwise distinct; a status update
    keeps them distinct whatever the request. *)
Theorem order_ids_stay_unique (e : Mongo.env) (d : db) :
  unique_order_ids d ->
  (forall r, fresh_order_id e d ->
             unique_order_ids (snd (save_order castObjectId e d r)))
  /\ (forall r, unique_order_ids (snd (update_order_status castObjectId e d r))).
Proof.
  unfold unique_order_ids, fresh_order_id. intros Hnd. split.
  - intros r Hfresh.
    destruct (save_order_effect castObjectId e d r)
      as [[-> _] | (c & uid & _ & _ & _ & ->)]; [exact Hnd|].
    cbn [snd orders with_orders]. rewrite map_app. cbn [map].
    now apply NoDup_snoc.
  - intros r.
    destruct (update_order_status_pointwise e d r) as [_ H].
    now rewrite (Forall2_same_ids _ _ H).
Qed.

(** X4. A status update, whatever the request and whatever the answer,
    leaves the users alone and changes no field of any order other than
    [status] and [updatedAt]; so [my-orders] lists for every header the
    same orders, in the same order, before and after. *)
Theorem status_update_keeps_orders (e : Mongo.env) (d : db)
  (r : update_status_body) :
  users (snd (update_order_status castObjectId e d r)) = users d
  /\ Forall2 same_but_status (orders d)
       (orders (snd (update_order_status castObjectId e d r)))
  /\ forall header,
      map o_id (listed (my_orders castObjectId
                          (snd (update_order_status castObjectId e d r)) header))
      = map o_id (listed (my_orders castObjectId d header)).
Proof.
  destruct (update_order_status_pointwise e d r) as [Hu Ho].
  split; [exact Hu|]. split; [exact Ho|].
  intros header. unfold my_orders, listed.
  destruct (JS.truthy header); [|reflexivity].
  destruct (castObjectId (JS.toString header)) as [uid|]; [|reflexivity].
  cbn. apply Forall2_same_ids. apply find_sorted_Forall2; [|exact Ho].
  intros a b (_ & -> & _ & _ & _ & _ & _ & _ & _ & _ & -> & _). now split.
Qed.

(** X5. For a status update whose [orderId] is present and whose status
    is allowed: an [orderId] that does not cast is answered with 500, one
    that no order carries with 404, in both cases with the database
    unchanged; one that an order carries is answered with 200 and the
    updated order, which has the requested status, the clock's time as
    [updatedAt], and is now in the collection. *)
Theorem status_update_outcome (e : Mongo.env) (d : db)
  (r : update_status_body) :
  JS.truthy (us_orderId r) = true ->
  allowed_status (us_status r) = true ->
  (castObjectId (JS.toString (us_orderId r)) = None ->
   update_order_status castObjectId e d r = (fail 500 "Server error", d))
  /\ (forall id,
        castObjectId (JS.toString (us_orderId r)) = Some id ->
        (forall o, In o (orders d) -> o_id o <> id) ->
        update_order_status castObjectId e d r
        = (fail 404 "Order not found", d))
  /\ (forall id o,
        castObjectId (JS.toString (us_orderId r)) = Some id ->
        In o (orders d) -> o_id o = id ->
        http_status (fst (update_order_status castObjectId e d r)) = 200
        /\ exists o',
            body (fst (update_order_status castObjectId e d r)) = OrderPayload o'
            /\ o_id o' = id
            /\ us_status r = Some (status o')
            /\ updatedAt o' = Mongo.now e
            /\ In o' (orders (snd (update_order_status castObjectId e d r)))).
Proof.
  intros Ht Ha. rewrite update_order_status_unfold, Ht, Ha. cbn [andb].
  destruct (allowed_status_inv _ Ha) as (s & Hs & _).
  split; [|split].
  - now intros ->.
  - intros id -> Hnone.
    pose proof (findByIdAndUpdate_found o_id
                  (set_status (JS.toString (us_status r)) (Mongo.now e))
                  id (orders d)) as H.
    destruct (Mongo.findByIdAndUpdate _ _ _ _) as [[b|] os]; [|reflexivity].
    cbn in H. destruct H as (a & Hin & Hid & _). now apply Hnone in Hin.
  - intros id o -> Hin Hid.
    pose proof (findByIdAndUpdate_found o_id
                  (set_status (JS.toString (us_status r)) (Mongo.now e))
                  id (orders d)) as H.
    destruct (Mongo.findByIdAndUpdate _ _ _ _) as [[b|] os]; cbn in H.
    + destruct H as (a & _ & Ha' & -> & Hb). cbn.
      split; [reflexivity|]. eexists. split; [reflexivity|].
      rewrite Hs in *. split; [exact Ha'|]. split; [reflexivity|].
      split; [reflexivity | exact Hb].
    + destruct H as [H _]. now apply H in Hin.
Qed.

(** X6. When the order ids are pairwise distinct, a status update that
    is answered with 200 takes the order with the requested id off the
    list of [delivery-orders] and keeps every other order that was on
    the list. *)
Theorem updated_order_leaves_delivery_list (e : Mongo.env) (d : db)
  (r : update_status_body) (id : Mongo.ObjectId) :
  unique_order_ids d ->
  castObjectId (JS.toString (us_orderId r)) = Some id ->
  http_status (fst (update_order_status castObjectId e d r)) = 200 ->
  (forall o,
      In o (listed (delivery_orders (snd (update_order_status castObjectId e d r)))) ->
      o_id o <> id)
  /\ (forall o,
        In o (listed (delivery_orders d)) -> o_id o <> id ->
        In o (listed (delivery_orders
                        (snd (update_order_status castObjectId e d r))))).
Proof.
  unfold unique_order_ids. intros Hnd Hc H200.
  rewrite update_order_status_unfold, Hc in *.
  destruct (JS.truthy (us_orderId r) && allowed_status (us_status r))%bool
    eqn:Hok; [|discriminate].
  apply andb_true_iff in Hok. destruct Hok as [_ Ha].
  destruct (allowed_status_inv _ Ha) as (s & Hs & Hsv).
  rewrite Hs in *. cbn [JS.toString] in *.
  destruct (findByIdAndUpdate_spec o_id (set_status s (Mongo.now e)) id
              (orders d)) as [Hn | (pre & a & post & Hd & Hid & Hf)].
  { rewrite Hn in H200. discriminate. }
  rewrite Hf in *. cbn [snd with_orders orders listed delivery_orders body json].
  rewrite Hd in Hnd. rewrite map_app in Hnd. cbn [map] in Hnd.
  apply NoDup_remove_2 in Hnd.
  assert (Hother : forall o, In o (pre ++ post) -> o_id o <> id).
  { intros o Ho Heq. apply Hnd. rewrite Hid, <- Heq, <- map_app.
    now apply in_map. }
  assert (Hpending : forall l o,
             In o (Mongo.find_sorted
                     (fun o => String.eqb (status o) "pending") date l)
             <-> In o l /\ status o = "pending").
  { intros l o.
    destruct (find_sorted_exact date
                (fun o => String.eqb (status o) "pending")
                (fun o => status o = "pending") l) as (_ & H & _);
      [intros x; apply String.eqb_eq | apply H]. }
  split.
  - intros o Ho. apply Hpending in Ho. destruct Ho as [Ho Hst].
    apply in_app_or in Ho. destruct Ho as [Ho|[<-|Ho]].
    + apply Hother, in_or_app. now left.
    + cbn in Hst. destruct Hsv; subst s; discriminate.
    + apply Hother, in_or_app. now right.
  - intros o Ho Hne. apply Hpending in Ho. apply Hpending.
    destruct Ho as [Ho Hst]. split; [|exact Hst].
    rewrite Hd in Ho. apply in_app_or in Ho. apply in_or_app.
    destruct Ho as [Ho|[<-|Ho]]; [now left | congruence | right; now right].
Qed.

(** X7. The last status update of an order wins. A status update [r']
    that follows an update [r] with the same [orderId] gets the answer
    it would have got without [r], whatever the two target statuses and
    the two times are; and when that answer is 200 the database is the
    one [r'] alone would have left: the earlier update leaves no trace,
    not even when it had set "delivered" and the later one sets
    "cancelled". A request that is repeated gets the status code of the
    first (the order in a 200 answer carries the later time as
    [updatedAt]). *)
Theorem last_status_update_wins (e e' : Mongo.env) (d : db)
  (r r' : update_status_body) :
  us_orderId r' = us_orderId r ->
  fst (update_order_status castObjectId e'
         (snd (update_order_status castObjectId e d r)) r')
  = fst (update_order_status castObjectId e' d r')
  /\ (http_status (fst (update_order_status castObjectId e' d r')) = 200 ->
      snd (update_order_status castObjectId e'
             (snd (update_order_status castObjectId e d r)) r')
      = snd (update_order_status castObjectId e' d r'))
  /\ http_status
       (fst (update_order_status castObjectId e'
               (snd (update_order_status castObjectId e d r)) r))
     = http_status (fst (update_order_status castObjectId e d r)).
Proof.
  intros Hsame.
  assert (Hfirst : forall q,
             us_orderId q = us_orderId r ->
             fst (update_order_status castObjectId e'
                    (snd (update_order_status castObjectId e d r)) q)
             = fst (update_order_status castObjectId e' d q)
             /\ (http_status (fst (update_order_status castObjectId e' d q))
                 = 200 ->
                 snd (update_order_status castObjectId e'
                        (snd (update_order_status castObjectId e d r)) q)
                 = snd (update_order_status castObjectId e' d q))).
  { clear r' Hsame. intros r' Hsame.
    rewrite (update_order_status_unfold e d r).
    destruct (JS.truthy (us_orderId r) && allowed_status (us_status r))%bool;
      [|now split].
    destruct (castObjectId (JS.toString (us_orderId r))) as [id|] eqn:Hc;
      [|now split].
    pose proof (findByIdAndUpdate_twice o_id
                  (set_status (JS.toString (us_status r)) (Mongo.now e))
                  (set_status (JS.toString (us_status r')) (Mongo.now e'))
                  id (orders d) (fun a => eq_refl) (fun a => eq_refl)) as H.
    pose proof (findByIdAndUpdate_found o_id
                  (set_status (JS.toString (us_status r)) (Mongo.now e))
                  id (orders d)) as Hf.
    destruct (Mongo.findByIdAndUpdate o_id
                (set_status (JS.toString (us_status r)) (Mongo.now e))
                id (orders d)) as [[b|] os];
      cbn [fst snd] in *; [|now split].
    destruct Hf as (a & Ha & Hid & _).
    rewrite !update_order_status_unfold, Hsame, Hc.
    cbn [with_orders orders users]. rewrite H.
    destruct (JS.truthy (us_orderId r) && allowed_status (us_status r'))%bool;
      [|split; [reflexivity | discriminate]].
    pose proof (findByIdAndUpdate_found o_id
                  (set_status (JS.toString (us_status r')) (Mongo.now e'))
                  id (orders d)) as Hf'.
    destruct (Mongo.findByIdAndUpdate o_id
                (set_status (JS.toString (us_status r')) (Mongo.now e'))
                id (orders d)) as [[b'|] os'];
      cbn [fst snd] in *.
    - split; reflexivity.
    - destruct Hf' as [Hnone _]. now elim (Hnone a Ha). }
  destruct (Hfirst r' Hsame) as [H1 H2].
  split; [exact H1|]. split; [exact H2|].
  destruct (Hfirst r eq_refl) as [-> _].
  rewrite !update_order_status_unfold.
  destruct (JS.truthy (us_orderId r) && allowed_status (us_status r))%bool;
    [|reflexivity].
  destruct (castObjectId (JS.toString (us_orderId r))) as [id|];
    [|reflexivity].
  pose proof (findByIdAndUpdate_found o_id
                (set_status (JS.toString (us_status r)) (Mongo.now e))
                id (orders d)) as Hf.
  pose proof (findByIdAndUpdate_found o_id
                (set_status (JS.toString (us_status r)) (Mongo.now e'))
                id (orders d)) as Hf'.
  destruct (Mongo.findByIdAndUpdate o_id
              (set_status (JS.toString (us_status r)) (Mongo.now e))
              id (orders d)) as [[b|] os];
    destruct (Mongo.findByIdAndUpdate o_id
                (set_status (JS.toString (us_status r)) (Mongo.now e'))
                id (orders d)) as [[b'|] os'];
    cbn [fst snd] in *; try reflexivity.
  - destruct Hf as (a & Ha & Hid & _), Hf' as [Hnone _].
    now elim (Hnone a Ha).
  - destruct Hf' as (a & Ha & Hid & _), Hf as [Hnone _].
    now elim (Hnone a Ha).
Qed.

End RentEasyMore.

(** ** Signup followed by login *)

Section SignupThenLogin.
Import Props.

Lemma truthy_nonempty (s : string) : s <> "" -> JS.truthy (Some s) = true.
Proof.
  intros H. simpl. destruct (String.eqb s "") eqn:E; [|reflexivity].
  apply String.eqb_eq in E. contradiction.
Qed.

Lemma phone_is_other {A : Type} (phone_of : A -> string) (p : option string)
  (a : A) :
  p <> Some (phone_of a) -> Mongo.phone_is phone_of p a = false.
Proof.
  destruct p as [s|]; simpl; [|reflexivity]. intros H.
  destruct (String.eqb (phone_of a) s) eqn:E; [|reflexivity].
  apply String.eqb_eq in E. congruence.
Qed.

Lemma eqb_other (stored given : string) :
  given <> stored -> String.eqb stored given = false.
Proof.
  intros H. destruct (String.eqb stored given) eqn:E; [|reflexivity].
  apply String.eqb_eq in E. congruence.
Qed.

(** X8. On Rent Easy, a signup with a name, a phone no account has and a
    password makes the login with that phone and password succeed, with
    the new account's [_id], name and phone (and no password) in the
    answer; the login with that phone and any other password is
    answered 401; and the login of every other phone is answered as
    before the signup. *)
Theorem rent_easy_signup_then_login (e : Mongo.env) (d : RentEasy.db)
  (n p pw : string) :
  n <> "" -> p <> "" -> pw <> "" ->
  (forall a, In a (RentEasy.users d) -> RentEasy.u_phone a <> p) ->
  RentEasy.login
    (snd (RentEasy.signup e d
            {| RentEasy.su_name := Some n; RentEasy.su_phone := Some p;
               RentEasy.su_password := Some pw |}))
    (login_of p pw)
  = RentEasy.json None (RentEasy.UserPayload (Mongo.newId e) n p)
  /\ (forall pw', pw' <> pw ->
        RentEasy.http_status
          (RentEasy.login
             (snd (RentEasy.signup e d
                     {| RentEasy.su_name := Some n; RentEasy.su_phone := Some p;
                        RentEasy.su_password := Some pw |}))
             (login_of p pw')) = 401)
  /\ (forall r, RentEasy.lg_phone r <> Some p ->
        RentEasy.login
          (snd (RentEasy.signup e d
                  {| RentEasy.su_name := Some n; RentEasy.su_phone := Some p;
                     RentEasy.su_password := Some pw |})) r
        = RentEasy.login d r).
Proof.
  intros Hn Hp Hpw Hfree.
  assert (Hnone : Mongo.findOne (Mongo.phone_is RentEasy.u_phone (Some p))
                    (RentEasy.users d) = None).
  { apply findOne_phone_none. intros a Ha [= ->]. now apply (Hfree a). }
  rewrite rent_easy_signup_unfold.
  cbn [RentEasy.su_name RentEasy.su_phone RentEasy.su_password].
  rewrite !truthy_nonempty by assumption. cbn [andb]. rewrite Hnone.
  cbn [snd JS.toString]. unfold RentEasy.login, Mongo.findOne in *.
  cbn [RentEasy.users RentEasy.with_users].
  split; [|split].
  - cbn [login_of RentEasy.lg_phone RentEasy.lg_password].
    rewrite find_app, Hnone. cbn. rewrite String.eqb_refl. cbn.
    now rewrite String.eqb_refl.
  - intros pw' Hne.
    cbn [login_of RentEasy.lg_phone RentEasy.lg_password].
    rewrite find_app, Hnone. cbn. rewrite String.eqb_refl.
    cbn [RentEasy.u_password]. now rewrite (eqb_other pw pw' Hne).
  - intros r Hr. rewrite find_app.
    destruct (find (Mongo.phone_is RentEasy.u_phone (RentEasy.lg_phone r))
                (RentEasy.users d)); [reflexivity|].
    cbn [find]. now rewrite phone_is_other.
Qed.

(** X9. On Chat Point, an owner signup with a phone no owner has and a
    password makes the owner login with that phone and password succeed,
    and the answer carries the whole stored document, password
    included; any other password is answered 401, and a phone no owner
    has, before or after, is answered 404. The same holds for the user
    signup and login. *)
Theorem chat_point_signup_then_login (e : Mongo.env) (d : ChatPoint.db) :
  (forall p pw,
      p <> "" -> pw <> "" ->
      (forall a, In a (ChatPoint.owners d) -> ChatPoint.ow_phone a <> p) ->
      ChatPoint.owner_login
        (snd (ChatPoint.owner_signup e d (owner_login_of p pw)))
        (owner_login_of p pw)
      = ChatPoint.json (Some "Login successful")
          (ChatPoint.OwnerPayload
             {| ChatPoint.ow_id := Mongo.newId e; ChatPoint.ow_phone := p;
                ChatPoint.ow_password := pw |})
      /\ (forall pw', pw' <> pw ->
            ChatPoint.http_status
              (ChatPoint.owner_login
                 (snd (ChatPoint.owner_signup e d (owner_login_of p pw)))
                 (owner_login_of p pw')) = 401)
      /\ (forall q pw',
            q <> p ->
            (forall a, In a (ChatPoint.owners d) -> ChatPoint.ow_phone a <> q) ->
            ChatPoint.http_status
              (ChatPoint.owner_login
                 (snd (ChatPoint.owner_signup e d (owner_login_of p pw)))
                 (owner_login_of q pw')) = 404))
  /\ (forall n p pw,
        n <> "" -> p <> "" -> pw <> "" ->
        (forall a, In a (ChatPoint.users d) -> ChatPoint.u_phone a <> p) ->
        ChatPoint.user_login
          (snd (ChatPoint.user_signup e d
                  {| ChatPoint.su_name := Some n; ChatPoint.su_phone := Some p;
                     ChatPoint.su_password := Some pw |}))
          (user_login_of p pw)
        = ChatPoint.json (Some "Login successful")
            (ChatPoint.UserPayload
               {| ChatPoint.u_id := Mongo.newId e; ChatPoint.u_name := n;
                  ChatPoint.u_phone := p; ChatPoint.u_password := pw |})
        /\ (forall pw', pw' <> pw ->
              ChatPoint.http_status
                (ChatPoint.user_login
                   (snd (ChatPoint.user_signup e d
                           {| ChatPoint.su_name := Some n;
                              ChatPoint.su_phone := Some p;
                              ChatPoint.su_password := Some pw |}))
                   (user_login_of p pw')) = 401)).
Proof.
  split.
  - intros p pw Hp Hpw Hfree.
    assert (Hnone : Mongo.findOne (Mongo.phone_is ChatPoint.ow_phone (Some p))
                      (ChatPoint.owners d) = None).
    { apply findOne_phone_none. intros a Ha [= ->]. now apply (Hfree a). }
    rewrite owner_signup_unfold.
    cbn [owner_login_of ChatPoint.ob_phone ChatPoint.ob_password].
    rewrite !truthy_nonempty by assumption. cbn [andb]. rewrite Hnone.
    cbn [snd JS.toString]. unfold ChatPoint.owner_login, Mongo.findOne in *.
    cbn [ChatPoint.owners ChatPoint.with_owners owner_login_of
         ChatPoint.ob_phone ChatPoint.ob_password].
    split; [|split].
    + rewrite find_app, Hnone. cbn. rewrite String.eqb_refl. cbn.
      now rewrite String.eqb_refl.
    + intros pw' Hne. rewrite find_app, Hnone. cbn. rewrite String.eqb_refl.
      cbn [ChatPoint.ow_password]. now rewrite (eqb_other pw pw' Hne).
    + intros q pw' Hq Hfreeq. rewrite find_app.
      assert (Hq' : find (Mongo.phone_is ChatPoint.ow_phone (Some q))
                      (ChatPoint.owners d) = None).
      { apply findOne_phone_none. intros a Ha [= ->]. now apply (Hfreeq a). }
      rewrite Hq'. cbn [find]. rewrite phone_is_other; [reflexivity|].
      cbn. congruence.
  - intros n p pw Hn Hp Hpw Hfree.
    assert (Hnone : Mongo.findOne (Mongo.phone_is ChatPoint.u_phone (Some p))
                      (ChatPoint.users d) = None).
    { apply findOne_phone_none. intros a Ha [= ->]. now apply (Hfree a). }
    rewrite user_signup_unfold.
    cbn [ChatPoint.su_name ChatPoint.su_phone ChatPoint.su_password].
    rewrite !truthy_nonempty by assumption. cbn [andb]. rewrite Hnone.
    cbn [snd JS.toString]. unfold ChatPoint.user_login, Mongo.findOne in *.
    cbn [ChatPoint.users ChatPoint.with_users user_login_of
         ChatPoint.lg_phone ChatPoint.lg_password].
    split.
    + rewrite find_app, Hnone. cbn. rewrite String.eqb_refl. cbn.
      now rewrite String.eqb_refl.
    + intros pw' Hne. rewrite find_app, Hnone. cbn. rewrite String.eqb_refl.
      cbn [ChatPoint.u_password]. now rewrite (eqb_other pw pw' Hne).
Qed.

End SignupThenLogin.

(** ** Chat Point: orders, continued *)

Section ChatPointMore.
Import ChatPoint Props.

Variable castObjectId : string -> option Mongo.ObjectId.

(** X10. [POST /api/order] answers 400 exactly when the field check
    fails; otherwise 200 or 500. With 200 the answer carries the stored
    order, whose [_id] is the one the driver gave, and exactly that
    order is appended while owners and users are untouched; with any
    other answer the database is unchanged. *)
Theorem post_order_outcome (e : Mongo.env) (d : db) (r : order_body) :
  (http_status (fst (post_order castObjectId e d r)) = 400
   <-> incomplete r = true)
  /\ (http_status (fst (post_order castObjectId e d r)) = 200
      \/ http_status (fst (post_order castObjectId e d r)) = 400
      \/ http_status (fst (post_order castObjectId e d r)) = 500)
  /\ (http_status (fst (post_order castObjectId e d r)) = 200 ->
      exists o,
        body (fst (post_order castObjectId e d r)) = OrderPayload o
        /\ o_id o = Mongo.newId e
        /\ orders (snd (post_order castObjectId e d r)) = (orders d ++ [o])%list
        /\ owners (snd (post_order castObjectId e d r)) = owners d
        /\ users (snd (post_order castObjectId e d r)) = users d)
  /\ (http_status (fst (post_order castObjectId e d r)) <> 200 ->
      snd (post_order castObjectId e d r) = d).
Proof.
  destruct (incomplete r) eqn:Hi.
  - unfold post_order. rewrite Hi. cbn.
    repeat split; auto; discriminate.
  - destruct (incomplete_inv r Hi)
      as (u & its & a & loc & Hu & Hits & _ & Ha & Hl & _).
    rewrite (post_order_unfold castObjectId e d r u its a loc Hi Hu Hits Ha Hl).
    unfold create_order.
    destruct (parse_location loc) as [l|x]; cbn [Mongo.bind];
      [|cbn; repeat split; auto; discriminate].
    destruct (cast_userId castObjectId (rq_userId r)) as [uid|x];
      cbn [Mongo.bind]; [|cbn; repeat split; auto; discriminate].
    destruct (valid_address a l); [|cbn; repeat split; auto; discriminate].
    cbn. split; [split; discriminate|]. split; [auto|].
    split; [|congruence]. intros _. eexists. repeat split.
Qed.

(** X11. A request that passes the field check but whose address has no
    name, or no phone, is answered with 500, not 400, and stores
    nothing: the schema requires both and the handler checks
    neither. *)
Theorem order_needs_address_name (e : Mongo.env) (d : db) (r : order_body)
  (a : address_field) :
  incomplete r = false ->
  rq_address r = Some a ->
  JS.truthy (af_name a) = false \/ JS.truthy (af_phone a) = false ->
  post_order castObjectId e d r = (fail 500 "Failed to save order", d).
Proof.
  intros Hi Ha Hmiss.
  destruct (incomplete_inv r Hi)
    as (u & its & a' & loc & Hu & Hits & _ & Ha' & Hl & _).
  rewrite Ha in Ha'. injection Ha' as <-.
  rewrite (post_order_unfold castObjectId e d r u its a loc Hi Hu Hits Ha Hl).
  unfold create_order.
  destruct (parse_location loc) as [l|x]; cbn [Mongo.bind]; [|reflexivity].
  destruct (cast_userId castObjectId (rq_userId r)) as [uid|x];
    cbn [Mongo.bind]; [|reflexivity].
  assert (Hv : valid_address a l = false).
  { unfold valid_address. destruct Hmiss as [-> | ->]; [reflexivity|].
    now rewrite andb_false_r. }
  now rewrite Hv.
Qed.

(** X12. An order [POST /api/order] stores has status "pending" exactly
    when the request's [paymentMethod] is the string "cash", and
    "unpaid" otherwise; in particular a request without a
    [paymentMethod] is stored with payment method "cash" and status
    "unpaid". *)
Theorem order_payment_status (e : Mongo.env) (d : db) (r : order_body)
  (o : order) :
  orders (snd (post_order castObjectId e d r)) = (orders d ++ [o])%list ->
  (status o = "pending" <-> rq_paymentMethod r = Some "cash")
  /\ (status o = "pending" \/ status o = "unpaid")
  /\ (JS.truthy (rq_paymentMethod r) = false ->
      paymentMethod o = "cash" /\ status o = "unpaid").
Proof.
  intros Ho. apply post_order_persisted in Ho.
  destruct Ho as (u & its & a & loc & l & uid & _ & _ & _ & _ & _ & _ & _ & ->).
  cbn [status paymentMethod new_order].
  destruct (rq_paymentMethod r) as [m|]; cbn.
  - destruct (String.eqb m "cash") eqn:E.
    + apply String.eqb_eq in E. subst m. cbn.
      repeat split; auto; discriminate.
    + split; [split; [discriminate|]|].
      * intros [= ->]. discriminate.
      * split; [auto|]. destruct (String.eqb m ""); cbn; [|discriminate].
        intros _. now split.
  - repeat split; auto; discriminate.
Qed.

(** X13. An order stored for a request with a [userId] is listed by
    [GET /api/orders/:userId] called with that [userId]; an order stored
    for a request without one has no [userId] and is listed for no
    parameter at all. *)
Theorem placed_order_is_listed (e : Mongo.env) (d : db) (r : order_body)
  (o : order) :
  orders (snd (post_order castObjectId e d r)) = (orders d ++ [o])%list ->
  (JS.truthy (rq_userId r) = true ->
   In o (chat_listed (orders_by_user castObjectId
                        (snd (post_order castObjectId e d r))
                        (JS.toString (rq_userId r)))))
  /\ (JS.truthy (rq_userId r) = false ->
      userId o = None
      /\ forall param,
          ~ In o (chat_listed (orders_by_user castObjectId
                                 (snd (post_order castObjectId e d r)) param))).
Proof.
  intros Ho. pose proof Ho as Hp. apply post_order_persisted in Hp.
  destruct Hp as (u & its & a & loc & l & uid & _ & _ & _ & _ & _ & Hc & _ & ->).
  assert (Hlisted : forall param uid' x,
             castObjectId param = Some uid' ->
             (In x (chat_listed (orders_by_user castObjectId
                                   (snd (post_order castObjectId e d r)) param))
              <-> In x (orders (snd (post_order castObjectId e d r)))
                  /\ userId x = Some uid')).
  { intros param uid' x Hcast. unfold orders_by_user, chat_listed.
    rewrite Hcast. cbn.
    destruct (find_sorted_exact date
                (fun o => match userId o with
                          | Some v => N.eqb v uid'
                          | None => false
                          end)
                (fun o => userId o = Some uid')
                (orders (snd (post_order castObjectId e d r))))
      as (_ & H & _); [|apply H].
    intros y. destruct (userId y) as [v|].
    - rewrite N.eqb_eq. split; [now intros -> | now intros [= ->]].
    - split; discriminate. }
  unfold cast_userId in Hc. split.
  - intros Ht. rewrite Ht in Hc.
    destruct (castObjectId (JS.toString (rq_userId r))) as [id|] eqn:Hcast;
      [|discriminate].
    injection Hc as <-. apply (Hlisted _ id); [exact Hcast|].
    split; [|reflexivity]. rewrite Ho. apply in_or_app. right. now left.
  - intros Hf. rewrite Hf in Hc. injection Hc as <-.
    split; [reflexivity|]. intros param.
    destruct (castObjectId param) as [uid'|] eqn:Hcast.
    + intros H. apply (Hlisted _ uid') in H; [|exact Hcast].
      destruct H as [_ H]. discriminate.
    + unfold orders_by_user, chat_listed. rewrite Hcast. cbn. tauto.
Qed.

End ChatPointMore.

(** ** Chat Point: shops *)

Section ChatPointUpload.
Import ChatPointShops.

Variable castNumber : string -> Mongo.result (option JS.number).
Variable cloud : string -> option string.

Lemma unlink_if_exists (d : list string) (p : string) :
  (if existsSync d p then unlinkSync d p else d) = unlinkSync d p.
Proof.
  unfold existsSync, unlinkSync. induction d as [|q d IH]; simpl.
  - reflexivity.
  - rewrite (String.eqb_sym p q). destruct (String.eqb q p); simpl.
    + reflexivity.
    + destruct (existsb (String.eqb p) d); [reflexivity|]. now rewrite <- IH.
Qed.

Lemma in_unlinkSync (d : list string) (p q : string) :
  In q (unlinkSync d p) <-> In q d /\ q <> p.
Proof.
  unfold unlinkSync. rewrite filter_In, negb_true_iff. split.
  - intros [H E]. split; [exact H|]. intros ->.
    now rewrite String.eqb_refl in E.
  - intros [H Hne]. split; [exact H|].
    destruct (String.eqb q p) eqn:E; [|reflexivity].
    apply String.eqb_eq in E. contradiction.
Qed.

(** The loop over the files: the URLs of the uploads that succeeded, in
    order, and the disk without the files' paths. *)
Lemma upload_files_fold (files : list file) :
  forall urls d,
    fst (fold_left (upload_step cloud) files (urls, d))
    = (urls ++ uploaded_urls cloud files)%list
    /\ forall q,
        In q (snd (fold_left (upload_step cloud) files (urls, d)))
        <-> In q d /\ ~ In q (map path files).
Proof.
  induction files as [|f files IH]; intros urls d.
  - simpl. rewrite app_nil_r. split; [reflexivity|]. tauto.
  - cbn [fold_left upload_step]. rewrite unlink_if_exists.
    destruct (IH (match cloud (path f) with
                  | Some u => (urls ++ [u])%list
                  | None => urls
                  end) (unlinkSync d (path f))) as [Hu Hd].
    split.
    + rewrite Hu. cbn [uploaded_urls flat_map].
      fold (uploaded_urls cloud files).
      destruct (cloud (path f)); [now rewrite <- app_assoc | reflexivity].
    + intros q. rewrite Hd, in_unlinkSync. cbn [map In].
      split.
      * intros [[H Hne] Hn]. split; [exact H|]. intros [E|E]; [|tauto].
        now apply Hne.
      * intros [H Hn]. split; [split; [exact H|]|]; intros E; apply Hn; auto.
Qed.

Lemma uploaded_urls_none (files : list file) :
  (forall f, In f files -> cloud (path f) = None) ->
  uploaded_urls cloud files = [].
Proof.
  unfold uploaded_urls. induction files as [|f files IH]; intros H.
  - reflexivity.
  - cbn [flat_map]. rewrite (H f (or_introl eq_refl)). cbn [app].
    apply IH. intros g Hg. apply H. now right.
Qed.

(** [POST /api/upload] once there are files. *)
Lemma upload_unfold (e : Mongo.env) (st : store) (r : upload_body)
  (files : list file) :
  up_files r = Some files -> files <> [] ->
  upload castNumber cloud e st r =
  match new_shop castNumber e r (uploaded_urls cloud files) with
  | Mongo.Ok s =>
      (json (Some "Shop uploaded successfully") (ShopPayload s),
       {| shops := (shops st ++ [s])%list;
          disk := snd (upload_files cloud files (disk st)) |})
  | Mongo.Throw _ =>
      (fail 500 "Failed to upload shop",
       {| shops := shops st;
          disk := snd (upload_files cloud files (disk st)) |})
  end.
Proof.
  intros Hf Hne. unfold upload. rewrite Hf.
  destruct files as [|f files]; [contradiction|].
  cbn [List.length Nat.eqb].
  pose proof (upload_files_fold (f :: files) [] (disk st)) as [Hu _].
  unfold upload_files in *.
  destruct (fold_left (upload_step cloud) (f :: files) ([], disk st))
    as [urls d]. cbn [fst snd] in *. subst urls. cbn [app].
  now destruct (new_shop castNumber e r (uploaded_urls cloud (f :: files))).
Qed.

(** X14. Whatever [POST /api/upload] answers once it has files, 200 or
    500, afterwards the local disk holds none of the uploaded files'
    paths and every other path it held before; with no files the answer
    is 400 and neither the shops nor the disk change. *)
Theorem upload_removes_local_files (e : Mongo.env) (st : store)
  (r : upload_body) :
  (forall files,
      up_files r = Some files -> files <> [] ->
      forall q,
        In q (disk (snd (upload castNumber cloud e st r)))
        <-> In q (disk st) /\ ~ In q (map path files))
  /\ (up_files r = None \/ up_files r = Some [] ->
      upload castNumber cloud e st r = (fail 400 "No images uploaded", st)).
Proof.
  split.
  - intros files Hf Hne q. rewrite (upload_unfold e st r files Hf Hne).
    pose proof (upload_files_fold files [] (disk st)) as [_ Hd].
    unfold upload_files.
    destruct (new_shop castNumber e r (uploaded_urls cloud files));
      cbn [snd disk]; apply Hd.
  - unfold upload. now intros [-> | ->].
Qed.

(** X15. With files, [POST /api/upload] stores a shop exactly when the
    price text casts: the answer is then 200 with the shop, which is
    appended to the collection and whose [imageUrl] holds the URLs of
    the uploads that succeeded, in the order of the files, so that a
    shop is stored, with no image, even when every upload fails. When
    the price does not cast the answer is 500 and no shop is stored. *)
Theorem upload_outcome (e : Mongo.env) (st : store) (r : upload_body)
  (files : list file) :
  up_files r = Some files -> files <> [] ->
  (forall s,
      new_shop castNumber e r (uploaded_urls cloud files) = Mongo.Ok s ->
      fst (upload castNumber cloud e st r)
      = json (Some "Shop uploaded successfully") (ShopPayload s)
      /\ shops (snd (upload castNumber cloud e st r)) = (shops st ++ [s])%list
      /\ s_id s = Mongo.newId e
      /\ imageUrl s = uploaded_urls cloud files
      /\ ((forall f, In f files -> cloud (path f) = None) -> imageUrl s = [])
      /\ (forall f u, In f files -> cloud (path f) = Some u ->
                      In u (imageUrl s)))
  /\ (forall x,
        new_shop castNumber e r (uploaded_urls cloud files) = Mongo.Throw x ->
        http_status (fst (upload castNumber cloud e st r)) = 500
        /\ shops (snd (upload castNumber cloud e st r)) = shops st)
  /\ (up_price r = None ->
      http_status (fst (upload castNumber cloud e st r)) = 200).
Proof.
  intros Hf Hne. rewrite (upload_unfold e st r files Hf Hne).
  split; [|split].
  - intros s Hs. rewrite Hs. cbn [fst snd shops].
    unfold new_shop in Hs.
    destruct (match up_price r with
              | Some t => castNumber t
              | None => Mongo.Ok None
              end) as [pr|x]; [|discriminate].
    cbn in Hs. injection Hs as <-. cbn [s_id imageUrl].
    split; [reflexivity|]. split; [reflexivity|]. split; [reflexivity|].
    split; [reflexivity|]. split.
    + apply uploaded_urls_none.
    + intros f u Hin Hc. unfold uploaded_urls. apply in_flat_map.
      exists f. split; [exact Hin|]. rewrite Hc. now left.
  - intros x Hx. now rewrite Hx.
  - intros Hp. unfold new_shop. now rewrite Hp.
Qed.

End ChatPointUpload.

Section ChatPointDelete.
Import ChatPointShops.

Variable castObjectId : string -> option Mongo.ObjectId.

Lemma findByIdAndDelete_spec (id : Mongo.ObjectId) (c : list shop) :
  (findByIdAndDelete id c = (None, c)
   /\ forall s, In s c -> s_id s <> id)
  \/ exists pre s post,
      c = (pre ++ s :: post)%list /\ s_id s = id
      /\ (forall x, In x pre -> s_id x <> id)
      /\ findByIdAndDelete id c = (Some s, (pre ++ post)%list).
Proof.
  induction c as [|a c IH]; simpl.
  - left. split; [reflexivity | intros ? []].
  - destruct (N.eqb (s_id a) id) eqn:E.
    + right. exists [], a, c. apply N.eqb_eq in E.
      split; [reflexivity|]. split; [exact E|].
      split; [intros ? [] | reflexivity].
    + apply N.eqb_neq in E.
      destruct IH as [[-> Hn] | (pre & s & post & -> & Hid & Hpre & ->)].
      * left. split; [reflexivity|]. intros s [<-|Hs]; auto.
      * right. exists (a :: pre), s, post.
        split; [reflexivity|]. split; [exact Hid|].
        split; [|reflexivity]. intros x [<-|Hx]; auto.
Qed.

(** X16. [DELETE /api/shop/:id] answers 500 when the parameter does not
    cast and 404 when no shop carries the id, in both cases without
    changing anything; when a shop carries it the answer is 200, the
    first such shop is removed, the other shops keep their order and
    the disk is untouched; and when the shop ids are pairwise distinct
    no shop carries the id afterwards, so that deleting again is
    answered 404. *)
Theorem delete_shop_outcome (st : store) (param : string) :
  (castObjectId param = None ->
   delete_shop castObjectId st param = (fail 500 "Failed to delete shop", st))
  /\ forall id,
      castObjectId param = Some id ->
      ((forall s, In s (shops st) -> s_id s <> id) ->
       delete_shop castObjectId st param = (fail 404 "Shop not found", st))
      /\ (forall s,
            In s (shops st) -> s_id s = id ->
            http_status (fst (delete_shop castObjectId st param)) = 200
            /\ disk (snd (delete_shop castObjectId st param)) = disk st
            /\ exists pre s0 post,
                shops st = (pre ++ s0 :: post)%list
                /\ s_id s0 = id
                /\ (forall x, In x pre -> s_id x <> id)
                /\ shops (snd (delete_shop castObjectId st param))
                   = (pre ++ post)%list
                /\ (NoDup (map s_id (shops st)) ->
                    (forall x,
                        In x (shops (snd (delete_shop castObjectId st param))) ->
                        s_id x <> id)
                    /\ http_status
                         (fst (delete_shop castObjectId
                                 (snd (delete_shop castObjectId st param))
                                 param)) = 404)).
Proof.
  unfold delete_shop. split; [now intros ->|].
  intros id Hc. rewrite Hc.
  destruct (findByIdAndDelete_spec id (shops st))
    as [[Hn Hnone] | (pre & s0 & post & Hd & Hid & Hpre & Hf)].
  - rewrite Hn. split; [reflexivity|].
    intros s Hs Hsid. now apply Hnone in Hs.
  - rewrite Hf. cbn [Mongo.try_catch fst snd].
    split.
    { intros Hnone. exfalso. apply (Hnone s0); [|exact Hid].
      rewrite Hd. apply in_or_app. right. now left. }
    intros s _ _. split; [reflexivity|]. split; [reflexivity|].
    exists pre, s0, post.
    split; [exact Hd|]. split; [exact Hid|]. split; [exact Hpre|].
    split; [reflexivity|]. intros H. split.
    + intros x Hx Hxid.
      rewrite Hd, map_app in H. cbn [map] in H.
      apply NoDup_remove_2 in H. apply H.
      rewrite Hid, <- Hxid, <- map_app. now apply in_map.
    + cbn [shops disk].
      destruct (findByIdAndDelete_spec id (pre ++ post))
        as [[-> _] | (pre' & s1 & post' & Hd' & Hid' & _ & _)];
        [reflexivity|].
      exfalso. rewrite Hd, map_app in H. cbn [map] in H.
      apply NoDup_remove_2 in H. apply H.
      rewrite Hid, <- Hid', <- map_app, Hd'. apply in_map.
      apply in_or_app. right. now left.
Qed.

Lemma findByIdAndDelete_last (id : Mongo.ObjectId) (c : list shop) (s : shop) :
  ~ In id (map s_id c) -> s_id s = id ->
  findByIdAndDelete id (c ++ [s]) = (Some s, c).
Proof.
  intros Hfresh Hid. induction c as [|a c IH]; simpl.
  - now rewrite Hid, N.eqb_refl.
  - destruct (N.eqb (s_id a) id) eqn:E.
    + apply N.eqb_eq in E. exfalso. apply Hfresh. now left.
    + rewrite IH; [reflexivity|]. intros H. apply Hfresh. now right.
Qed.

End ChatPointDelete.

Section ChatPointUploadDelete.
Import ChatPointShops.

Variable castObjectId : string -> option Mongo.ObjectId.
Variable castNumber : string -> Mongo.result (option JS.number).
Variable cloud : string -> option string.

(** X17. When the driver's [_id] is one no stored shop has, an upload
    that is answered 200 followed by the delete of that [_id] leaves the
    shop collection as it was before the upload; in between, the new
    shop is on the list of [GET /api/shops]. *)
Theorem upload_then_delete (e : Mongo.env) (st : store) (r : upload_body)
  (param : string) :
  ~ In (Mongo.newId e) (map s_id (shops st)) ->
  castObjectId param = Some (Mongo.newId e) ->
  http_status (fst (upload castNumber cloud e st r)) = 200 ->
  (exists s l,
      body (fst (upload castNumber cloud e st r)) = ShopPayload s
      /\ list_shops (snd (upload castNumber cloud e st r))
         = json None (ShopsPayload l)
      /\ In s l)
  /\ http_status
       (fst (delete_shop castObjectId (snd (upload castNumber cloud e st r))
               param)) = 200
  /\ shops (snd (delete_shop castObjectId
                   (snd (upload castNumber cloud e st r)) param))
     = shops st.
Proof.
  intros Hfresh Hc H200.
  destruct (up_files r) as [files|] eqn:Hf;
    [|unfold upload in H200; rewrite Hf in H200; discriminate].
  destruct files as [|f files];
    [unfold upload in H200; rewrite Hf in H200; discriminate|].
  assert (Hne : f :: files <> []) by discriminate.
  rewrite (upload_unfold castNumber cloud e st r _ Hf Hne) in *.
  destruct (new_shop castNumber e r (uploaded_urls cloud (f :: files)))
    as [s|x] eqn:Hs; [|discriminate].
  assert (Hid : s_id s = Mongo.newId e).
  { unfold new_shop in Hs.
    destruct (match up_price r with
              | Some t => castNumber t
              | None => Mongo.Ok None
              end); [|discriminate].
    cbn in Hs. now injection Hs as <-. }
  cbn [fst snd body json]. split; [|split].
  - exists s. eexists. split; [reflexivity|]. split; [reflexivity|].
    cbn [shops].
    destruct (find_sorted_exact s_date (fun _ : shop => true)
                (fun _ => True) (shops st ++ [s])) as (_ & H & _);
      [tauto|].
    apply H. split; [|exact I]. apply in_or_app. right. now left.
  - unfold delete_shop. rewrite Hc. cbn [shops].
    now rewrite (findByIdAndDelete_last _ _ s Hfresh Hid).
  - unfold delete_shop. rewrite Hc. cbn [shops].
    now rewrite (findByIdAndDelete_last _ _ s Hfresh Hid).
Qed.

End ChatPointUploadDelete.

(** X18. [GET /api/shops] lists, newest first: on Chat Point every
    stored shop, each as often as it is stored; on Rent Easy exactly the
    stored shops whose type is "shop". *)
Theorem shops_are_listed :
  (forall st, exists l,
      ChatPointShops.list_shops st
      = ChatPointShops.json None (ChatPointShops.ShopsPayload l)
      /\ Permutation l (ChatPointShops.shops st)
      /\ Sorted (Mongo.desc ChatPointShops.s_date) l)
  /\ (forall c,
        Permutation (RentEasyShops.list_shops c)
          (filter (fun s => String.eqb (RentEasyShops.s_type s) "shop") c)
        /\ (forall s, In s (RentEasyShops.list_shops c)
                      <-> In s c /\ RentEasyShops.s_type s = "shop")
        /\ Sorted (Mongo.desc RentEasyShops.s_date) (RentEasyShops.list_shops c)).
Proof.
  split.
  - intros st. eexists. split; [reflexivity|].
    destruct (find_sorted_spec ChatPointShops.s_date (fun _ => true)
                (ChatPointShops.shops st)) as [Hp Hs].
    split; [|exact Hs]. now rewrite filter_all in Hp.
  - intros c. apply find_sorted_exact. intros s. apply String.eqb_eq.
Qed.

(** ** The service worker, continued *)

Section ServiceWorkerMore.
Import ServiceWorker Props.

Lemma run_fetches (st : storage) (reqs : list (network * request)) :
  run st (fetches reqs) = st.
Proof.
  unfold run, fetches. induction reqs as [|[net r] reqs IH]; simpl.
  - reflexivity.
  - unfold on_fetch. now destruct (caches_match st r).
Qed.

(** X19. After an install that succeeded on a storage the worker alone
    has written, and after any number of fetch events, a GET for a
    listed path is answered from the cache with the response fetched at
    install time, whatever the network would answer now, even
    nothing. *)
Theorem listed_path_served_from_cache (net : network) (st : storage) :
  own_storage st ->
  fst (on_install net st) = true ->
  forall reqs net' u,
    In u urlsToCache ->
    fst (on_fetch net' (run (snd (on_install net st)) (fetches reqs)) (GET u))
    = net (GET u)
    /\ exists resp, net (GET u) = Some resp /\ ok resp = true.
Proof.
  intros Hown Hok reqs net' u Hu. rewrite run_fetches.
  destruct (fetch_all net urlsToCache) as [l|] eqn:Hl;
    [|rewrite on_install_unfold, Hl in Hok; discriminate].
  destruct (fetch_all_spec net urlsToCache l Hl) as [Hk Hnet].
  pose proof (cached_after_install net st l CACHE_NAME u Hl) as Hcached.
  rewrite String.eqb_refl in Hcached.
  rewrite <- Hk in Hu. destruct (get_of_key l u Hu) as (resp & Hg & Hin).
  rewrite Hg in Hcached. destruct (Hnet u resp Hin) as [Hn Hr].
  split; [|exists resp; now split].
  destruct (install_own_storage net st Hown) as [_ H].
  destruct (H Hok) as (c & Hst & _).
  unfold on_fetch. rewrite Hst in *.
  unfold cached in Hcached. cbn [JS.get] in Hcached.
  rewrite String.eqb_refl in Hcached.
  cbn [caches_match]. unfold cache_match. cbn [GET method url].
  rewrite String.eqb_refl, listed_without_fragment
    by (rewrite <- Hk; exact Hu).
  rewrite Hcached. cbn [fst]. congruence.
Qed.

(** X20. In every run of the worker from an empty storage, a request
    that is not a GET for a listed path, the fragment of its URL left
    out of the comparison (so: a POST to the API, or a GET for a URL
    that differs from every listed path in more than a fragment), is
    handed to the network and answered with whatever the network
    answers, and the storage is not touched. *)
Theorem other_requests_go_to_network (evs : list event) (net : network)
  (r : request) :
  method r <> "GET" \/ ~ In (without_fragment (url r)) urlsToCache ->
  on_fetch net (run [] evs) r = (net r, run [] evs).
Proof.
  intros Hr.
  assert (Hown : own_storage (run [] evs))
    by (apply run_own_storage; now left).
  unfold on_fetch.
  assert (Hnone : caches_match (run [] evs) r = None).
  { destruct Hown as [->|(c & -> & Hc)]; [reflexivity|].
    cbn [caches_match]. unfold cache_match.
    destruct (String.eqb (method r) "GET") eqn:E; [|reflexivity].
    apply String.eqb_eq in E. destruct Hr as [Hr|Hr]; [contradiction|].
    rewrite get_not_key; [reflexivity|].
    destruct Hc as [-> | ->]; [intros [] | exact Hr]. }
  now rewrite Hnone.
Qed.

(** X21. When one listed path is not served, or served with a status
    that is not ok, a first install fails and caches nothing at all, not
    even the paths that were served: the named cache exists and is
    empty, and every later request is answered by the network. *)
Theorem failed_install_caches_nothing (net : network) (u : string) :
  In u urlsToCache ->
  net (GET u) = None
  \/ (exists resp, net (GET u) = Some resp /\ ok resp = false) ->
  on_install net [] = (false, [(CACHE_NAME, [])])
  /\ forall net' r,
      on_fetch net' (snd (on_install net [])) r
      = (net' r, [(CACHE_NAME, [])]).
Proof.
  intros Hu Hbad.
  assert (Hnone : fetch_all net urlsToCache = None).
  { destruct (fetch_all net urlsToCache) as [l|] eqn:Hl; [|reflexivity].
    assert (Hall : exists l, fetch_all net urlsToCache = Some l) by eauto.
    destruct (proj1 (fetch_all_total net urlsToCache) Hall u Hu)
      as (resp & Hn & Hr).
    destruct Hbad as [Hb|(resp' & Hb & Hr')]; congruence. }
  assert (Hi : on_install net [] = (false, [(CACHE_NAME, [])]))
    by (rewrite on_install_unfold, Hnone; reflexivity).
  split; [exact Hi|]. intros net' r. rewrite Hi. cbn [snd].
  unfold on_fetch. cbn [caches_match]. unfold cache_match. cbn [JS.get].
  now destruct (String.eqb (method r) "GET").
Qed.

Lemma install_keeps_first_cache (net : network) (name : string) (c : cache)
  (rest : storage) :
  name <> CACHE_NAME ->
  exists rest', snd (on_install net ((name, c) :: rest)) = (name, c) :: rest'.
Proof.
  intros Hne.
  assert (E : String.eqb name CACHE_NAME = false).
  { destruct (String.eqb name CACHE_NAME) eqn:E; [|reflexivity].
    apply String.eqb_eq in E. contradiction. }
  assert (Hopen : exists rest1,
             caches_open ((name, c) :: rest) CACHE_NAME = (name, c) :: rest1).
  { unfold caches_open. cbn [JS.get]. rewrite E.
    destruct (JS.get rest CACHE_NAME); eexists; reflexivity. }
  destruct Hopen as (rest1 & Hopen).
  rewrite on_install_unfold, Hopen.
  destruct (fetch_all net urlsToCache); cbn [snd set_cache].
  - rewrite E. eexists. reflexivity.
  - eexists. reflexivity.
Qed.

(** X22. The worker never clears another cache: when a cache with
    another name stands first in the storage and holds a response that
    matches a request, then after any run of installs and fetches the
    worker still answers that request with that response, whatever the
    installs have fetched in the meantime. *)
Theorem older_cache_is_served (name : string) (c : cache) (rest : storage)
  (r : request) (resp : response) (evs : list event) (net : network) :
  name <> CACHE_NAME ->
  cache_match c r = Some resp ->
  fst (on_fetch net (run ((name, c) :: rest) evs) r) = Some resp.
Proof.
  intros Hne Hm.
  assert (Hrun : exists rest', run ((name, c) :: rest) evs = (name, c) :: rest').
  { revert rest. unfold run.
    induction evs as [|ev evs IH]; intros rest; cbn [fold_left].
    - eexists. reflexivity.
    - destruct ev as [net0|net0 r0]; cbn [step].
      + destruct (install_keeps_first_cache net0 name c rest Hne)
          as (rest' & ->). apply IH.
      + unfold on_fetch.
        destruct (caches_match ((name, c) :: rest) r0); apply IH. }
  destruct Hrun as (rest' & ->).
  unfold on_fetch. cbn [caches_match]. now rewrite Hm.
Qed.

End ServiceWorkerMore.

(** ** Rent Easy: what every stored order looks like *)

Section RentEasyInvariant.
Import RentEasy CartSpec Props.

Variable castObjectId : string -> option Mongo.ObjectId.

Lemma line_items_positive (c : cart) :
  Forall (fun li => exists q, Mongo.quantity li = Some q /\ 0 < q)
    (line_items c).
Proof.
  unfold line_items. apply Forall_forall. intros li Hli.
  apply in_map_iff in Hli. destruct Hli as (kv & <- & Hkv).
  apply filter_In in Hkv. destruct Hkv as [_ Hpos].
  exists (qty (snd kv)). split; [reflexivity|].
  now apply Z.ltb_lt.
Qed.

(** X23. Every order Rent Easy stores has at least one line item and
    only positive quantities: when that holds of the stored orders it
    holds after any [save-order] and after any status update. *)
Theorem orders_stay_well_stocked (e : Mongo.env) (d : db) :
  Forall well_stocked (orders d) ->
  (forall r, Forall well_stocked (orders (snd (save_order castObjectId e d r))))
  /\ (forall r,
        Forall well_stocked
          (orders (snd (update_order_status castObjectId e d r)))).
Proof.
  intros Hd. split.
  - intros r.
    destruct (save_order_effect castObjectId e d r)
      as [[-> _] | (c & uid & _ & _ & Hne & ->)]; [exact Hd|].
    cbn [snd orders with_orders]. apply Forall_app. split; [exact Hd|].
    constructor; [|constructor]. split; [exact Hne|].
    apply line_items_positive.
  - intros r. destruct (update_order_status_pointwise castObjectId e d r)
      as [_ H].
    induction H as [|a b l l' Hab _ IH]; [constructor|].
    inversion Hd as [|? ? Ha Hl]; subst.
    constructor; [|now apply IH].
    destruct Hab as (_ & _ & _ & _ & _ & Hitems & _).
    unfold well_stocked in *. now rewrite Hitems.
Qed.

End RentEasyInvariant.

(** ** The further properties at work on the sample data *)

Lemma saved_order_is_listed_witness :
  RentEasy.orders Samples.rent_db1
  = (RentEasy.orders Samples.rent_db0 ++ [MoreSamples.order1])%list
  /\ In MoreSamples.order1
       (Props.listed (RentEasy.delivery_orders Samples.rent_db1))
  /\ In MoreSamples.order1
       (Props.listed (RentEasy.my_orders Driver.castObjectId Samples.rent_db1
                        (Some Samples.uid_a)))
  /\ ~ In MoreSamples.order1
         (Props.listed (RentEasy.my_orders Driver.castObjectId Samples.rent_db1
                          (Some Samples.uid_b))).
Proof.
  assert (H : RentEasy.orders Samples.rent_db1
              = (RentEasy.orders Samples.rent_db0 ++ [MoreSamples.order1])%list)
    by reflexivity.
  destruct (saved_order_is_listed Driver.castObjectId Samples.env1
              Samples.rent_db0
              (Samples.save_req Samples.uid_a Samples.cart1 (Some 225))
              MoreSamples.order1 H) as (Hd & Hm & Hother).
  split; [exact H|]. split; [exact Hd|]. split; [exact Hm|].
  apply (Hother (Some Samples.uid_b) 187%N); [reflexivity | reflexivity|].
  discriminate.
Defined.

Lemma order_ids_stay_unique_witness :
  Props.unique_order_ids Samples.rent_db1
  /\ Props.fresh_order_id Samples.env2 Samples.rent_db1
  /\ Props.unique_order_ids
       (snd (RentEasy.save_order Driver.castObjectId Samples.env2
               Samples.rent_db1
               (Samples.save_req Samples.uid_b Samples.cart1 (Some 225)))).
Proof.
  assert (Hu : Props.unique_order_ids Samples.rent_db1).
  { unfold Props.unique_order_ids. cbn. constructor; [intros []|constructor]. }
  assert (Hf : Props.fresh_order_id Samples.env2 Samples.rent_db1).
  { unfold Props.fresh_order_id. cbn. intros [H|[]]. discriminate. }
  split; [exact Hu|]. split; [exact Hf|].
  now apply (order_ids_stay_unique Driver.castObjectId Samples.env2
               Samples.rent_db1 Hu).
Defined.

Lemma status_update_outcome_witness :
  RentEasy.http_status
    (fst (RentEasy.update_order_status Driver.castObjectId Samples.env2
            Samples.rent_db1 (Samples.status_req "delivered"))) = 200
  /\ RentEasy.update_order_status Driver.castObjectId Samples.env2
       Samples.rent_db0 (Samples.status_req "delivered")
     = (RentEasy.fail 404 "Order not found", Samples.rent_db0)
  /\ RentEasy.update_order_status Driver.castObjectId Samples.env2
       Samples.rent_db1
       {| RentEasy.us_orderId := Some "order-1";
          RentEasy.us_status := Some "delivered" |}
     = (RentEasy.fail 500 "Server error", Samples.rent_db1).
Proof.
  split; [|split].
  - apply (status_update_outcome Driver.castObjectId Samples.env2
             Samples.rent_db1 (Samples.status_req "delivered")
             eq_refl eq_refl) with (id := 1%N) (o := MoreSamples.order1);
      [reflexivity | now left | reflexivity].
  - apply (status_update_outcome Driver.castObjectId Samples.env2
             Samples.rent_db0 (Samples.status_req "delivered")
             eq_refl eq_refl) with (id := 1%N); [reflexivity | intros o []].
  - apply (status_update_outcome Driver.castObjectId Samples.env2
             Samples.rent_db1
             {| RentEasy.us_orderId := Some "order-1";
                RentEasy.us_status := Some "delivered" |}
             eq_refl eq_refl). reflexivity.
Defined.

Lemma updated_order_leaves_delivery_list_witness :
  map RentEasy.o_id
    (Props.listed (RentEasy.delivery_orders Samples.rent_db3))
  = [3%N; 2%N; 1%N]
  /\ map RentEasy.o_id
       (Props.listed
          (RentEasy.delivery_orders
             (snd (RentEasy.update_order_status Driver.castObjectId
                     Samples.env3 Samples.rent_db3
                     (Samples.status_req "delivered")))))
     = [3%N; 2%N]
  /\ forall o,
      In o (Props.listed
              (RentEasy.delivery_orders
                 (snd (RentEasy.update_order_status Driver.castObjectId
                         Samples.env3 Samples.rent_db3
                         (Samples.status_req "delivered"))))) ->
      RentEasy.o_id o <> 1%N.
Proof.
  assert (Hu : Props.unique_order_ids Samples.rent_db3).
  { unfold Props.unique_order_ids. cbn.
    repeat (constructor; [cbn; intros H;
                          repeat (destruct H as [H|H]; [discriminate H|]);
                          exact H|]).
    constructor. }
  assert (Hc : Driver.castObjectId
                 (JS.toString (RentEasy.us_orderId
                                 (Samples.status_req "delivered")))
               = Some 1%N) by reflexivity.
  assert (H200 : RentEasy.http_status
                   (fst (RentEasy.update_order_status Driver.castObjectId
                           Samples.env3 Samples.rent_db3
                           (Samples.status_req "delivered"))) = 200)
    by (vm_compute; reflexivity).
  destruct (updated_order_leaves_delivery_list Driver.castObjectId
              Samples.env3 Samples.rent_db3 (Samples.status_req "delivered")
              1%N Hu Hc H200) as [Hgone _].
  split; [vm_compute; reflexivity|]. split; [vm_compute; reflexivity|].
  exact Hgone.
Defined.

(** The order of [rent_db1], delivered at time 2000 and cancelled at
    time 3000, is as if it had been cancelled at once. *)
Lemma last_status_update_wins_witness :
  RentEasy.update_order_status Driver.castObjectId Samples.env3
    Samples.rent_db2 (Samples.status_req "cancelled")
  = RentEasy.update_order_status Driver.castObjectId Samples.env3
      Samples.rent_db1 (Samples.status_req "cancelled").
Proof.
  destruct (last_status_update_wins Driver.castObjectId Samples.env2
              Samples.env3 Samples.rent_db1 (Samples.status_req "delivered")
              (Samples.status_req "cancelled") eq_refl) as (Hfst & Hsnd & _).
  apply injective_projections; [exact Hfst|].
  apply Hsnd. vm_compute. reflexivity.
Defined.

Lemma rent_easy_signup_then_login_witness :
  RentEasy.login
    (snd (RentEasy.signup Samples.env1 Samples.rent_db0
            {| RentEasy.su_name := Some "Asha";
               RentEasy.su_phone := Some "9000000001";
               RentEasy.su_password := Some "secret" |}))
    (Props.login_of "9000000001" "secret")
  = RentEasy.json None (RentEasy.UserPayload 1%N "Asha" "9000000001").
Proof.
  apply (rent_easy_signup_then_login Samples.env1 Samples.rent_db0
           "Asha" "9000000001" "secret");
    try discriminate.
  intros a [].
Defined.

Lemma chat_point_signup_then_login_witness :
  ChatPoint.owner_login Samples.chat_db1
    (Props.owner_login_of "9000000002" "open sesame")
  = ChatPoint.json (Some "Login successful")
      (ChatPoint.OwnerPayload Samples.owner1)
  /\ ChatPoint.http_status
       (ChatPoint.owner_login Samples.chat_db1
          (Props.owner_login_of "9000000004" "open sesame")) = 404.
Proof.
  destruct (chat_point_signup_then_login Samples.env1 Samples.chat_db0)
    as [Howner _].
  destruct (Howner "9000000002" "open sesame") as (Hok & _ & Hunknown);
    [discriminate | discriminate | intros a [] |].
  split; [exact Hok|].
  apply Hunknown; [discriminate | intros a []].
Defined.

Lemma order_needs_address_name_witness :
  ChatPoint.incomplete MoreSamples.nameless_order = false
  /\ ChatPoint.post_order Driver.castObjectId Samples.env1 Samples.chat_db0
       MoreSamples.nameless_order
     = (ChatPoint.fail 500 "Failed to save order", Samples.chat_db0).
Proof.
  split; [reflexivity|].
  apply (order_needs_address_name Driver.castObjectId Samples.env1
           Samples.chat_db0 MoreSamples.nameless_order
           MoreSamples.nameless_address eq_refl eq_refl).
  now left.
Defined.

Lemma order_payment_status_witness :
  ChatPoint.orders
    (snd (ChatPoint.post_order Driver.castObjectId Samples.env1
            Samples.chat_db0 MoreSamples.guest_order))
  = (ChatPoint.orders Samples.chat_db0
     ++ [MoreSamples.chat_order MoreSamples.guest_order None])%list
  /\ ChatPoint.paymentMethod
       (MoreSamples.chat_order MoreSamples.guest_order None) = "cash"
  /\ ChatPoint.status
       (MoreSamples.chat_order MoreSamples.guest_order None) = "unpaid".
Proof.
  assert (H : ChatPoint.orders
                (snd (ChatPoint.post_order Driver.castObjectId Samples.env1
                        Samples.chat_db0 MoreSamples.guest_order))
              = (ChatPoint.orders Samples.chat_db0
                 ++ [MoreSamples.chat_order MoreSamples.guest_order None])%list)
    by (vm_compute; reflexivity).
  split; [exact H|].
  apply (order_payment_status Driver.castObjectId Samples.env1
           Samples.chat_db0 MoreSamples.guest_order _ H).
  reflexivity.
Defined.

Lemma placed_order_is_listed_witness :
  In (MoreSamples.chat_order
        (Samples.order_req "Lat: 12.9716, Lng: -77.59" Samples.items1)
        (Some 170%N))
    (Props.chat_listed
       (ChatPoint.orders_by_user Driver.castObjectId
          (snd (ChatPoint.post_order Driver.castObjectId Samples.env1
                  Samples.chat_db0
                  (Samples.order_req "Lat: 12.9716, Lng: -77.59"
                     Samples.items1)))
          Samples.uid_a))
  /\ forall param,
      ~ In (MoreSamples.chat_order MoreSamples.guest_order None)
          (Props.chat_listed
             (ChatPoint.orders_by_user Driver.castObjectId
                (snd (ChatPoint.post_order Driver.castObjectId Samples.env1
                        Samples.chat_db0 MoreSamples.guest_order))
                param)).
Proof.
  assert (Hsent :
    ChatPoint.orders
      (snd (ChatPoint.post_order Driver.castObjectId Samples.env1
              Samples.chat_db0
              (Samples.order_req "Lat: 12.9716, Lng: -77.59" Samples.items1)))
    = (ChatPoint.orders Samples.chat_db0
       ++ [MoreSamples.chat_order
             (Samples.order_req "Lat: 12.9716, Lng: -77.59" Samples.items1)
             (Some 170%N)])%list) by (vm_compute; reflexivity).
  assert (Hguest :
    ChatPoint.orders
      (snd (ChatPoint.post_order Driver.castObjectId Samples.env1
              Samples.chat_db0 MoreSamples.guest_order))
    = (ChatPoint.orders Samples.chat_db0
       ++ [MoreSamples.chat_order MoreSamples.guest_order None])%list)
    by (vm_compute; reflexivity).
  split.
  - destruct (placed_order_is_listed Driver.castObjectId Samples.env1
                Samples.chat_db0 _ _ Hsent) as [Hlisted _].
    exact (Hlisted eq_refl).
  - destruct (placed_order_is_listed Driver.castObjectId Samples.env1
                Samples.chat_db0 _ _ Hguest) as [_ Hnot].
    exact (proj2 (Hnot eq_refl)).
Defined.

Example upload_sample :
  ChatPointShops.upload MoreSamples.castNumber1 MoreSamples.cloud1
    Samples.env1 MoreSamples.store0 (MoreSamples.upload1 "250")
  = (ChatPointShops.json (Some "Shop uploaded successfully")
       (ChatPointShops.ShopPayload MoreSamples.shop1),
     {| ChatPointShops.shops := [MoreSamples.shop1];
        ChatPointShops.disk := ["notes.txt"] |})
  /\ ChatPointShops.upload MoreSamples.castNumber1 MoreSamples.cloud1
       Samples.env1 MoreSamples.store0 (MoreSamples.upload1 "a lot")
     = (ChatPointShops.fail 500 "Failed to upload shop",
        {| ChatPointShops.shops := [];
           ChatPointShops.disk := ["notes.txt"] |}).
Proof. split; vm_compute; reflexivity. Qed.

Lemma upload_removes_local_files_witness :
  ChatPointShops.up_files (MoreSamples.upload1 "a lot") = Some MoreSamples.files1
  /\ forall q,
      In q (ChatPointShops.disk
              (snd (ChatPointShops.upload MoreSamples.castNumber1
                      MoreSamples.cloud1 Samples.env1 MoreSamples.store0
                      (MoreSamples.upload1 "a lot"))))
      <-> In q (ChatPointShops.disk MoreSamples.store0)
          /\ ~ In q (map ChatPointShops.path MoreSamples.files1).
Proof.
  split; [reflexivity|].
  apply (proj1 (upload_removes_local_files MoreSamples.castNumber1
                  MoreSamples.cloud1 Samples.env1 MoreSamples.store0
                  (MoreSamples.upload1 "a lot")) MoreSamples.files1);
    [reflexivity | discriminate].
Defined.

Lemma upload_outcome_witness :
  ChatPointShops.new_shop MoreSamples.castNumber1 Samples.env1
    (MoreSamples.upload1 "250")
    (ChatPointShops.uploaded_urls MoreSamples.cloud1 MoreSamples.files1)
  = Mongo.Ok MoreSamples.shop1
  /\ ChatPointShops.shops MoreSamples.store1
     = (ChatPointShops.shops MoreSamples.store0 ++ [MoreSamples.shop1])%list
  /\ ChatPointShops.imageUrl MoreSamples.shop1
     = ChatPointShops.uploaded_urls MoreSamples.cloud1 MoreSamples.files1.
Proof.
  assert (Hs : ChatPointShops.new_shop MoreSamples.castNumber1 Samples.env1
                 (MoreSamples.upload1 "250")
                 (ChatPointShops.uploaded_urls MoreSamples.cloud1
                    MoreSamples.files1)
               = Mongo.Ok MoreSamples.shop1) by reflexivity.
  assert (Hne : MoreSamples.files1 <> []) by discriminate.
  destruct (upload_outcome MoreSamples.castNumber1 MoreSamples.cloud1
              Samples.env1 MoreSamples.store0 (MoreSamples.upload1 "250")
              MoreSamples.files1 eq_refl Hne) as (Hok & _ & _).
  destruct (Hok MoreSamples.shop1 Hs) as (_ & Hshops & _ & Himg & _).
  split; [exact Hs|]. split; [exact Hshops | exact Himg].
Defined.

Lemma delete_shop_outcome_witness :
  ChatPointShops.http_status
    (fst (ChatPointShops.delete_shop Driver.castObjectId MoreSamples.store1
            Samples.oid1)) = 200
  /\ ChatPointShops.delete_shop Driver.castObjectId MoreSamples.store0
       Samples.oid1
     = (ChatPointShops.fail 404 "Shop not found", MoreSamples.store0)
  /\ ChatPointShops.delete_shop Driver.castObjectId MoreSamples.store1
       "shop-1"
     = (ChatPointShops.fail 500 "Failed to delete shop", MoreSamples.store1).
Proof.
  destruct (delete_shop_outcome Driver.castObjectId MoreSamples.store1
              Samples.oid1) as [_ Hfound].
  destruct (delete_shop_outcome Driver.castObjectId MoreSamples.store0
              Samples.oid1) as [_ Hmissing].
  destruct (delete_shop_outcome Driver.castObjectId MoreSamples.store1
              "shop-1") as [Hcast _].
  split; [|split].
  - apply (Hfound 1%N eq_refl) with (s := MoreSamples.shop1);
      [now left | reflexivity].
  - apply (Hmissing 1%N eq_refl). intros s [].
  - apply Hcast. reflexivity.
Defined.

Lemma upload_then_delete_witness :
  ChatPointShops.shops MoreSamples.store1 = [MoreSamples.shop1]
  /\ ChatPointShops.shops
       (snd (ChatPointShops.delete_shop Driver.castObjectId MoreSamples.store1
               Samples.oid1))
     = ChatPointShops.shops MoreSamples.store0.
Proof.
  split; [reflexivity|].
  apply (upload_then_delete Driver.castObjectId MoreSamples.castNumber1
           MoreSamples.cloud1 Samples.env1 MoreSamples.store0
           (MoreSamples.upload1 "250") Samples.oid1);
    [intros [] | reflexivity | reflexivity].
Defined.

Lemma listed_path_served_from_cache_witness :
  fst (ServiceWorker.on_install (Samples.net_version "v1:") []) = true
  /\ fst (ServiceWorker.on_fetch (fun _ => None) Samples.installed1
            (ServiceWorker.GET "/orders.html"))
     = Some {| ServiceWorker.ok := true;
               ServiceWorker.content := "v1:/orders.html" |}.
Proof.
  split; [reflexivity|].
  apply (listed_path_served_from_cache (Samples.net_version "v1:") []
           (or_introl eq_refl) eq_refl [] (fun _ => None) "/orders.html").
  cbn. tauto.
Defined.

Lemma other_requests_go_to_network_witness :
  ServiceWorker.on_fetch (Samples.net_version "v2:")
    (ServiceWorker.run [] [ServiceWorker.Install (Samples.net_version "v1:")])
    {| ServiceWorker.method := "POST"; ServiceWorker.url := "/" |}
  = (Some {| ServiceWorker.ok := true; ServiceWorker.content := "v2:/" |},
     ServiceWorker.run [] [ServiceWorker.Install (Samples.net_version "v1:")])
  /\ ServiceWorker.on_fetch (Samples.net_version "v2:")
       (ServiceWorker.run [] [ServiceWorker.Install (Samples.net_version "v1:")])
       (ServiceWorker.GET "/upload.html#top")
     = (Some {| ServiceWorker.ok := true;
                ServiceWorker.content := "v2:/upload.html#top" |},
        ServiceWorker.run [] [ServiceWorker.Install (Samples.net_version "v1:")]).
Proof.
  split.
  - apply (other_requests_go_to_network
             [ServiceWorker.Install (Samples.net_version "v1:")]
             (Samples.net_version "v2:")
             {| ServiceWorker.method := "POST"; ServiceWorker.url := "/" |}).
    left. discriminate.
  - apply (other_requests_go_to_network
             [ServiceWorker.Install (Samples.net_version "v1:")]
             (Samples.net_version "v2:")
             (ServiceWorker.GET "/upload.html#top")).
    right. cbn. intros H.
    repeat (destruct H as [H|H]; [discriminate H|]). exact H.
Defined.

(** A fragment on a listed path plays no part: the request is answered
    from the cache. *)
Example fragment_is_left_out :
  ServiceWorker.without_fragment "/index.html#top" = "/index.html"
  /\ fst (ServiceWorker.on_fetch (Samples.net_version "v2:")
            Samples.installed1 (ServiceWorker.GET "/index.html#top"))
     = Some {| ServiceWorker.ok := true;
               ServiceWorker.content := "v1:/index.html" |}.
Proof. split; vm_compute; reflexivity. Qed.

Lemma failed_install_caches_nothing_witness :
  In "/cart.html" ServiceWorker.urlsToCache
  /\ ServiceWorker.on_install MoreSamples.net_without_cart []
     = (false, [(ServiceWorker.CACHE_NAME, [])]).
Proof.
  assert (Hin : In "/cart.html" ServiceWorker.urlsToCache) by (cbn; tauto).
  split; [exact Hin|].
  apply (failed_install_caches_nothing MoreSamples.net_without_cart
           "/cart.html" Hin).
  now left.
Defined.

Lemma older_cache_is_served_witness :
  fst (ServiceWorker.on_fetch (Samples.net_version "v9:")
         (ServiceWorker.run MoreSamples.old_storage
            [ServiceWorker.Install (Samples.net_version "v9:")])
         (ServiceWorker.GET "/"))
  = Some MoreSamples.old_response
  /\ ServiceWorker.cached
       (ServiceWorker.run MoreSamples.old_storage
          [ServiceWorker.Install (Samples.net_version "v9:")])
       ServiceWorker.CACHE_NAME "/"
     = Some {| ServiceWorker.ok := true; ServiceWorker.content := "v9:/" |}.
Proof.
  split; [|vm_compute; reflexivity].
  apply (older_cache_is_served "chatpoint-v8"
           [("/", MoreSamples.old_response)] [] (ServiceWorker.GET "/")
           MoreSamples.old_response
           [ServiceWorker.Install (Samples.net_version "v9:")]
           (Samples.net_version "v9:"));
    [discriminate | reflexivity].
Defined.

Lemma orders_stay_well_stocked_witness :
  Forall Props.well_stocked (RentEasy.orders Samples.rent_db0)
  /\ Forall Props.well_stocked (RentEasy.orders Samples.rent_db1).
Proof.
  assert (H0 : Forall Props.well_stocked (RentEasy.orders Samples.rent_db0))
    by constructor.
  split; [exact H0|].
  apply (proj1 (orders_stay_well_stocked Driver.castObjectId Samples.env1
                  Samples.rent_db0 H0)
           (Samples.save_req Samples.uid_a Samples.cart1 (Some 225))).
Defined.
